(** * Scroll-driven story-map choreography: embedding and verification

    The repository drives an embedded web map from the scroll position of a
    story page.  Three source files carry the logic studied here:

    - the scroll tracker (docking observer, panel bounds, panel progress),
    - the scroll animator ([scrollAnimation], [interpolateViewpoint],
      [interpolateTimeSlider]),
    - the slide animator ([slideAnimation], [toggleLayerVisibility], ...).

    JavaScript numbers are IEEE-754 binary64 values; they are embedded as
    Rocq's primitive floats, whose operations are the same binary64
    operations (round to nearest, ties to even).  The few [Math] functions
    the program calls are written out over that type.

    The second half of the development follows the code further: the
    embedding relay of the tracker (frame watcher, source observer), the
    listeners of the map animator ([setupMessageListener],
    [setupHashListener]) and the two programs run against each other. *)

From Stdlib Require Import Floats ZArith QArith Qround Qminmax List String Bool Lia.
From Stdlib Require Import DecimalString DecimalPos DecimalN Permutation.
Import ListNotations.

#[local] Set Warnings "-inexact-float".
#[local] Open Scope float_scope.

(* ================================================================= *)
(** * JavaScript numbers *)

Module JsNumber.

(** A JavaScript number. *)
Definition number := float.

(** Exact conversion of a small non-negative integer (below 2^53). *)
Definition of_Z (z : Z) : number := PrimFloat.of_uint63 (Uint63.of_Z z).

(** [Math.ceil]: the least integral double not below [x]; NaN, the
    infinities, both zeros and every double with a non-negative exponent
    are returned as they are; a value in (-1, 0) yields -0. *)
Definition Math_ceil (x : number) : number :=
  match Prim2SF x with
  | S754_finite s m e =>
      if (0 <=? e)%Z then x
      else
        let d := Z.pow 2 (- e) in
        if s then
          let q := Z.div (Z.pos m) d in
          if (q =? 0)%Z then neg_zero else - of_Z q
        else of_Z (Z.div (Z.pos m + d - 1) d)
  | _ => x
  end.

(** [Math.min(x, y)]: NaN if either argument is NaN; -0 is below +0. *)
Definition Math_min (x y : number) : number :=
  if is_nan x || is_nan y then nan
  else if x <? y then x
  else if y <? x then y
  else if get_sign x then x else y.

(** [Math.max(x, y)]: NaN if either argument is NaN; +0 is above -0. *)
Definition Math_max (x y : number) : number :=
  if is_nan x || is_nan y then nan
  else if x <? y then y
  else if y <? x then x
  else if get_sign x then y else x.

(** Strict equality [===] on numbers. *)
Definition strict_eq (x y : number) : bool := (x =? y).

(** [ToIntegerOrInfinity] on a finite number: the fraction is dropped
    (rounding toward zero) and a zero result is +0. *)
Definition truncate (x : number) : number :=
  match Prim2SF x with
  | S754_finite s m e =>
      if (0 <=? e)%Z then x
      else
        let q := Z.div (Z.pos m) (Z.pow 2 (- e)) in
        if s then (if (q =? 0)%Z then 0 else - of_Z q) else of_Z q
  | _ => 0
  end.

(** [TimeClip]: the time value a [Date] made from the number [time] holds;
    NaN (an invalid date) outside 8.64e15 milliseconds around the epoch. *)
Definition TimeClip (time : number) : number :=
  if is_finite time && (abs time <=? 8.64e15) then truncate time else nan.

End JsNumber.
Import JsNumber.


(* ================================================================= *)
(** * Plain objects used as lookup tables

  Both dispatch tables and the unit table are object literals read with
  [table[key]].  Such a read finds the literal's own properties and then
  the members every object inherits from [Object.prototype]. *)

Module JsObject.
#[local] Open Scope string_scope.

(** The function-valued members of [Object.prototype]. *)
Definition objectPrototypeFunctions : list string :=
  [ "constructor"; "hasOwnProperty"; "isPrototypeOf";
    "propertyIsEnumerable"; "toLocaleString"; "toString"; "valueOf";
    "__defineGetter__"; "__defineSetter__";
    "__lookupGetter__"; "__lookupSetter__" ].

Definition mem (key : string) (l : list string) : bool :=
  existsb (String.eqb key) l.

(** The result of [table[key]] on an object literal whose own properties
    are given by [own]. *)
Inductive Property (A : Type) : Type :=
| Undefined                          (* no such property *)
| Own (a : A)                        (* a property of the literal *)
| InheritedFunction (name : string)  (* a method of Object.prototype *)
| InheritedObject.                   (* "__proto__": Object.prototype itself *)
Arguments Undefined {A}.
Arguments Own {A} a.
Arguments InheritedFunction {A} name.
Arguments InheritedObject {A}.

Definition lookup {A : Type} (own : string -> option A) (key : string)
  : Property A :=
  match own key with
  | Some a => Own a
  | None =>
      if mem key objectPrototypeFunctions then InheritedFunction key
      else if String.eqb key "__proto__" then InheritedObject
      else Undefined
  end.

(** How a call ends. *)
Inductive Completion := Normal | Throw.

(** Calling an inherited method with one object argument.  [thisIsObject]
    tells whether the call has an object receiver ([table[key](arg)]) or
    none ([f(arg)] in module code, where [this] is [undefined]). *)
Definition callInherited (thisIsObject : bool) (name : string) : Completion :=
  if thisIsObject then
    if mem name ["__defineGetter__"; "__defineSetter__"] then Throw else Normal
  else
    if mem name ["constructor"; "toString"] then Normal else Throw.

End JsObject.
Import JsObject.

(* ================================================================= *)
(** * The scroll tracker *)

Module ScrollTracker.

Inductive Direction := down | up.

(** What the tracker reads of a narrative panel: its class list, its
    [offsetHeight], and the [parseFloat] of three computed lengths. *)
Record Panel := {
  first : bool;
  last : bool;
  offsetHeight : number;
  marginTop : number;
  paddingBottom : number;
  marginBottom : number
}.

(** The module-level variables. [dockStartScroll = None] is [null]. *)
Record State := {
  isDocked : bool;
  dockStartScroll : option number;
  lastScrollY : number;
  scrollDirection : Direction;
  currentSlide : Z
}.

Definition getPanelHeight (panel : Panel) : number :=
  if first panel then offsetHeight panel - marginTop panel
  else if last panel then offsetHeight panel - paddingBottom panel
  else offsetHeight panel + marginBottom panel + marginTop panel.

(** [null] in arithmetic position converts to +0. *)
Definition toNumber (v : option number) : number :=
  match v with Some n => n | None => 0 end.

(** [getPanelScrollBounds]; [None] stands for the TypeError raised when
    [getPanelHeight] receives [undefined] (an index outside the list). *)
Definition getPanelScrollBounds (dock : option number) (panels : list Panel)
    (currentSlide : Z) : option (number * number) :=
  if (currentSlide <? 0)%Z then None
  else
    let n := Z.to_nat currentSlide in
    match nth_error panels n with
    | None => None
    | Some panel =>
        let panelStartScroll :=
          fold_left (fun acc p => acc + getPanelHeight p)
                    (firstn n panels) (toNumber dock) in
        let panelHeight := getPanelHeight panel in
        let panelEndScroll := panelStartScroll + panelHeight in
        Some (panelStartScroll, panelEndScroll)
    end.

Definition getPanelProgress (dock : option number) (panels : list Panel)
    (currentSlide : Z) (scrollY : number) : option number :=
  match getPanelScrollBounds dock panels currentSlide with
  | None => None
  | Some (panelStartScroll, panelEndScroll) =>
      let progress :=
        (scrollY - panelStartScroll) / (panelEndScroll - panelStartScroll) in
      Some (Math_max 0 (Math_min 1 progress))
  end.

(** Messages posted to the embedded frame. *)
Inductive Message :=
| Handshake
| Progress (slide : Z) (progress : number).

(** The callbacks the module registers.  Each event carries what its
    callback reads from the page. *)
Inductive Event :=
| DockingMutation (currentlyDocked : bool) (scrollY : number)
| Scroll (scrollY : number) (panels : list Panel) (iframe : bool)
| IframeFound                                (* a frame not yet observed *)
| IframeSrcChanged (slideNumber : option Z). (* [parseInt] of the fragment; [None] is NaN *)

Definition dockingObserver (currentlyDocked : bool) (currentScroll : number)
    (st : State) : State :=
  let st1 :=
    if currentlyDocked && negb (isDocked st) then
      {| isDocked := true;
         dockStartScroll :=
           match scrollDirection st with
           | down => Some currentScroll
           | up => dockStartScroll st
           end;
         lastScrollY := lastScrollY st;
         scrollDirection := scrollDirection st;
         currentSlide := currentSlide st |}
    else st in
  if negb currentlyDocked && isDocked st1 then
    {| isDocked := false;
       dockStartScroll := dockStartScroll st1;
       lastScrollY := lastScrollY st1;
       scrollDirection := scrollDirection st1;
       currentSlide := currentSlide st1 |}
  else st1.

Definition scrollListener (currentScroll : number) (panels : list Panel)
    (iframe : bool) (st : State) : State * list Message :=
  let st' :=
    {| isDocked := isDocked st;
       dockStartScroll := dockStartScroll st;
       lastScrollY := currentScroll;
       scrollDirection :=
         if lastScrollY st <? currentScroll then down
         else if currentScroll <? lastScrollY st then up
         else scrollDirection st;
       currentSlide := currentSlide st |} in
  match isDocked st', dockStartScroll st' with
  | true, Some _ =>
      if (currentSlide st' <? Z.of_nat (List.length panels))%Z then
        match getPanelProgress (dockStartScroll st') panels
                               (currentSlide st') currentScroll with
        | Some progress =>
            (st', if iframe then [Progress (currentSlide st') progress] else [])
        | None => (st', [])
        end
      else (st', [])
  | _, _ => (st', [])
  end.

Definition setCurrentSlide (n : Z) (st : State) : State :=
  {| isDocked := isDocked st;
     dockStartScroll := dockStartScroll st;
     lastScrollY := lastScrollY st;
     scrollDirection := scrollDirection st;
     currentSlide := n |}.

(** One callback. *)
Definition step (st : State) (ev : Event) : State * list Message :=
  match ev with
  | DockingMutation currentlyDocked scrollY =>
      (dockingObserver currentlyDocked scrollY st, [])
  | Scroll scrollY panels iframe => scrollListener scrollY panels iframe st
  | IframeFound => (setCurrentSlide 0%Z st, [Handshake])
  | IframeSrcChanged slideNumber =>
      (setCurrentSlide match slideNumber with Some n => n | None => 0%Z end st, [])
  end.

(** A sequence of callbacks, oldest first. *)
Definition run (st : State) (evs : list Event) : State :=
  fold_left (fun s ev => fst (step s ev)) evs st.

(** The variables as the module initialises them, given the scroll
    position at load time. *)
Definition initial (scrollY : number) : State :=
  {| isDocked := false;
     dockStartScroll := None;
     lastScrollY := scrollY;
     scrollDirection := down;
     currentSlide := 0%Z |}.

End ScrollTracker.

(* ================================================================= *)
(** * Choreography data and the page objects the animators act on *)

Module Choreography.
#[local] Open Scope string_scope.
#[local] Open Scope float_scope.

Record SpatialReference := { latestWkid : Z; wkid : Z }.

Record Extent := {
  spatialReference : SpatialReference;
  xmin : number;
  ymin : number;
  xmax : number;
  ymax : number
}.

Record Viewpoint := {
  rotation : number;
  scale : number;
  targetGeometry : Extent
}.

(** A time window.  The two bounds hold the time value, in milliseconds,
    that [new Date(field).getTime()] yields (NaN for an invalid date). *)
Record TimeWindow := {
  timeSliderStart : number;
  timeSliderEnd : number;
  timeSliderStep : number;
  timeSliderUnit : string
}.

(** [None] is an absent (or [null]) list of titles. *)
Record LayerVisibility := {
  layersOn : option (list string);
  layersOff : option (list string)
}.

Record TrackRenderer := {
  trackLayerName : string;
  trackFieldName : string;
  trackInfo : Z
}.

(** The values a choreography entry can hold under a key. *)
Inductive JsValue :=
| VNull
| VBool (b : bool)
| VNum (n : number)
| VStr (s : string)
| VObject                       (* an object or array with none of the fields read *)
| VViewpoint (v : Viewpoint)
| VTimeWindow (t : TimeWindow)
| VLayerVisibility (l : LayerVisibility)
| VTrackRenderer (r : TrackRenderer).

(** A choreography entry: its own properties in [Object.keys] order. *)
Definition Slide := list (string * JsValue).

(** [slide[key]]; [None] is [undefined]. *)
Fixpoint get (slide : Slide) (key : string) : option JsValue :=
  match slide with
  | [] => None
  | (k, v) :: rest => if String.eqb k key then Some v else get rest key
  end.

(** Truthiness, as [!value] tests it. *)
Definition truthy (v : option JsValue) : bool :=
  match v with
  | None | Some VNull => false
  | Some (VBool b) => b
  | Some (VNum n) => negb (is_nan n || is_zero n)
  | Some (VStr s) => negb (String.eqb s EmptyString)
  | Some _ => true
  end.

(** ** The map view, the time slider and the console *)

Record Layer := { title : string; visible : bool }.

(** A [Date]: the time value it holds, in milliseconds; NaN for an
    invalid date. *)
Record Date := { time : number }.

(** [new Date(value)] for a number. *)
Definition newDate (value : number) : Date := {| time := TimeClip value |}.

(** [start = None] is the open start ([null]). *)
Record TimeExtent := { start : option Date; end_ : Date }.

Record TimeSlider := {
  timeExtent : option TimeExtent;   (* last value assigned, if any *)
  playing : bool;
  stopCalls : nat                   (* calls of [stop()] *)
}.

Record GoTo := {
  target : option JsValue;          (* what [Viewpoint.fromJSON] was given *)
  animate : bool;
  duration : number
}.

Inductive LogEntry :=
| ErrorProcessing (key : string)    (* "Error processing '<key>':" *)
| ErrorTimeSlider                   (* "Error setting time slider:" *)
| ErrorTrackRenderer                (* "Failed to set track Renderer:" *)
| ErrorRemoveTrackLayer             (* "Failed to remove track layer:" *)
| ErrorAddTrackLayer.               (* "Failed to add track layer:" *)

(** The function a dispatcher called. *)
Inductive Callee :=
| Registered (name : string)        (* a function of the dispatch table *)
| Builtin (name : string).          (* a method of Object.prototype *)

(** How the three calls into the mapping SDK that the track reset makes
    end on this page: [true] when the call throws.  A call that throws
    leaves the layer collection as it was. *)
Record Sdk := {
  removeThrows : bool;                   (* [mapView.map.remove(layer)] *)
  cloneThrows : bool;                    (* [layer.clone()] *)
  addThrows : bool                       (* [mapView.map.add(layer)] *)
}.

Record World := {
  goToCalls : list GoTo;                 (* [mapView.goTo] calls, oldest first *)
  layers : list Layer;                   (* [mapView.map.layers] *)
  timeSlider : option TimeSlider;        (* [None]: the page has no slider *)
  errors : list LogEntry;                (* [console.error], oldest first *)
  invoked : list (string * Callee);      (* calls made by the dispatchers *)
  sdk : Sdk                              (* how the SDK calls end *)
}.

Definition goTo (g : GoTo) (w : World) : World :=
  {| goToCalls := goToCalls w ++ [g];
     layers := layers w;
     timeSlider := timeSlider w;
     errors := errors w;
     invoked := invoked w;
     sdk := sdk w |}.

Definition setLayers (ls : list Layer) (w : World) : World :=
  {| goToCalls := goToCalls w;
     layers := ls;
     timeSlider := timeSlider w;
     errors := errors w;
     invoked := invoked w;
     sdk := sdk w |}.

Definition setTimeSlider (ts : TimeSlider) (w : World) : World :=
  {| goToCalls := goToCalls w;
     layers := layers w;
     timeSlider := Some ts;
     errors := errors w;
     invoked := invoked w;
     sdk := sdk w |}.

Definition consoleError (e : LogEntry) (w : World) : World :=
  {| goToCalls := goToCalls w;
     layers := layers w;
     timeSlider := timeSlider w;
     errors := errors w ++ [e];
     invoked := invoked w;
     sdk := sdk w |}.

Definition noteCall (key : string) (c : Callee) (w : World) : World :=
  {| goToCalls := goToCalls w;
     layers := layers w;
     timeSlider := timeSlider w;
     errors := errors w;
     invoked := invoked w ++ [(key, c)];
     sdk := sdk w |}.

(** A table entry: the function's name in the source and its effect. *)
Record Handler (Context : Type) := {
  name : string;
  body : Context -> World -> World * Completion
}.
Arguments name {Context} h.
Arguments body {Context} h.

(** [try { f(context) } catch (error) { console.error(...) }] around the
    function found under [key]; [receiver] tells whether the call is made
    through the table ([table[key](context)]) or on the bare function. *)
Definition tryCall {Context : Type} (receiver : bool)
    (found : Property (Handler Context)) (key : string) (context : Context)
    (w : World) : World :=
  match found with
  | Own h =>
      match body h context (noteCall key (Registered (name h)) w) with
      | (w', Normal) => w'
      | (w', Throw) => consoleError (ErrorProcessing key) w'
      end
  | InheritedFunction f =>
      match callInherited receiver f with
      | Normal => noteCall key (Builtin f) w
      | Throw => consoleError (ErrorProcessing key) (noteCall key (Builtin f) w)
      end
  | InheritedObject | Undefined =>
      (* not callable: TypeError, caught *)
      consoleError (ErrorProcessing key) w
  end.

End Choreography.
Import Choreography.

(* ================================================================= *)
(** * The scroll animator *)

Module ScrollAnimator.
#[local] Open Scope string_scope.
#[local] Open Scope float_scope.

(** The shared context object built by [scrollAnimation]; the map view
    and the time slider it also carries are the ones of the [World]. *)
Record Context := {
  slideCurrent : Slide;
  slideNext : option Slide;      (* [None]: there is no next entry *)
  progress : number
}.

(** The local [interpolate] of both handlers. *)
Definition interpolate (progress fromVal toVal : number) : number :=
  fromVal + (toVal - fromVal) * progress.

(** The object literal handed to [Viewpoint.fromJSON]. *)
Definition blend (progress : number) (currentViewpoint nextViewpoint : Viewpoint)
  : Viewpoint :=
  let interpolate := interpolate progress in
  {| rotation := interpolate (rotation currentViewpoint) (rotation nextViewpoint);
     scale := interpolate (scale currentViewpoint) (scale nextViewpoint);
     targetGeometry :=
       {| spatialReference :=
            {| latestWkid :=
                 latestWkid (spatialReference (targetGeometry currentViewpoint));
               wkid :=
                 wkid (spatialReference (targetGeometry currentViewpoint)) |};
          xmin := interpolate (xmin (targetGeometry currentViewpoint))
                              (xmin (targetGeometry nextViewpoint));
          ymin := interpolate (ymin (targetGeometry currentViewpoint))
                              (ymin (targetGeometry nextViewpoint));
          xmax := interpolate (xmax (targetGeometry currentViewpoint))
                              (xmax (targetGeometry nextViewpoint));
          ymax := interpolate (ymax (targetGeometry currentViewpoint))
                              (ymax (targetGeometry nextViewpoint)) |} |}.

(** [interpolateViewpoint].  Reading [targetGeometry.spatialReference] (or
    [rotation] of [null]) on a value that is not a viewpoint raises a
    TypeError before anything is sent to the map. *)
Definition interpolateViewpoint (context : Context) (w : World)
  : World * Completion :=
  let currentViewpoint := get (slideCurrent context) "viewpoint" in
  let nextViewpoint :=
    match slideNext context with
    | Some next => get next "viewpoint"
    | None => None
    end in
  if negb (truthy nextViewpoint) then (w, Normal)
  else
    match currentViewpoint, nextViewpoint with
    | Some (VViewpoint c), Some (VViewpoint n) =>
        let viewpoint := blend (progress context) c n in
        (goTo {| target := Some (VViewpoint viewpoint);
                 animate := true;
                 duration := 1000 |} w, Normal)
    | _, _ => (w, Throw)
    end.

(** The own properties of [unitToMs]. *)
Definition unitToMs (unit : string) : option number :=
  if String.eqb unit "milliseconds" then Some 1
  else if String.eqb unit "seconds" then Some 1000
  else if String.eqb unit "minutes" then Some (60 * 1000)
  else if String.eqb unit "hours" then Some (60 * 60 * 1000)
  else if String.eqb unit "days" then Some (24 * 60 * 60 * 1000)
  else if String.eqb unit "weeks" then Some (7 * 24 * 60 * 60 * 1000)
  else if String.eqb unit "months" then Some (30 * 24 * 60 * 60 * 1000)
  else if String.eqb unit "years" then Some (365 * 24 * 60 * 60 * 1000)
  else None.

(** [step * (unitToMs[unit] || 0)].  An inherited member is truthy and
    converts to NaN in the product. *)
Definition stepMs (step : number) (unit : string) : number :=
  step * match lookup unitToMs unit with
         | Own factor => if is_nan factor || is_zero factor then 0 else factor
         | Undefined => 0
         | InheritedFunction _ | InheritedObject => nan
         end.

(** The fields read from [slideCurrent.timeSlider] when it is not [null]:
    a value without them yields [undefined] everywhere, hence invalid
    dates, a NaN step and the unit key ["undefined"]. *)
Definition timeData (v : JsValue) : TimeWindow :=
  match v with
  | VTimeWindow t => t
  | _ => {| timeSliderStart := nan; timeSliderEnd := nan;
            timeSliderStep := nan; timeSliderUnit := "undefined" |}
  end.

Definition snappedOffset (offset stepMs : number) : number :=
  Math_ceil (offset / stepMs) * stepMs.

(** The time the snapping branch hands to [new Date]. *)
Definition clampedTime (t : TimeWindow) (progress : number) : number :=
  let start := timeSliderStart t in
  let end_ := timeSliderEnd t in
  let interpolatedTime := interpolate progress start end_ in
  let offset := interpolatedTime - start in
  let snappedTime := start + snappedOffset offset
                               (stepMs (timeSliderStep t) (timeSliderUnit t)) in
  Math_min (Math_max snappedTime start) end_.

(** [interpolateTimeSlider].  Its body is one [try] block: an exception
    is logged by the handler itself.  The early [return] of the
    non-positive step hands a [Date] back to a caller that drops it. *)
Definition interpolateTimeSlider (context : Context) (w : World)
  : World * Completion :=
  match get (slideCurrent context) "timeSlider" with
  | None | Some VNull => (consoleError ErrorTimeSlider w, Normal)
  | Some slideTimeData =>
      let t := timeData slideTimeData in
      if stepMs (timeSliderStep t) (timeSliderUnit t) <=? 0 then (w, Normal)
      else
        match timeSlider w with
        | None => (consoleError ErrorTimeSlider w, Normal)
        | Some ts =>
            (setTimeSlider
               {| timeExtent :=
                    Some {| start := None;
                            end_ := newDate (clampedTime t (progress context)) |};
                  playing := false;
                  stopCalls := S (stopCalls ts) |} w, Normal)
        end
  end.

Definition choreographyHandlers (key : string) : option (Handler Context) :=
  if String.eqb key "viewpoint"
  then Some {| name := "interpolateViewpoint"; body := interpolateViewpoint |}
  else if String.eqb key "timeSlider"
  then Some {| name := "interpolateTimeSlider"; body := interpolateTimeSlider |}
  else None.

(** [typeof choreographyHandlers[key] === "function"]. *)
Definition isFunction (p : Property (Handler Context)) : bool :=
  match p with
  | Own _ | InheritedFunction _ => true
  | InheritedObject | Undefined => false
  end.

(** The callback [forEach] runs on one key that passed the filter. *)
Definition dispatchKey (context : Context) (w : World) (key : string) : World :=
  tryCall true (lookup choreographyHandlers key) key context w.

Definition scrollAnimation (slideCurrent : Slide) (slideNext : option Slide)
    (progress : number) (w : World) : World :=
  let context := {| slideCurrent := slideCurrent;
                    slideNext := slideNext;
                    progress := progress |} in
  fold_left (dispatchKey context)
    (filter (fun key => isFunction (lookup choreographyHandlers key))
            (map fst slideCurrent))
    w.

End ScrollAnimator.

(* ================================================================= *)
(** * The slide animator *)

Module SlideAnimator.
#[local] Open Scope string_scope.
#[local] Open Scope float_scope.

Record Context := {
  slideData : Slide;
  embedded : bool
}.

Definition toggleViewpoint (context : Context) (w : World)
  : World * Completion :=
  (goTo {| target := get (slideData context) "viewpoint";
           animate := true;
           duration := 1000 |} w, Normal).

Definition toggleTimeSlider (context : Context) (w : World)
  : World * Completion :=
  (w, Normal).

(** The inner [setLayerVisibility] of [toggleLayerVisibility]. *)
Definition setLayerVisibility (layerNames : option (list string))
    (visibility : bool) (mapLayers : list Layer) : list Layer :=
  match layerNames with
  | Some names =>
      if (0 <? List.length names)%nat then
        map (fun mapLayer =>
               if mem (title mapLayer) names
               then {| title := title mapLayer; visible := visibility |}
               else mapLayer)
            mapLayers
      else mapLayers
  | None => mapLayers
  end.

(** [toggleLayerVisibility]: reading [layersOn] of [null] or [undefined]
    throws; any other value without the two lists changes nothing. *)
Definition toggleLayerVisibility (context : Context) (w : World)
  : World * Completion :=
  match get (slideData context) "layerVisibility" with
  | None | Some VNull => (w, Throw)
  | Some (VLayerVisibility l) =>
      (setLayers
         (setLayerVisibility (layersOff l) false
            (setLayerVisibility (layersOn l) true (layers w))) w, Normal)
  | Some _ => (w, Normal)
  end.

(** [mapView.map.remove(layer)] for the layer [find] returned: the first
    one with that title. *)
Fixpoint removeFirst (layerName : string) (ls : list Layer) : list Layer :=
  match ls with
  | [] => []
  | l :: rest =>
      if String.eqb (title l) layerName then rest
      else l :: removeFirst layerName rest
  end.

(** [toggleTrackRenderer], up to the first [await] of its inner async
    function: the layer is taken out and a clone of it is added on top.
    [remove] and [add] have a [try] of their own, which logs and goes on;
    an exception of [clone], like every other one, ends the function in the
    outer [catch], with the layer already taken out.  The assignments that
    follow the layer's load happen after the dispatcher has returned. *)
Definition toggleTrackRenderer (context : Context) (w : World)
  : World * Completion :=
  let trackTimeConfig := get (slideData context) "timeSlider" in
  match get (slideData context) "trackRenderer" with
  | None | Some VNull => (consoleError ErrorTrackRenderer w, Normal)
  | Some trackRenderer =>
      match trackTimeConfig with
      | None | Some VNull => (consoleError ErrorTrackRenderer w, Normal)
      | Some _ =>
          match trackRenderer with
          | VTrackRenderer r =>
              match find (fun layer => String.eqb (title layer) (trackLayerName r))
                         (layers w) with
              | Some trackLayer =>
                  let removed :=
                    if removeThrows (sdk w)
                    then consoleError ErrorRemoveTrackLayer w
                    else setLayers (removeFirst (trackLayerName r) (layers w)) w in
                  if cloneThrows (sdk w)
                  then (consoleError ErrorTrackRenderer removed, Normal)
                  else if addThrows (sdk w)
                  then (consoleError ErrorAddTrackLayer removed, Normal)
                  else (setLayers (layers removed ++ [trackLayer]) removed, Normal)
              | None => (w, Normal)
              end
          | _ => (w, Normal)
          end
      end
  end.

Definition choreographyHandlers (key : string) : option (Handler Context) :=
  if String.eqb key "viewpoint"
  then Some {| name := "toggleViewpoint"; body := toggleViewpoint |}
  else if String.eqb key "timeSlider"
  then Some {| name := "toggleTimeSlider"; body := toggleTimeSlider |}
  else if String.eqb key "layerVisibility"
  then Some {| name := "toggleLayerVisibility"; body := toggleLayerVisibility |}
  else if String.eqb key "trackRenderer"
  then Some {| name := "toggleTrackRenderer"; body := toggleTrackRenderer |}
  else None.

Definition NON_EMBED_EXCLUDE_KEYS : list string := ["viewpoint"; "timeSlider"].

(** [!handler]: only [undefined] is falsy here. *)
Definition missing (p : Property (Handler Context)) : bool :=
  match p with
  | Undefined => true
  | _ => false
  end.

(** The callback [forEach] runs on one entry. *)
Definition dispatchEntry (context : Context) (w : World) (key : string) : World :=
  let handler := lookup choreographyHandlers key in
  if missing handler then w
  else if embedded context && mem key NON_EMBED_EXCLUDE_KEYS then w
  else tryCall false handler key context w.

Definition slideAnimation (slideData : Slide) (embedded : bool) (w : World)
  : World :=
  let context := {| slideData := slideData; embedded := embedded |} in
  fold_left (dispatchEntry context) (map fst slideData) w.

End SlideAnimator.

(* ================================================================= *)
(** * The interpolation formulas without rounding

  The expressions of [ScrollAnimator.interpolate],
  [ScrollAnimator.snappedOffset] and [ScrollAnimator.clampedTime], with the
  rationals in place of the doubles.  They tell what the formulas compute
  when no operation rounds. *)

Module Exact.
#[local] Open Scope Q_scope.

Definition interpolate (progress fromVal toVal : Q) : Q :=
  fromVal + (toVal - fromVal) * progress.

Definition snappedOffset (offset stepMs : Q) : Q :=
  inject_Z (Qceiling (offset / stepMs)) * stepMs.

Definition clampedTime (start end_ stepMs progress : Q) : Q :=
  let interpolatedTime := interpolate progress start end_ in
  let offset := interpolatedTime - start in
  let snappedTime := start + snappedOffset offset stepMs in
  Qmin (Qmax snappedTime start) end_.

End Exact.

(* ================================================================= *)
(** * Vocabulary of the statements *)

#[local] Open Scope string_scope.
#[local] Open Scope list_scope.
#[local] Open Scope float_scope.

(** The six interpolated fields of a viewpoint. *)
Definition fields (v : Viewpoint) : list number :=
  [ rotation v; scale v;
    xmin (targetGeometry v); ymin (targetGeometry v);
    xmax (targetGeometry v); ymax (targetGeometry v) ].

Fixpoint zipWith (f : number -> number -> number) (l1 l2 : list number)
  : list number :=
  match l1, l2 with
  | a :: l1', b :: l2' => f a b :: zipWith f l1' l2'
  | _, _ => []
  end.

(** A binary64 value that is a zero or a finite non-zero number. *)
Definition SFfinite (x : spec_float) : Prop :=
  match x with
  | S754_zero _ | S754_finite _ _ _ => True
  | _ => False
  end.

(** The value of a finite double in units of 2^-1074, the spacing of the
    smallest doubles: an integer. *)
Definition scaled (x : spec_float) : Z :=
  match x with
  | S754_finite s m e =>
      (if s then - Z.pos m else Z.pos m) * 2 ^ (e + 1074)
  | _ => 0
  end.

(** A binary64 value that is not below zero: a zero, a positive number or
    the positive infinity. *)
Definition SFnonneg (x : spec_float) : Prop :=
  match x with
  | S754_zero _ | S754_finite false _ _ | S754_infinity false => True
  | _ => False
  end.

(** The call [tryCall] notes for [key], if the table yields a function. *)
Definition callsOf {Context : Type} (table : string -> option (Handler Context))
    (key : string) : list (string * Callee) :=
  match lookup table key with
  | Own h => [(key, Registered (name h))]
  | InheritedFunction f => [(key, Builtin f)]
  | InheritedObject | Undefined => []
  end.

(** The calls [scrollAnimation] makes for one key of the current slide. *)
Definition scrollCalls (key : string) : list (string * Callee) :=
  if ScrollAnimator.isFunction (lookup ScrollAnimator.choreographyHandlers key)
  then callsOf ScrollAnimator.choreographyHandlers key
  else [].

(** The calls [slideAnimation] makes for one key of the slide. *)
Definition slideCalls (embedded : bool) (key : string) : list (string * Callee) :=
  if SlideAnimator.missing (lookup SlideAnimator.choreographyHandlers key) then []
  else if embedded && mem key SlideAnimator.NON_EMBED_EXCLUDE_KEYS then []
  else callsOf SlideAnimator.choreographyHandlers key.

(** [scrollAnimation]'s filter and callback as one step over all keys. *)
Definition scrollStep (context : ScrollAnimator.Context) (w : World)
    (key : string) : World :=
  if ScrollAnimator.isFunction (lookup ScrollAnimator.choreographyHandlers key)
  then ScrollAnimator.dispatchKey context w key
  else w.

(** A handler leaves the call trace alone and only adds to the console. *)
Definition quiet {Context : Type} (h : Handler Context) : Prop :=
  forall c w,
    invoked (fst (body h c w)) = invoked w
    /\ exists l, errors (fst (body h c w)) = errors w ++ l.

(** [t] occurs in a list of titles that is present. *)
Definition listed (names : option (list string)) (t : string) : Prop :=
  match names with
  | Some l => In t l
  | None => False
  end.

(** What a callback of the tracker captures as dock-start offset. *)
Definition captured (st : ScrollTracker.State) (ev : ScrollTracker.Event)
  : option number :=
  match ev with
  | ScrollTracker.DockingMutation true scrollY =>
      if ScrollTracker.isDocked st then None
      else match ScrollTracker.scrollDirection st with
           | ScrollTracker.down => Some scrollY
           | ScrollTracker.up => None
           end
  | _ => None
  end.

(* ================================================================= *)
(** * Sample inputs *)

Module Sample.

Definition world : World :=
  {| goToCalls := [];
     layers := [ {| title := "Tracks"; visible := false |};
                 {| title := "Basemap"; visible := true |};
                 {| title := "Labels"; visible := true |} ];
     timeSlider := Some {| timeExtent := None; playing := true; stopCalls := 0 |};
     errors := [];
     invoked := [];
     sdk := {| removeThrows := false; cloneThrows := false;
               addThrows := false |} |}.

Definition webMercator : SpatialReference :=
  {| latestWkid := 3857; wkid := 102100 |}.

Definition viewpointA : Viewpoint :=
  {| rotation := 0.5; scale := 36111;
     targetGeometry := {| spatialReference := webMercator;
                          xmin := -13630000; ymin := 4540000;
                          xmax := -13620000; ymax := 4550000 |} |}.

Definition viewpointB : Viewpoint :=
  {| rotation := 0.1; scale := 72223;
     targetGeometry := {| spatialReference := {| latestWkid := 4326; wkid := 4326 |};
                          xmin := -13640000; ymin := 4530000;
                          xmax := -13610000; ymax := 4560000 |} |}.

(** One year in daily steps. *)
Definition year2020 : TimeWindow :=
  {| timeSliderStart := 1577836800000; timeSliderEnd := 1609459200000;
     timeSliderStep := 1; timeSliderUnit := "days" |}.

(** A tenth of a second in steps of a tenth of a millisecond. *)
Definition subMillisecond : TimeWindow :=
  {| timeSliderStart := 0; timeSliderEnd := 100;
     timeSliderStep := 0.1; timeSliderUnit := "milliseconds" |}.

(** A unit the table does not know. *)
Definition fortnightly : TimeWindow :=
  {| timeSliderStart := 1577836800000; timeSliderEnd := 1609459200000;
     timeSliderStep := 1; timeSliderUnit := "fortnights" |}.

(** A step of zero days. *)
Definition zeroStep : TimeWindow :=
  {| timeSliderStart := 1577836800000; timeSliderEnd := 1609459200000;
     timeSliderStep := 0; timeSliderUnit := "days" |}.

(** A step of minus one day. *)
Definition negativeStep : TimeWindow :=
  {| timeSliderStart := 1577836800000; timeSliderEnd := 1609459200000;
     timeSliderStep := -1; timeSliderUnit := "days" |}.

(** A first panel as tall as its top margin. *)
Definition collapsedPanel : ScrollTracker.Panel :=
  {| ScrollTracker.first := true; ScrollTracker.last := false;
     ScrollTracker.offsetHeight := 24; ScrollTracker.marginTop := 24;
     ScrollTracker.paddingBottom := 0; ScrollTracker.marginBottom := 0 |}.

Definition visibility : LayerVisibility :=
  {| layersOn := Some ["Tracks"; "Labels"]; layersOff := Some ["Labels"] |}.

Definition renderer : TrackRenderer :=
  {| trackLayerName := "Tracks"; trackFieldName := "vessel"; trackInfo := 1 |}.

Definition slideA : Slide :=
  [ ("viewpoint", VViewpoint viewpointA);
    ("timeSlider", VTimeWindow year2020);
    ("layerVisibility", VLayerVisibility visibility);
    ("trackRenderer", VTrackRenderer renderer) ].

Definition slideB : Slide :=
  [ ("viewpoint", VViewpoint viewpointB);
    ("timeSlider", VTimeWindow year2020) ].

(** An entry whose viewpoint is [null]. *)
Definition slideNoCamera : Slide :=
  [ ("viewpoint", VNull);
    ("timeSlider", VTimeWindow year2020) ].

(** An entry whose layer visibility is [null]. *)
Definition slideNoLayers : Slide :=
  [ ("layerVisibility", VNull);
    ("viewpoint", VViewpoint viewpointA) ].

End Sample.

(* ================================================================= *)
(** * Strings: [split("#")], [substring(1)] and [parseInt(_, 10)]

  The tracker reads the slide number off the frame's [src], the map
  animator off [location.hash].  A string is a sequence of code units, here
  below 256. *)

Module JsString.
Import Ascii.

(** The white space [parseInt] skips: TAB, LF, VT, FF, CR, SP and NBSP. *)
Definition isWhiteSpace (c : ascii) : bool :=
  existsb (Nat.eqb (nat_of_ascii c)) [9; 10; 11; 12; 13; 32; 160]%nat.

Fixpoint trimStart (s : string) : string :=
  match s with
  | String c rest => if isWhiteSpace c then trimStart rest else s
  | EmptyString => s
  end.

(** The value of a decimal digit. *)
Definition digitValue (c : ascii) : option Z :=
  let n := nat_of_ascii c in
  if (48 <=? n)%nat && (n <=? 57)%nat then Some (Z.of_nat (n - 48)) else None.

(** The integer denoted by the longest prefix of digits of [s], continuing
    the digits already [read]; [None] when there is no digit at all. *)
Fixpoint digits (s : string) (read : option Z) : option Z :=
  match s with
  | String c rest =>
      match digitValue c with
      | Some d =>
          digits rest
            (Some (10 * match read with Some n => n | None => 0 end + d)%Z)
      | None => read
      end
  | EmptyString => read
  end.

(** [parseInt(s, 10)]; [None] is NaN.  The result is the integer the digits
    denote.  The number JavaScript returns is the double nearest to it: the
    same integer below 2^53, and a number that is still 2^53 or more in
    magnitude (more than any array has elements) beyond. *)
Definition parseInt (s : string) : option Z :=
  let s := trimStart s in
  let '(negative, s) :=
    match s with
    | String "-" rest => (true, rest)
    | String "+" rest => (false, rest)
    | _ => (false, s)
    end in
  match digits s None with
  | Some n => Some (if negative then (- n)%Z else n)
  | None => None
  end.

(** The separator of [split("#")]. *)
Definition isHash (c : ascii) : bool := Ascii.eqb c "#".

(** [parts.pop()] for [parts = s.split("#")] when [parts.length > 1]: what
    follows the last "#"; [None] when [s] has no "#". *)
Fixpoint afterLastHash (s : string) : option string :=
  match s with
  | EmptyString => None
  | String c rest =>
      match afterLastHash rest with
      | Some part => Some part
      | None => if isHash c then Some rest else None
      end
  end.

(** [s.substring(1)]. *)
Definition substring1 (s : string) : string :=
  match s with
  | String _ rest => rest
  | EmptyString => EmptyString
  end.

End JsString.

(* ================================================================= *)
(** * The embedding relay of the tracker *)

Module Relay.
Import ScrollTracker.

(** What the tracker reads of the embedded frame: [dataset.observed] and
    the [src] attribute; [None] is an absent attribute. *)
Record Iframe := {
  observed : option string;
  src : option string
}.

(** The slide number the source observer computes from the frame's [src];
    [None] is NaN. *)
Definition slideNumber (src : option string) : option Z :=
  let newSrc :=
    match src with
    | Some s => s
    | None => EmptyString
    end in
  JsString.parseInt
    match JsString.afterLastHash newSrc with
    | Some part => part
    | None => "0"
    end.

(** The callback of [createIframeSrcObserver]. *)
Definition iframeSrcObserver (iframe : Iframe) (st : State) : State :=
  fst (step st (IframeSrcChanged (slideNumber (src iframe)))).

(** [!iframe.dataset.observed]. *)
Definition unobserved (iframe : Iframe) : bool :=
  match observed iframe with
  | Some flag => String.eqb flag EmptyString
  | None => true
  end.

(** The mutation callback of [watchForIframeForever]; [iframe] is what
    [root.querySelector("iframe")] returns.  The result holds the frame as
    the callback leaves it. *)
Definition iframeWatcher (iframe : option Iframe) (st : State)
  : option Iframe * (State * list Message) :=
  match iframe with
  | Some frame =>
      if unobserved frame then
        (Some {| observed := Some "true"; src := src frame |},
         step st IframeFound)
      else (iframe, (st, []))
  | None => (iframe, (st, []))
  end.

End Relay.

(* ================================================================= *)
(** * Messages between the story page and the embedded map *)

Module PostMessage.

(** The payload as the map animator reads it: the truthiness of
    [isEmbedded], and [slide] and [progress], [None] when the payload has no
    such field. *)
Record Payload := {
  isEmbedded : bool;
  slide : option Z;
  progress : option number
}.

Record MessageEvent := {
  source : string;
  payload : Payload
}.

(** The message event a posting by the tracker raises in the frame. *)
Definition ofTracker (m : ScrollTracker.Message) : MessageEvent :=
  match m with
  | ScrollTracker.Handshake =>
      {| source := "storymap-controller";
         payload := {| isEmbedded := true; slide := None; progress := None |} |}
  | ScrollTracker.Progress currentSlide progress =>
      {| source := "storymap-controller";
         payload := {| isEmbedded := true;
                       slide := Some currentSlide;
                       progress := Some progress |} |}
  end.

End PostMessage.

(* ================================================================= *)
(** * The map animator *)

Module MapAnimator.

(** The module-level variables, with the page objects the listeners act
    on.  [lastSlideIndex = None] is [null]; the entries of
    [choreographyData] are objects. *)
Record State := {
  isEmbedded : bool;
  lastSlideIndex : option Z;
  choreographyData : list Slide;
  world : World
}.

(** [choreographyData[index]]; [None] is [undefined]. *)
Definition entry (data : list Slide) (index : option Z) : option Slide :=
  match index with
  | Some i => if (i <? 0)%Z then None else nth_error data (Z.to_nat i)
  | None => None
  end.

(** [payload.slide + 1]; [None] is NaN. *)
Definition successor (index : option Z) : option Z :=
  match index with
  | Some i => Some (i + 1)%Z
  | None => None
  end.

(** [undefined] in arithmetic position converts to NaN. *)
Definition toNumber (v : option number) : number :=
  match v with
  | Some n => n
  | None => nan
  end.

(** The listener of [setupMessageListener].  [Throw] is the TypeError
    [Object.keys(undefined)] raises in [scrollAnimation]; nothing catches
    it in the listener. *)
Definition onMessage (event : PostMessage.MessageEvent) (st : State)
  : State * Completion :=
  if negb (String.eqb (PostMessage.source event) "storymap-controller")
  then (st, Normal)
  else
    let payload := PostMessage.payload event in
    let isEmbedded := PostMessage.isEmbedded payload in
    let currentSlide := entry (choreographyData st) (PostMessage.slide payload) in
    let nextSlide :=
      entry (choreographyData st) (successor (PostMessage.slide payload)) in
    match currentSlide with
    | None =>
        ({| isEmbedded := isEmbedded;
            lastSlideIndex := lastSlideIndex st;
            choreographyData := choreographyData st;
            world := world st |}, Throw)
    | Some slideCurrent =>
        let scrolled :=
          ScrollAnimator.scrollAnimation slideCurrent nextSlide
            (toNumber (PostMessage.progress payload)) (world st) in
        let unchanged :=
          match PostMessage.slide payload, lastSlideIndex st with
          | Some i, Some j => (i =? j)%Z
          | _, _ => false
          end in
        if unchanged then
          ({| isEmbedded := isEmbedded;
              lastSlideIndex := lastSlideIndex st;
              choreographyData := choreographyData st;
              world := scrolled |}, Normal)
        else
          ({| isEmbedded := isEmbedded;
              lastSlideIndex := PostMessage.slide payload;
              choreographyData := choreographyData st;
              world := SlideAnimator.slideAnimation slideCurrent isEmbedded
                         scrolled |}, Normal)
    end.

(** The listener of [setupHashListener]; [hash] is [window.location.hash]. *)
Definition onHashChange (hash : string) (st : State) : State :=
  let hashIndex := JsString.parseInt (JsString.substring1 hash) in
  match hashIndex, entry (choreographyData st) hashIndex with
  | Some _, Some currentSlide =>
      {| isEmbedded := isEmbedded st;
         lastSlideIndex := lastSlideIndex st;
         choreographyData := choreographyData st;
         world := SlideAnimator.slideAnimation currentSlide (isEmbedded st)
                    (world st) |}
  | _, _ => st
  end.

(** The variables as the module initialises them. *)
Definition initial (data : list Slide) (w : World) : State :=
  {| isEmbedded := false;
     lastSlideIndex := None;
     choreographyData := data;
     world := w |}.

End MapAnimator.

(* ================================================================= *)
(** * Further vocabulary *)

(** The messages a sequence of tracker callbacks posts, oldest first. *)
Fixpoint posted (st : ScrollTracker.State) (evs : list ScrollTracker.Event)
  : list ScrollTracker.Message :=
  match evs with
  | [] => []
  | ev :: rest =>
      snd (ScrollTracker.step st ev) ++ posted (fst (ScrollTracker.step st ev)) rest
  end.

(** A non-negative integer in decimal notation. *)
Definition decimal (n : N) : string :=
  NilEmpty.string_of_uint (N.to_uint n).

(** The integer a decimal numeral denotes, read after the digits whose
    value is [read]. *)
Fixpoint uintValue (d : Decimal.uint) (read : Z) : Z :=
  match d with
  | Decimal.Nil => read
  | Decimal.D0 d => uintValue d (10 * read + 0)
  | Decimal.D1 d => uintValue d (10 * read + 1)
  | Decimal.D2 d => uintValue d (10 * read + 2)
  | Decimal.D3 d => uintValue d (10 * read + 3)
  | Decimal.D4 d => uintValue d (10 * read + 4)
  | Decimal.D5 d => uintValue d (10 * read + 5)
  | Decimal.D6 d => uintValue d (10 * read + 6)
  | Decimal.D7 d => uintValue d (10 * read + 7)
  | Decimal.D8 d => uintValue d (10 * read + 8)
  | Decimal.D9 d => uintValue d (10 * read + 9)
  end%Z.

(** No code unit of [s] is "#". *)
Fixpoint hashFree (s : string) : bool :=
  match s with
  | String c rest => negb (JsString.isHash c) && hashFree rest
  | EmptyString => true
  end.

(** [s] does not begin with a decimal digit. *)
Definition digitFree (s : string) : bool :=
  match s with
  | String c _ =>
      match JsString.digitValue c with
      | Some _ => false
      | None => true
      end
  | EmptyString => true
  end.

(** The [goTo] call the scroll animator makes for a pair of slides: the
    blend of their viewpoints when both have one. *)
Definition blendedCamera (cur : Slide) (next : option Slide) (p : number)
  : list GoTo :=
  match get cur "viewpoint",
        match next with Some s => get s "viewpoint" | None => None end with
  | Some (VViewpoint c), Some (VViewpoint n) =>
      [ {| target := Some (VViewpoint (ScrollAnimator.blend p c n));
           animate := true; duration := 1000 |} ]
  | _, _ => []
  end.

(** The [goTo] call the slide animator makes for a slide outside an embed:
    the slide's own viewpoint. *)
Definition slideCamera (sd : Slide) : list GoTo :=
  match get sd "viewpoint" with
  | Some v => [ {| target := Some v; animate := true; duration := 1000 |} ]
  | None => []
  end.

(** What [setLayerVisibility] does to one layer. *)
Definition setVisible (layerNames : option (list string)) (visibility : bool)
    (mapLayer : Layer) : Layer :=
  match layerNames with
  | Some names =>
      if (0 <? List.length names)%nat && mem (title mapLayer) names
      then {| title := title mapLayer; visible := visibility |}
      else mapLayer
  | None => mapLayer
  end.

(** A call the discrete path must not make in an embed. *)
Definition cameraOrTimeToggle (c : string * Callee) : Prop :=
  snd c = Registered "toggleViewpoint" \/ snd c = Registered "toggleTimeSlider".

(** The map animator after a sequence of message events, oldest first. *)
Definition deliver (st : MapAnimator.State)
    (events : list PostMessage.MessageEvent) : MapAnimator.State :=
  fold_left (fun s event => fst (MapAnimator.onMessage event s)) events st.

(** What the [catch] of a dispatcher makes of a handler's completion. *)
Definition settle (key : string) (r : World * Completion) : World :=
  match r with
  | (w, Normal) => w
  | (w, Throw) => consoleError (ErrorProcessing key) w
  end.

(** One key of [scrollAnimation], told by the handlers themselves: the key
    "viewpoint" runs [interpolateViewpoint] and the key "timeSlider" runs
    [interpolateTimeSlider], each on the world as it stands, and an exception
    is logged. *)
Definition scrollRun (context : ScrollAnimator.Context) (w : World)
    (key : string) : World :=
  if String.eqb key "viewpoint" then
    settle key (ScrollAnimator.interpolateViewpoint context
                  (noteCall key (Registered "interpolateViewpoint") w))
  else if String.eqb key "timeSlider" then
    settle key (ScrollAnimator.interpolateTimeSlider context
                  (noteCall key (Registered "interpolateTimeSlider") w))
  else scrollStep context w key.

(** One key of [slideAnimation], told by the handlers themselves; the keys
    "viewpoint" and "timeSlider" run nothing in an embed. *)
Definition slideRun (context : SlideAnimator.Context) (w : World)
    (key : string) : World :=
  if String.eqb key "viewpoint" then
    if SlideAnimator.embedded context then w
    else settle key (SlideAnimator.toggleViewpoint context
                       (noteCall key (Registered "toggleViewpoint") w))
  else if String.eqb key "timeSlider" then
    if SlideAnimator.embedded context then w
    else settle key (SlideAnimator.toggleTimeSlider context
                       (noteCall key (Registered "toggleTimeSlider") w))
  else if String.eqb key "layerVisibility" then
    settle key (SlideAnimator.toggleLayerVisibility context
                  (noteCall key (Registered "toggleLayerVisibility") w))
  else if String.eqb key "trackRenderer" then
    settle key (SlideAnimator.toggleTrackRenderer context
                  (noteCall key (Registered "toggleTrackRenderer") w))
  else SlideAnimator.dispatchEntry context w key.

(** What one key of [slideAnimation] does to the layer list [ls] of the
    page [w]: the effect of [toggleLayerVisibility] or of
    [toggleTrackRenderer] on it. *)
Definition layerStep (context : SlideAnimator.Context) (w : World)
    (ls : list Layer) (key : string) : list Layer :=
  if String.eqb key "layerVisibility" then
    layers (fst (SlideAnimator.toggleLayerVisibility context (setLayers ls w)))
  else if String.eqb key "trackRenderer" then
    layers (fst (SlideAnimator.toggleTrackRenderer context (setLayers ls w)))
  else ls.

Module Story.

Definition middlePanel : ScrollTracker.Panel :=
  {| ScrollTracker.first := false; ScrollTracker.last := false;
     ScrollTracker.offsetHeight := 600; ScrollTracker.marginTop := 16;
     ScrollTracker.paddingBottom := 0; ScrollTracker.marginBottom := 16 |}.

Definition firstPanel : ScrollTracker.Panel :=
  {| ScrollTracker.first := true; ScrollTracker.last := false;
     ScrollTracker.offsetHeight := 500; ScrollTracker.marginTop := 100;
     ScrollTracker.paddingBottom := 0; ScrollTracker.marginBottom := 16 |}.

Definition lastPanel : ScrollTracker.Panel :=
  {| ScrollTracker.first := false; ScrollTracker.last := true;
     ScrollTracker.offsetHeight := 900; ScrollTracker.marginTop := 16;
     ScrollTracker.paddingBottom := 300; ScrollTracker.marginBottom := 0 |}.

Definition panels : list ScrollTracker.Panel :=
  [firstPanel; middlePanel; lastPanel].

Definition choreography : list Slide := [Sample.slideA; Sample.slideB].

(** The sample page on which [clone] throws. *)
Definition worldCloneFails : World :=
  {| goToCalls := [];
     layers := layers Sample.world;
     timeSlider := timeSlider Sample.world;
     errors := [];
     invoked := [];
     sdk := {| removeThrows := false; cloneThrows := true;
               addThrows := false |} |}.

(** A slide with a track renderer and no time slider entry. *)
Definition slideTrackOnly : Slide :=
  [ ("trackRenderer", VTrackRenderer Sample.renderer) ].

(** An entry whose layer visibility is [null], with a track renderer. *)
Definition slideNullLayers : Slide :=
  [ ("layerVisibility", VNull);
    ("timeSlider", VTimeWindow Sample.year2020);
    ("trackRenderer", VTrackRenderer Sample.renderer) ].

End Story.

(* ================================================================= *)
(** * Facts about binary64 numbers *)

(** [Math_ceil] on a few doubles. *)
Example Math_ceil_samples :
  Math_ceil 3.2 = 4 /\ Math_ceil (-3.2) = -3 /\ Math_ceil 0.5 = 1
  /\ Math_ceil (-0.5) = neg_zero /\ Math_ceil 70 = 70
  /\ Math_ceil 70.00000000000001 = 71 /\ Math_ceil 5e-324 = 1
  /\ Math_ceil 4503599627370495.5 = 4503599627370496
  /\ Math_ceil (-4503599627370495.5) = -4503599627370495
  /\ Math_ceil 1e300 = 1e300 /\ Math_ceil zero = zero
  /\ Math_ceil neg_zero = neg_zero /\ Math_ceil infinity = infinity
  /\ Math_ceil neg_infinity = neg_infinity /\ Math_ceil nan = nan.
Proof. repeat split. Qed.

(** [Math_min] and [Math_max] on the two zeros and on NaN. *)
Example Math_min_max_samples :
  Math_min 0 neg_zero = neg_zero /\ Math_min neg_zero 0 = neg_zero
  /\ Math_max 0 neg_zero = 0 /\ Math_max neg_zero 0 = 0
  /\ Math_min 1 nan = nan /\ Math_max nan 0 = nan
  /\ Math_min 3 2 = 2 /\ Math_max 3 2 = 3
  /\ Math_min infinity 1 = 1 /\ Math_max neg_infinity 1 = 1.
Proof. repeat split. Qed.

Section Binary64Order.

Lemma SFcompare_antisym x y :
  SFcompare y x = option_map CompOpp (SFcompare x y).
Proof.
  destruct x as [sx|sx| |sx mx ex], y as [sy|sy| |sy my ey]; simpl;
    try reflexivity;
    try (destruct sx; reflexivity); try (destruct sy; reflexivity);
    try (destruct sx, sy; reflexivity).
  destruct sx, sy; simpl; try reflexivity.
  - rewrite (Z.compare_antisym ex ey).
    destruct (ex ?= ey)%Z; simpl; try reflexivity.
    rewrite (Pos.compare_cont_antisym mx my Eq). simpl.
    reflexivity.
  - rewrite (Z.compare_antisym ex ey).
    destruct (ex ?= ey)%Z; simpl; try reflexivity.
    rewrite (Pos.compare_cont_antisym mx my Eq). simpl.
    reflexivity.
Qed.

Lemma SFcompare_refl x : x <> S754_nan -> SFcompare x x = Some Eq.
Proof.
  destruct x as [s|s| |s m e]; simpl; intros H; try congruence.
  - destruct s; reflexivity.
  - destruct s; rewrite Z.compare_refl, Pos.compare_cont_refl; reflexivity.
Qed.

Lemma is_nan_spec x : is_nan x = true <-> Prim2SF x = S754_nan.
Proof.
  unfold is_nan. rewrite FloatAxioms.eqb_spec. unfold SFeqb.
  destruct (Prim2SF x) eqn:E;
    try (rewrite SFcompare_refl by discriminate; simpl; split; discriminate).
  simpl. split; reflexivity.
Qed.


Lemma is_nan_false x : is_nan x = false <-> Prim2SF x <> S754_nan.
Proof.
  rewrite <- is_nan_spec. destruct (is_nan x); split; congruence.
Qed.

Lemma ltb_leb x y : (x <? y) = true -> (x <=? y) = true.
Proof.
  rewrite ltb_spec, leb_spec. unfold SFltb, SFleb.
  destruct (SFcompare _ _) as [[]|]; congruence.
Qed.

Lemma ltb_asym x y : (x <? y) = true -> (y <? x) = false.
Proof.
  rewrite !ltb_spec. unfold SFltb.
  rewrite (SFcompare_antisym (Prim2SF x) (Prim2SF y)).
  destruct (SFcompare _ _) as [[]|]; simpl; congruence.
Qed.

Lemma ltb_irrefl x : (x <? x) = false.
Proof.
  destruct (x <? x) eqn:E; [|reflexivity].
  pose proof (ltb_asym _ _ E). congruence.
Qed.

Lemma ltb_not_leb x y : (x <? y) = true -> (y <=? x) = false.
Proof.
  rewrite ltb_spec, leb_spec. unfold SFltb, SFleb.
  rewrite (SFcompare_antisym (Prim2SF x) (Prim2SF y)).
  destruct (SFcompare _ _) as [[]|]; simpl; congruence.
Qed.

Lemma SFcompare_total x y :
  x <> S754_nan -> y <> S754_nan -> SFcompare x y <> None.
Proof.
  destruct x as [sx|sx| |sx mx ex], y as [sy|sy| |sy my ey]; simpl;
    congruence.
Qed.

(** On numbers that are not NaN the order is total. *)
Lemma not_ltb_leb x y :
  is_nan x = false -> is_nan y = false -> (x <? y) = false -> (y <=? x) = true.
Proof.
  rewrite !is_nan_false, ltb_spec, leb_spec. unfold SFltb, SFleb.
  intros Hx Hy. pose proof (SFcompare_total _ _ Hx Hy) as T.
  rewrite (SFcompare_antisym (Prim2SF x) (Prim2SF y)).
  destruct (SFcompare _ _) as [[]|]; simpl; congruence.
Qed.

Lemma ltb_nan_r x y : is_nan y = true -> (x <? y) = false.
Proof.
  rewrite is_nan_spec, ltb_spec. unfold SFltb. intros ->.
  destruct (Prim2SF x); reflexivity.
Qed.

Lemma leb_refl x : is_nan x = false -> (x <=? x) = true.
Proof.
  rewrite is_nan_false, leb_spec. unfold SFleb. intros H.
  rewrite SFcompare_refl by assumption. reflexivity.
Qed.

(** [Math.min] never lands above its second argument. *)
Lemma Math_min_not_above x e : (e <? Math_min x e) = false.
Proof.
  unfold Math_min.
  destruct (is_nan x || is_nan e) eqn:N.
  - apply ltb_nan_r. reflexivity.
  - destruct (x <? e) eqn:L1; [ now apply ltb_asym |].
    destruct (e <? x) eqn:L2; [ apply ltb_irrefl |].
    destruct (get_sign x); [ assumption | apply ltb_irrefl ].
Qed.

Lemma is_nan_nan : is_nan nan = true.
Proof. reflexivity. Qed.

Lemma Math_min_choice x y :
  is_nan x = false -> is_nan y = false ->
  Math_min x y = x \/ Math_min x y = y.
Proof.
  intros Hx Hy. unfold Math_min. rewrite Hx, Hy. simpl.
  destruct (x <? y); [auto|]. destruct (y <? x); [auto|].
  destruct (get_sign x); auto.
Qed.

Lemma Math_max_choice x y :
  is_nan x = false -> is_nan y = false ->
  Math_max x y = x \/ Math_max x y = y.
Proof.
  intros Hx Hy. unfold Math_max. rewrite Hx, Hy. simpl.
  destruct (x <? y); [auto|]. destruct (y <? x); [auto|].
  destruct (get_sign x); auto.
Qed.

Lemma Math_min_le_l x y :
  is_nan x = false -> is_nan y = false -> (Math_min x y <=? x) = true.
Proof.
  intros Hx Hy. unfold Math_min. rewrite Hx, Hy. simpl.
  destruct (x <? y) eqn:A; [ now apply leb_refl |].
  destruct (y <? x) eqn:B; [ now apply ltb_leb |].
  destruct (get_sign x); [ now apply leb_refl | now apply not_ltb_leb ].
Qed.

Lemma Math_max_ge_l x y :
  is_nan x = false -> is_nan y = false -> (x <=? Math_max x y) = true.
Proof.
  intros Hx Hy. unfold Math_max. rewrite Hx, Hy. simpl.
  destruct (x <? y) eqn:A; [ now apply ltb_leb |].
  destruct (y <? x) eqn:B; [ now apply leb_refl |].
  destruct (get_sign x); [ now apply not_ltb_leb | now apply leb_refl ].
Qed.

Lemma Math_min_is_nan x y : is_nan (Math_min x y) = is_nan x || is_nan y.
Proof.
  destruct (is_nan x) eqn:Hx; [ unfold Math_min; rewrite Hx; reflexivity |].
  destruct (is_nan y) eqn:Hy;
    [ unfold Math_min; rewrite Hx, Hy; reflexivity |].
  destruct (Math_min_choice x y Hx Hy) as [-> | ->]; simpl; assumption.
Qed.

Lemma Math_max_is_nan x y : is_nan (Math_max x y) = is_nan x || is_nan y.
Proof.
  destruct (is_nan x) eqn:Hx; [ unfold Math_max; rewrite Hx; reflexivity |].
  destruct (is_nan y) eqn:Hy;
    [ unfold Math_max; rewrite Hx, Hy; reflexivity |].
  destruct (Math_max_choice x y Hx Hy) as [-> | ->]; simpl; assumption.
Qed.

(** Clamping with [Math.max(0, Math.min(1, x))]: every number other than
    NaN lands in the unit interval, NaN goes through. *)
Lemma clamp_unit x :
  is_nan x = false ->
  (0 <=? Math_max 0 (Math_min 1 x)) = true /\
  (Math_max 0 (Math_min 1 x) <=? 1) = true.
Proof.
  intros Hx.
  assert (H0 : is_nan 0 = false) by reflexivity.
  assert (H1 : is_nan 1 = false) by reflexivity.
  assert (Hm : is_nan (Math_min 1 x) = false)
    by (rewrite Math_min_is_nan, H1, Hx; reflexivity).
  split; [ now apply Math_max_ge_l |].
  destruct (Math_max_choice 0 (Math_min 1 x) H0 Hm) as [-> | ->].
  - reflexivity.
  - now apply Math_min_le_l.
Qed.

Lemma clamp_unit_nan x :
  is_nan (Math_max 0 (Math_min 1 x)) = is_nan x.
Proof. rewrite Math_max_is_nan, Math_min_is_nan. reflexivity. Qed.

Lemma Math_min_nan x y : is_nan y = true -> Math_min x y = nan.
Proof. unfold Math_min. intros ->. rewrite orb_true_r. reflexivity. Qed.

Lemma Math_max_nan x y : is_nan y = true -> Math_max x y = nan.
Proof. unfold Math_max. intros ->. rewrite orb_true_r. reflexivity. Qed.

End Binary64Order.

Section Binary64Arithmetic.
Import ScrollAnimator.

Lemma is_finite_spec x : is_finite x = true -> SFfinite (Prim2SF x).
Proof.
  unfold is_finite. rewrite negb_true_iff, orb_false_iff.
  intros [N I]. apply is_nan_false in N.
  unfold is_infinity in I. rewrite FloatAxioms.eqb_spec, abs_spec in I.
  change (Prim2SF infinity) with (S754_infinity false) in I.
  destruct (Prim2SF x) as [s|s| |s m e]; simpl in *; try exact Logic.I; try congruence.
  discriminate I.
Qed.

Lemma SFeqb_refl x : x <> S754_nan -> SFeqb x x = true.
Proof. intros H. unfold SFeqb. rewrite SFcompare_refl by assumption. reflexivity. Qed.

(** At progress 0 the blend gives back the starting value (as [===]
    sees it), provided the difference of the two ends did not overflow. *)
Lemma interpolate_zero a b :
  is_nan a = false -> is_finite (b - a) = true ->
  strict_eq (interpolate 0 a b) a = true.
Proof.
  intros Ha Hd. apply is_nan_false in Ha. apply is_finite_spec in Hd.
  unfold strict_eq, interpolate.
  rewrite FloatAxioms.eqb_spec, add_spec, mul_spec.
  change (Prim2SF 0) with (S754_zero false).
  destruct (Prim2SF (b - a)) as [sd|sd| |sd md ed]; simpl in Hd; try contradiction;
    destruct (Prim2SF a) as [sa|sa| |sa ma ea] eqn:Ea; try congruence;
    unfold SF64mul, SF64add; simpl SFmul; simpl SFadd;
    try (apply SFeqb_refl; discriminate);
    try (destruct sa; destruct (xorb sd false); reflexivity).
Qed.

Lemma Prim2SF_one : Prim2SF 1 = S754_finite false 4503599627370496 (-52).
Proof. reflexivity. Qed.

Lemma mul_pow52 m : (m * 4503599627370496)%positive
   = Pos.iter xO m 52%positive.
Proof. rewrite Pos.mul_comm. reflexivity. Qed.

Lemma digits2_iter_xO m n :
  digits2_pos (Pos.iter xO m n) = (digits2_pos m + n)%positive.
Proof.
  induction n using Pos.peano_ind.
  - simpl. lia.
  - rewrite Pos.iter_succ. simpl. rewrite IHn. lia.
Qed.

Lemma iter_pos_shr_1_xO n : forall m,
  SpecFloat.iter_pos shr_1 n {| shr_m := Z.pos (Pos.iter xO m n); shr_r := false; shr_s := false |}
  = {| shr_m := Z.pos m; shr_r := false; shr_s := false |}.
Proof.
  induction n; intros m.
  - (* xI *) simpl SpecFloat.iter_pos.
    replace (Pos.iter xO m n~1) with (xO (Pos.iter xO (Pos.iter xO m n) n)).
    2:{ simpl. rewrite <- !Pos.iter_swap. reflexivity. }
    simpl shr_1. rewrite IHn, IHn. reflexivity.
  - simpl SpecFloat.iter_pos.
    replace (Pos.iter xO m n~0) with (Pos.iter xO (Pos.iter xO m n) n) by reflexivity.
    rewrite IHn, IHn. reflexivity.
  - reflexivity.
Qed.

Lemma SFmul_one_finite s m e :
  bounded prec emax m e = true ->
  SFmul prec emax (S754_finite s m e) (S754_finite false 4503599627370496 (-52))
  = S754_finite s m e.
Proof.
  unfold bounded, canonical_mantissa. rewrite andb_true_iff, Z.eqb_eq.
  intros [C B].
  unfold SFmul, binary_round_aux.
  rewrite xorb_false_r, mul_pow52.
  unfold shr_fexp at 1. unfold Zdigits2 at 1.
  rewrite digits2_iter_xO.
  replace (Z.pos (digits2_pos m + 52) + (e + -52))%Z with (Z.pos (digits2_pos m) + e)%Z by lia.
  rewrite C.
  replace (e - (e + -52))%Z with 52%Z by lia.
  unfold shr_record_of_loc, shr.
  rewrite iter_pos_shr_1_xO.
  replace (e + -52 + 52)%Z with e by lia.
  unfold loc_of_shr_record, shr_m at 1, round_nearest_even.
  unfold shr_fexp, Zdigits2. rewrite C, Z.sub_diag.
  unfold shr_record_of_loc, shr, shr_m.
  rewrite B. reflexivity.
Qed.

(** Multiplying by 1 is exact on every double. *)
Lemma mul_one x : x * 1 = x.
Proof.
  apply Prim2SF_inj. rewrite mul_spec, Prim2SF_one.
  pose proof (Prim2SF_valid x) as V.
  destruct (Prim2SF x) as [s|s| |s m e].
  - unfold SF64mul, SFmul. now rewrite xorb_false_r.
  - unfold SF64mul, SFmul. now rewrite xorb_false_r.
  - reflexivity.
  - now apply SFmul_one_finite.
Qed.

End Binary64Arithmetic.

Section Binary64Division.

Lemma shr_1_nonneg r : (0 <= shr_m r)%Z -> (0 <= shr_m (shr_1 r))%Z.
Proof.
  destruct r as [m rb sb]. simpl.
  destruct m as [|[p|p|]|[p|p|]]; simpl; lia.
Qed.

Lemma iter_shr_1_nonneg n : forall r,
  (0 <= shr_m r)%Z -> (0 <= shr_m (SpecFloat.iter_pos shr_1 n r))%Z.
Proof.
  induction n; intros r H; simpl; auto using shr_1_nonneg.
Qed.

Lemma shr_nonneg r e n : (0 <= shr_m r)%Z -> (0 <= shr_m (fst (shr r e n)))%Z.
Proof.
  intros H. unfold shr. destruct n; simpl; auto using iter_shr_1_nonneg.
Qed.

Lemma shr_fexp_nonneg m e l :
  (0 <= m)%Z -> (0 <= shr_m (fst (shr_fexp prec emax m e l)))%Z.
Proof.
  intros H. unfold shr_fexp. apply shr_nonneg.
  destruct l as [|[]]; exact H.
Qed.

Lemma round_nearest_even_nonneg m l :
  (0 <= m)%Z -> (0 <= round_nearest_even m l)%Z.
Proof.
  intros H. destruct l as [|[]]; simpl; try lia.
  destruct (Z.even m); lia.
Qed.

(** Rounding a non-negative mantissa never yields NaN. *)
Lemma binary_round_aux_not_nan s m e l :
  (0 <= m)%Z -> binary_round_aux prec emax s m e l <> S754_nan.
Proof.
  intros H. unfold binary_round_aux.
  pose proof (shr_fexp_nonneg m e l H) as H1.
  destruct (shr_fexp prec emax m e l) as [r1 e1]. simpl in H1.
  pose proof (shr_fexp_nonneg _ e1 loc_Exact
                (round_nearest_even_nonneg _ (loc_of_shr_record r1) H1)) as H2.
  destruct (shr_fexp prec emax _ e1 loc_Exact) as [r2 e2]. simpl in H2.
  destruct (shr_m r2) as [|p|p]; try discriminate; [| lia].
  destruct (e2 <=? emax - prec)%Z; discriminate.
Qed.

Lemma SFdiv_core_nonneg mx ex my ey :
  (0 <= fst (fst (SFdiv_core_binary prec emax (Z.pos mx) ex (Z.pos my) ey)))%Z.
Proof.
  unfold SFdiv_core_binary.
  set (s := (_ - _ - _)%Z).
  set (m' := match s with Z.pos _ => Z.shiftl (Z.pos mx) s | 0%Z => Z.pos mx | Z.neg _ => 0%Z end).
  assert (Hm : (0 <= m')%Z).
  { subst m'. destruct s; try lia. apply Z.shiftl_nonneg. lia. }
  pose proof (Z.div_pos m' (Z.pos my) Hm ltac:(lia)) as D.
  unfold Z.div in D. destruct (Z.div_eucl m' (Z.pos my)) as [q r]. exact D.
Qed.

Lemma is_zero_spec x :
  is_zero x = match Prim2SF x with S754_zero _ => true | _ => false end.
Proof.
  unfold is_zero. rewrite FloatAxioms.eqb_spec.
  change (Prim2SF zero) with (S754_zero false).
  destruct (Prim2SF x) as [s|s| |s m e]; try reflexivity; destruct s; reflexivity.
Qed.

(** A quotient of two finite numbers is NaN exactly when both are zero. *)
Lemma div_finite_is_nan x y :
  is_finite x = true -> is_finite y = true ->
  is_nan (x / y) = is_zero x && is_zero y.
Proof.
  intros Hx Hy. apply is_finite_spec in Hx. apply is_finite_spec in Hy.
  rewrite !is_zero_spec.
  destruct (is_nan (x / y)) eqn:N.
  - apply is_nan_spec in N. rewrite div_spec in N. unfold SF64div in N.
    destruct (Prim2SF x) as [sx|sx| |sx mx ex], (Prim2SF y) as [sy|sy| |sy my ey];
      simpl in *; try contradiction; try discriminate; try reflexivity.
    exfalso.
    pose proof (SFdiv_core_nonneg mx ex my ey) as Q.
    destruct (SFdiv_core_binary prec emax (Z.pos mx) ex (Z.pos my) ey) as [[q e'] l].
    simpl in Q. revert N. apply binary_round_aux_not_nan. exact Q.
  - apply is_nan_false in N. rewrite div_spec in N. unfold SF64div in N.
    destruct (Prim2SF x) as [sx|sx| |sx mx ex], (Prim2SF y) as [sy|sy| |sy my ey];
      simpl in *; try contradiction; try reflexivity; congruence.
Qed.

End Binary64Division.

Section Binary64NotNaN.

Lemma binary_round_not_nan s m e : binary_round prec emax s m e <> S754_nan.
Proof.
  unfold binary_round.
  destruct (shl_align m e _) as [mz ez].
  apply binary_round_aux_not_nan. lia.
Qed.

Lemma binary_normalize_not_nan m e sz :
  binary_normalize prec emax m e sz <> S754_nan.
Proof.
  destruct m; simpl; [discriminate | apply binary_round_not_nan ..].
Qed.

(** A finite number plus a number is a number. *)
Lemma add_finite_not_nan x y :
  is_finite x = true -> is_nan y = false -> is_nan (x + y) = false.
Proof.
  intros Hx Hy. apply is_finite_spec in Hx. apply is_nan_false in Hy.
  apply is_nan_false. rewrite add_spec. unfold SF64add.
  destruct (Prim2SF x) as [sx|sx| |sx mx ex], (Prim2SF y) as [sy|sy| |sy my ey];
    simpl in *; try contradiction; try congruence;
    try (destruct sx, sy; discriminate).
  apply binary_normalize_not_nan.
Qed.

(** A number minus a finite number is a number. *)
Lemma sub_finite_not_nan x y :
  is_nan x = false -> is_finite y = true -> is_nan (x - y) = false.
Proof.
  intros Hx Hy. apply is_finite_spec in Hy. apply is_nan_false in Hx.
  apply is_nan_false. rewrite sub_spec. unfold SF64sub.
  destruct (Prim2SF x) as [sx|sx| |sx mx ex], (Prim2SF y) as [sy|sy| |sy my ey];
    simpl in *; try contradiction; try congruence;
    try (destruct sx, sy; discriminate).
  apply binary_normalize_not_nan.
Qed.

(** The product of two finite numbers is a number. *)
Lemma mul_finite_not_nan x y :
  is_finite x = true -> is_finite y = true -> is_nan (x * y) = false.
Proof.
  intros Hx Hy. apply is_finite_spec in Hx. apply is_finite_spec in Hy.
  apply is_nan_false. rewrite mul_spec. unfold SF64mul.
  destruct (Prim2SF x) as [sx|sx| |sx mx ex], (Prim2SF y) as [sy|sy| |sy my ey];
    simpl in *; try contradiction; try discriminate.
  apply binary_round_aux_not_nan. lia.
Qed.

(** A number times a finite number other than zero is a number. *)
Lemma mul_nonzero_not_nan x y :
  is_nan x = false -> is_finite y = true -> is_zero y = false ->
  is_nan (x * y) = false.
Proof.
  intros Hx Hy Hz. apply is_finite_spec in Hy. apply is_nan_false in Hx.
  rewrite is_zero_spec in Hz.
  apply is_nan_false. rewrite mul_spec. unfold SF64mul.
  destruct (Prim2SF x) as [sx|sx| |sx mx ex], (Prim2SF y) as [sy|sy| |sy my ey];
    simpl in *; try contradiction; try discriminate; try congruence.
  apply binary_round_aux_not_nan. lia.
Qed.

(** A number divided by a finite number other than zero is a number. *)
Lemma div_nonzero_not_nan x y :
  is_nan x = false -> is_finite y = true -> is_zero y = false ->
  is_nan (x / y) = false.
Proof.
  intros Hx Hy Hz. apply is_finite_spec in Hy. apply is_nan_false in Hx.
  rewrite is_zero_spec in Hz.
  apply is_nan_false. rewrite div_spec. unfold SF64div.
  destruct (Prim2SF x) as [sx|sx| |sx mx ex], (Prim2SF y) as [sy|sy| |sy my ey];
    simpl in *; try contradiction; try discriminate; try congruence.
  pose proof (SFdiv_core_nonneg mx ex my ey) as Q.
  destruct (SFdiv_core_binary prec emax (Z.pos mx) ex (Z.pos my) ey) as [[q e'] l].
  simpl in Q. apply binary_round_aux_not_nan. exact Q.
Qed.

Lemma of_Z_not_nan z : is_nan (of_Z z) = false.
Proof.
  apply is_nan_false. unfold of_Z. rewrite of_uint63_spec.
  apply binary_normalize_not_nan.
Qed.

Lemma opp_not_nan x : is_nan x = false -> is_nan (- x) = false.
Proof.
  rewrite !is_nan_false, opp_spec.
  destruct (Prim2SF x); simpl; congruence.
Qed.

(** [Math.ceil] of a number is a number. *)
Lemma Math_ceil_not_nan x : is_nan x = false -> is_nan (Math_ceil x) = false.
Proof.
  intros H. unfold Math_ceil.
  destruct (Prim2SF x) as [s|s| |s m e]; try exact H.
  destruct (0 <=? e)%Z; [exact H|].
  destruct s.
  - destruct (_ =? 0)%Z; [reflexivity|]. apply opp_not_nan, of_Z_not_nan.
  - apply of_Z_not_nan.
Qed.

End Binary64NotNaN.

Section Binary64Window.
Import ScrollAnimator.

Lemma is_finite_complete x : SFfinite (Prim2SF x) -> is_finite x = true.
Proof.
  intros H. unfold is_finite, is_infinity.
  assert (N : is_nan x = false).
  { apply is_nan_false. destruct (Prim2SF x); simpl in H; try contradiction; discriminate. }
  rewrite N, FloatAxioms.eqb_spec, abs_spec.
  change (Prim2SF infinity) with (S754_infinity false).
  destruct (Prim2SF x) as [s|s| |s m e]; simpl in H; try contradiction; reflexivity.
Qed.

Lemma is_finite_not_nan x : is_finite x = true -> is_nan x = false.
Proof.
  unfold is_finite. rewrite negb_true_iff, orb_false_iff. tauto.
Qed.

(** A progress in the unit interval is a finite number. *)
Lemma unit_interval_finite p :
  (0 <=? p) = true -> (p <=? 1) = true -> is_finite p = true.
Proof.
  rewrite !leb_spec. change (Prim2SF 0) with (S754_zero false).
  rewrite Prim2SF_one. intros H0 H1. apply is_finite_complete.
  destruct (Prim2SF p) as [s|s| |s m e]; simpl; auto;
    try discriminate; destruct s; simpl in *; discriminate.
Qed.

(** A positive number is neither NaN nor zero. *)
Lemma positive_nonzero x :
  (0 <? x) = true -> is_nan x = false /\ is_zero x = false.
Proof.
  rewrite ltb_spec, is_zero_spec. change (Prim2SF 0) with (S754_zero false).
  intros H. split.
  - apply is_nan_false. destruct (Prim2SF x); simpl in *; discriminate.
  - destruct (Prim2SF x); simpl in *; try reflexivity; discriminate.
Qed.

Lemma leb_not_nan x y : (x <=? y) = true -> is_nan x = false /\ is_nan y = false.
Proof.
  rewrite leb_spec, !is_nan_false. unfold SFleb. intros H.
  destruct (Prim2SF x), (Prim2SF y); simpl in *; split; discriminate.
Qed.

Lemma Math_min_le_r x y :
  is_nan x = false -> is_nan y = false -> (Math_min x y <=? y) = true.
Proof.
  intros Hx Hy. unfold Math_min. rewrite Hx, Hy. simpl.
  destruct (x <? y) eqn:A; [ now apply ltb_leb |].
  destruct (y <? x) eqn:B; [ now apply leb_refl |].
  destruct (get_sign x); [ now apply not_ltb_leb | now apply leb_refl ].
Qed.

Lemma Math_max_ge_r x y :
  is_nan x = false -> is_nan y = false -> (y <=? Math_max x y) = true.
Proof.
  intros Hx Hy. unfold Math_max. rewrite Hx, Hy. simpl.
  destruct (x <? y) eqn:A; [ now apply leb_refl |].
  destruct (y <? x) eqn:B; [ now apply ltb_leb |].
  destruct (get_sign x); [ now apply leb_refl | now apply not_ltb_leb ].
Qed.

(** For a window of finite bounds with [start <= end], a progress in the
    unit interval and a positive finite step, the time handed to [new Date]
    is a number between the two bounds. *)
Lemma clampedTime_in_window t p :
  let start := timeSliderStart t in
  let end_ := timeSliderEnd t in
  let step := stepMs (timeSliderStep t) (timeSliderUnit t) in
  (start <=? end_) = true ->
  is_finite start = true -> is_finite (end_ - start) = true ->
  (0 <=? p) = true -> (p <=? 1) = true ->
  (0 <? step) = true -> is_finite step = true ->
  is_nan (clampedTime t p) = false
  /\ (start <=? clampedTime t p) = true
  /\ (clampedTime t p <=? end_) = true.
Proof.
  intros start end_ step Hse Fs Fd Hp0 Hp1 Hpos Fstep.
  destruct (leb_not_nan _ _ Hse) as [Ns Ne].
  destruct (positive_nonzero _ Hpos) as [_ Zstep].
  pose proof (unit_interval_finite p Hp0 Hp1) as Fp.
  unfold clampedTime. fold start end_ step. cbv zeta.
  set (interpolatedTime := interpolate p start end_).
  set (offset := interpolatedTime - start).
  set (snappedTime := start + snappedOffset offset step).
  assert (Ni : is_nan interpolatedTime = false).
  { apply add_finite_not_nan; [exact Fs|]. now apply mul_finite_not_nan. }
  assert (No : is_nan offset = false) by (now apply sub_finite_not_nan).
  assert (Nsn : is_nan snappedTime = false).
  { apply add_finite_not_nan; [exact Fs|]. unfold snappedOffset.
    apply mul_nonzero_not_nan; [| exact Fstep | exact Zstep].
    apply Math_ceil_not_nan. now apply div_nonzero_not_nan. }
  assert (Nm : is_nan (Math_max snappedTime start) = false)
    by (rewrite Math_max_is_nan, Nsn, Ns; reflexivity).
  split; [| split].
  - rewrite Math_min_is_nan, Nm, Ne. reflexivity.
  - destruct (Math_min_choice _ _ Nm Ne) as [-> | ->].
    + now apply Math_max_ge_r.
    + exact Hse.
  - now apply Math_min_le_r.
Qed.

End Binary64Window.

(* ================================================================= *)
(** * Doubles as scaled integers *)

Section Binary64Scaled.
#[local] Open Scope Z_scope.

Lemma digits2_pos_bounds m :
  2 ^ (Z.pos (digits2_pos m) - 1) <= Z.pos m < 2 ^ Z.pos (digits2_pos m).
Proof.
  induction m as [m IH|m IH|]; cbn [digits2_pos].
  - rewrite Pos2Z.inj_succ.
    replace (Z.succ (Z.pos (digits2_pos m)) - 1)
      with (Z.succ (Z.pos (digits2_pos m) - 1)) by lia.
    rewrite !Z.pow_succ_r by lia. lia.
  - rewrite Pos2Z.inj_succ.
    replace (Z.succ (Z.pos (digits2_pos m)) - 1)
      with (Z.succ (Z.pos (digits2_pos m) - 1)) by lia.
    rewrite !Z.pow_succ_r by lia. lia.
  - simpl. lia.
Qed.

Lemma digits2_pos_unique m d :
  2 ^ (d - 1) <= Z.pos m < 2 ^ d -> Z.pos (digits2_pos m) = d.
Proof.
  intros [L U]. pose proof (digits2_pos_bounds m) as [L' U'].
  assert (0 <= d).
  { destruct (Z.le_gt_cases 0 d) as [|N]; [assumption|].
    rewrite (Z.pow_neg_r 2 d) in U by lia. lia. }
  assert (d - 1 < Z.pos (digits2_pos m)).
  { apply (Z.pow_lt_mono_r_iff 2); lia. }
  assert (Z.pos (digits2_pos m) - 1 < d).
  { apply (Z.pow_lt_mono_r_iff 2); lia. }
  lia.
Qed.

Lemma bounded_shape m e :
  bounded prec emax m e = true ->
  -1074 <= e <= 971
  /\ Z.pos (digits2_pos m) <= 53
  /\ (-1074 < e -> Z.pos (digits2_pos m) = 53).
Proof.
  unfold bounded, canonical_mantissa, fexp, SpecFloat.emin, prec, emax.
  rewrite andb_true_iff, Z.eqb_eq, Z.leb_le. lia.
Qed.

Lemma shape_bounded m e :
  -1074 <= e <= 971 ->
  Z.pos (digits2_pos m) <= 53 ->
  (-1074 < e -> Z.pos (digits2_pos m) = 53) ->
  bounded prec emax m e = true.
Proof.
  unfold bounded, canonical_mantissa, fexp, SpecFloat.emin, prec, emax.
  rewrite andb_true_iff, Z.eqb_eq, Z.leb_le. lia.
Qed.

Lemma compare_cont_Eq m1 m2 :
  Pos.compare_cont Eq m1 m2 = (Z.pos m1 ?= Z.pos m2).
Proof. reflexivity. Qed.

Lemma pow2_pos n : 0 <= n -> 0 < 2 ^ n.
Proof. intros. apply Z.pow_pos_nonneg; lia. Qed.

Lemma pow2_split a b : 0 <= a -> 0 <= b -> 2 ^ (a + b) = 2 ^ a * 2 ^ b.
Proof. intros. apply Z.pow_add_r; lia. Qed.

(** Two positive doubles compare as their scaled values do. *)
Lemma SFcompare_positive m1 e1 m2 e2 :
  bounded prec emax m1 e1 = true -> bounded prec emax m2 e2 = true ->
  match (e1 ?= e2) with
  | Eq => Pos.compare_cont Eq m1 m2
  | Lt => Lt
  | Gt => Gt
  end
  = (Z.pos m1 * 2 ^ (e1 + 1074) ?= Z.pos m2 * 2 ^ (e2 + 1074)).
Proof.
  intros B1 B2.
  destruct (bounded_shape _ _ B1) as (R1 & D1 & N1).
  destruct (bounded_shape _ _ B2) as (R2 & D2 & N2).
  pose proof (digits2_pos_bounds m1) as [L1 U1].
  pose proof (digits2_pos_bounds m2) as [L2 U2].
  assert (P53 : forall m, Z.pos (digits2_pos m) <= 53 -> Z.pos m < 2 ^ 53).
  { intros m D. pose proof (digits2_pos_bounds m) as [_ U].
    eapply Z.lt_le_trans; [exact U|]. apply Z.pow_le_mono_r; lia. }
  assert (Step : forall ma ea mb eb,
             Z.pos ma < 2 ^ 53 -> 2 ^ 52 <= Z.pos mb -> -1074 <= ea < eb ->
             Z.pos ma * 2 ^ (ea + 1074) < Z.pos mb * 2 ^ (eb + 1074)).
  { intros ma ea mb eb Ua Lb Hab.
    replace (eb + 1074) with ((ea + 1074) + (eb - ea)) by lia.
    rewrite (pow2_split (ea + 1074) (eb - ea)) by lia.
    pose proof (pow2_pos (ea + 1074) ltac:(lia)) as Pa.
    assert (2 <= 2 ^ (eb - ea)).
    { change 2 with (2 ^ 1) at 1. apply Z.pow_le_mono_r; lia. }
    assert (Z.pos ma < Z.pos mb * 2 ^ (eb - ea)) by nia.
    nia. }
  destruct (Z.compare_spec e1 e2) as [E|E|E].
  - subst e2. rewrite compare_cont_Eq.
    pose proof (pow2_pos (e1 + 1074) ltac:(lia)) as Pa.
    symmetry. destruct (Z.compare_spec (Z.pos m1) (Z.pos m2)) as [C|C|C].
    + rewrite C. apply Z.compare_refl.
    + apply Z.compare_lt_iff. apply Z.mul_lt_mono_pos_r; assumption.
    + apply Z.compare_gt_iff. apply Z.mul_lt_mono_pos_r; assumption.
  - symmetry. apply Z.compare_lt_iff. apply Step; [auto| |lia].
    rewrite N2 in L2 by lia. exact L2.
  - symmetry. apply Z.compare_gt_iff. apply Step; [auto| |lia].
    rewrite N1 in L1 by lia. exact L1.
Qed.

Lemma scaled_finite_sign (s : bool) m e :
  -1074 <= e ->
  0 < (if s then - scaled (S754_finite s m e) else scaled (S754_finite s m e)).
Proof.
  intros H. unfold scaled. pose proof (pow2_pos (e + 1074) ltac:(lia)).
  destruct s; nia.
Qed.

(** The order of the finite doubles is the order of their scaled values. *)
Lemma SFcompare_scaled x y :
  valid_binary x = true -> valid_binary y = true ->
  SFfinite x -> SFfinite y ->
  SFcompare x y = Some (scaled x ?= scaled y).
Proof.
  intros Vx Vy Fx Fy.
  destruct x as [sx|sx| |sx mx ex]; try contradiction;
  destruct y as [sy|sy| |sy my ey]; try contradiction.
  - reflexivity.
  - cbn [valid_binary SpecFloat.valid_binary] in Vy.
    destruct (bounded_shape _ _ Vy) as (R & _).
    pose proof (scaled_finite_sign sy my ey ltac:(lia)) as S.
    cbn [SFcompare]. change (scaled (S754_zero sx)) with 0.
    destruct sy; f_equal; symmetry;
      [apply Z.compare_gt_iff | apply Z.compare_lt_iff]; lia.
  - cbn [valid_binary SpecFloat.valid_binary] in Vx.
    destruct (bounded_shape _ _ Vx) as (R & _).
    pose proof (scaled_finite_sign sx mx ex ltac:(lia)) as S.
    cbn [SFcompare]. change (scaled (S754_zero sy)) with 0.
    destruct sx; f_equal; symmetry;
      [apply Z.compare_lt_iff | apply Z.compare_gt_iff]; lia.
  - cbn [valid_binary SpecFloat.valid_binary] in Vx, Vy.
    destruct (bounded_shape _ _ Vx) as (Rx & _).
    destruct (bounded_shape _ _ Vy) as (Ry & _).
    pose proof (scaled_finite_sign sx mx ex ltac:(lia)) as Sx.
    pose proof (scaled_finite_sign sy my ey ltac:(lia)) as Sy.
    cbn [SFcompare]. f_equal.
    destruct sx, sy.
    + pose proof (SFcompare_positive mx ex my ey Vx Vy) as C.
      unfold scaled. rewrite !Z.mul_opp_l, Z.compare_opp.
      rewrite <- (SFcompare_positive my ey mx ex Vy Vx).
      rewrite (Z.compare_antisym ey ex).
      destruct (ey ?= ex); cbn [CompOpp]; try reflexivity.
      rewrite !compare_cont_Eq. symmetry. apply Z.compare_antisym.
    + symmetry. apply Z.compare_lt_iff. lia.
    + symmetry. apply Z.compare_gt_iff. lia.
    + apply SFcompare_positive; assumption.
Qed.

Lemma Prim2SF_finite x : is_nan x = false -> is_infinity x = false -> SFfinite (Prim2SF x).
Proof.
  intros N I. apply is_finite_spec. unfold is_finite. now rewrite N, I.
Qed.

Lemma leb_scaled x y :
  is_finite x = true -> is_finite y = true ->
  (x <=? y)%float = (scaled (Prim2SF x) <=? scaled (Prim2SF y)).
Proof.
  intros Fx Fy. rewrite leb_spec. unfold SFleb.
  rewrite (SFcompare_scaled _ _ (Prim2SF_valid x) (Prim2SF_valid y)
             (is_finite_spec _ Fx) (is_finite_spec _ Fy)).
  unfold Z.leb. destruct (scaled (Prim2SF x) ?= scaled (Prim2SF y)); reflexivity.
Qed.

Lemma ltb_scaled x y :
  is_finite x = true -> is_finite y = true ->
  (x <? y)%float = (scaled (Prim2SF x) <? scaled (Prim2SF y)).
Proof.
  intros Fx Fy. rewrite ltb_spec. unfold SFltb.
  rewrite (SFcompare_scaled _ _ (Prim2SF_valid x) (Prim2SF_valid y)
             (is_finite_spec _ Fx) (is_finite_spec _ Fy)).
  unfold Z.ltb. destruct (scaled (Prim2SF x) ?= scaled (Prim2SF y)); reflexivity.
Qed.

Lemma eqb_scaled x y :
  is_finite x = true -> is_finite y = true ->
  (x =? y)%float = (scaled (Prim2SF x) =? scaled (Prim2SF y)).
Proof.
  intros Fx Fy. rewrite FloatAxioms.eqb_spec. unfold SFeqb.
  rewrite (SFcompare_scaled _ _ (Prim2SF_valid x) (Prim2SF_valid y)
             (is_finite_spec _ Fx) (is_finite_spec _ Fy)).
  rewrite Z.eqb_compare.
  destruct (scaled (Prim2SF x) ?= scaled (Prim2SF y)); reflexivity.
Qed.

End Binary64Scaled.

(* ================================================================= *)
(** * Whole numbers as doubles *)

Section Binary64Integers.
#[local] Open Scope Z_scope.

Lemma pos_iter_xO m t : Z.pos (Pos.iter xO m t) = Z.pos m * 2 ^ Z.pos t.
Proof.
  induction t as [|t IH] using Pos.peano_ind.
  - simpl. lia.
  - rewrite Pos.iter_succ, Pos2Z.inj_succ, Z.pow_succ_r by lia.
    rewrite Pos2Z.inj_xO, IH. lia.
Qed.

Lemma fexp_normal d e :
  d = 53 -> -1074 <= e -> fexp prec emax (d + e) = e.
Proof. unfold fexp, SpecFloat.emin, prec, emax. lia. Qed.

(** A mantissa of 53 digits followed by [t] zero bits is rounded without
    error. *)
Lemma binary_round_aux_shift s P t e :
  Z.pos (digits2_pos P) = 53 -> -1074 <= e + Z.pos t <= 971 ->
  binary_round_aux prec emax s (Z.pos (Pos.iter xO P t)) e loc_Exact
  = S754_finite s P (e + Z.pos t).
Proof.
  intros D R.
  unfold binary_round_aux.
  unfold shr_fexp at 1. unfold Zdigits2 at 1.
  rewrite digits2_iter_xO, Pos2Z.inj_add, D.
  replace (fexp prec emax (53 + Z.pos t + e) - e) with (Z.pos t)
    by (unfold fexp, SpecFloat.emin, prec, emax; lia).
  unfold shr_record_of_loc, shr.
  rewrite iter_pos_shr_1_xO.
  unfold loc_of_shr_record, shr_m at 1, round_nearest_even.
  unfold shr_fexp, Zdigits2. rewrite D.
  rewrite (fexp_normal 53 (e + Z.pos t)) by lia. rewrite Z.sub_diag.
  unfold shr_record_of_loc, shr, shr_m.
  replace (e + Z.pos t <=? emax - prec) with true; [reflexivity|].
  symmetry. apply Z.leb_le. unfold emax, prec. lia.
Qed.

Lemma binary_round_aux_exact s P e :
  Z.pos (digits2_pos P) = 53 -> -1074 <= e <= 971 ->
  binary_round_aux prec emax s (Z.pos P) e loc_Exact = S754_finite s P e.
Proof.
  intros D R.
  unfold binary_round_aux, shr_fexp, Zdigits2. rewrite D.
  rewrite (fexp_normal 53 e) by lia. rewrite Z.sub_diag.
  unfold shr_record_of_loc, shr, shr_m, loc_of_shr_record, round_nearest_even.
  rewrite D, (fexp_normal 53 e), Z.sub_diag by lia.
  replace (e <=? emax - prec) with true; [reflexivity|].
  symmetry. apply Z.leb_le. unfold emax, prec. lia.
Qed.

Lemma digits_below p d : 0 <= d -> Z.pos p < 2 ^ d -> Z.pos (digits2_pos p) <= d.
Proof.
  intros Hd U. pose proof (digits2_pos_bounds p) as [L _].
  assert (Z.pos (digits2_pos p) - 1 < d); [| lia].
  apply (Z.pow_lt_mono_r_iff 2); lia.
Qed.

(** The double made from a whole number below 2^53: the number itself,
    written with 53 binary digits. *)
Lemma of_Z_pos p :
  Z.pos p < 2 ^ 53 ->
  exists m,
    Prim2SF (of_Z (Z.pos p)) = S754_finite false m (Z.pos (digits2_pos p) - 53)
    /\ Z.pos m = Z.pos p * 2 ^ (53 - Z.pos (digits2_pos p))
    /\ Z.pos (digits2_pos m) = 53.
Proof.
  intros U. pose proof (digits_below p 53 ltac:(lia) U) as D.
  unfold of_Z. rewrite of_uint63_spec, Uint63.of_Z_spec.
  assert (W : Uint63.wB = 9223372036854775808) by reflexivity.
  rewrite Z.mod_small by (rewrite W; change (2 ^ 53) with 9007199254740992 in U; lia).
  cbn [binary_normalize]. unfold binary_round.
  replace (fexp prec emax (Z.pos (digits2_pos p) + 0))
    with (Z.pos (digits2_pos p) - 53)
    by (unfold fexp, SpecFloat.emin, prec, emax; lia).
  unfold shl_align.
  destruct (Z.pos (digits2_pos p) - 53 - 0) as [|k|k] eqn:K; [| lia |].
  - exists p. replace (Z.pos (digits2_pos p) - 53) with 0 by lia.
    replace (53 - Z.pos (digits2_pos p)) with 0 by lia.
    split; [| split; lia].
    apply binary_round_aux_exact; lia.
  - exists (Pos.iter xO p k).
    assert (D' : Z.pos (digits2_pos (Pos.iter xO p k)) = 53).
    { rewrite digits2_iter_xO, Pos2Z.inj_add. lia. }
    split; [| split; [| exact D']].
    + apply binary_round_aux_exact; [exact D' | lia].
    + rewrite pos_iter_xO. f_equal. f_equal. lia.
Qed.

Lemma scaled_of_Z n :
  0 <= n < 2 ^ 53 -> scaled (Prim2SF (of_Z n)) = n * 2 ^ 1074.
Proof.
  intros [L U]. destruct n as [|p|p]; [reflexivity | | lia].
  destruct (of_Z_pos p U) as (m & E & V & D). rewrite E.
  pose proof (digits_below p 53 ltac:(lia) U) as Dp.
  unfold scaled. rewrite V, <- Z.mul_assoc. f_equal.
  rewrite <- Z.pow_add_r by lia. f_equal. lia.
Qed.

Lemma of_Z_finite n : 0 <= n < 2 ^ 53 -> is_finite (of_Z n) = true.
Proof.
  intros [L U]. apply is_finite_complete.
  destruct n as [|p|p]; [exact I | | lia].
  destruct (of_Z_pos p U) as (m & E & _). rewrite E. exact I.
Qed.

(** The product of two whole doubles is the double of the product, as long
    as that stays below 2^53. *)
Lemma mul_of_Z a b :
  1 <= a -> 1 <= b -> a * b < 2 ^ 53 ->
  (of_Z a * of_Z b)%float = of_Z (a * b).
Proof.
  intros La Lb U.
  destruct a as [|pa|pa]; [lia | | lia].
  destruct b as [|pb|pb]; [lia | | lia].
  assert (Ua : Z.pos pa < 2 ^ 53) by nia.
  assert (Ub : Z.pos pb < 2 ^ 53) by nia.
  destruct (of_Z_pos pa Ua) as (ma & Ea & Va & Da).
  destruct (of_Z_pos pb Ub) as (mb & Eb & Vb & Db).
  change (Z.pos pa * Z.pos pb) with (Z.pos (pa * pb)) in *.
  destruct (of_Z_pos (pa * pb) U) as (mab & Eab & Vab & Dab).
  apply Prim2SF_inj. rewrite mul_spec, Ea, Eb, Eab.
  unfold SF64mul, SFmul. cbn [xorb].
  pose proof (digits2_pos_bounds pa) as [La' Ua'].
  pose proof (digits2_pos_bounds pb) as [Lb' Ub'].
  pose proof (digits2_pos_bounds (pa * pb)) as [Lab' Uab'].
  pose proof (digits_below pa 53 ltac:(lia) Ua) as Dpa.
  pose proof (digits_below pb 53 ltac:(lia) Ub) as Dpb.
  pose proof (digits_below (pa * pb) 53 ltac:(lia) U) as Dpab.
  set (da := Z.pos (digits2_pos pa)) in *.
  set (db := Z.pos (digits2_pos pb)) in *.
  set (d := Z.pos (digits2_pos (pa * pb))) in *.
  assert (Hda : 1 <= da) by (unfold da; lia).
  assert (Hdb : 1 <= db) by (unfold db; lia).
  assert (Hd : da + db - 2 < d).
  { apply (Z.pow_lt_mono_r_iff 2); [lia | unfold d; lia |].
    eapply Z.le_lt_trans; [| exact Uab'].
    replace (da + db - 2) with ((da - 1) + (db - 1)) by lia.
    rewrite Z.pow_add_r by lia.
    rewrite Pos2Z.inj_mul.
    apply Z.mul_le_mono_nonneg; try assumption;
      apply Z.pow_nonneg; lia. }
  destruct (53 + d - da - db) as [|t|t] eqn:T; [lia | | lia].
  assert (M : (ma * mb)%positive = Pos.iter xO mab t).
  { apply Pos2Z.inj. rewrite pos_iter_xO, Pos2Z.inj_mul, Va, Vb, Vab, <- T.
    rewrite Pos2Z.inj_mul.
    replace (53 + d - da - db) with ((53 - da) + (53 - db) - (53 - d)) by lia.
    set (x := 53 - da). set (y := 53 - db). set (z := 53 - d).
    assert (2 ^ (x + y - z) * 2 ^ z = 2 ^ x * 2 ^ y).
    { rewrite <- !Z.pow_add_r by lia. f_equal. lia. }
    nia. }
  rewrite M.
  rewrite binary_round_aux_shift by (try exact Dab; lia).
  f_equal. lia.
Qed.

End Binary64Integers.

(* ================================================================= *)
(** * Rounding a quotient *)

Section Binary64Quotient.
#[local] Open Scope Z_scope.

(** The last step of [binary_round_aux]: the rounded mantissa is brought
    back to 53 digits. *)
Let finish (s : bool) (M e : Z) : spec_float :=
  let '(mrs, e') := shr_fexp prec emax M e loc_Exact in
  match shr_m mrs with
  | 0 => S754_zero s
  | Z.pos m =>
      if e' <=? emax - prec then S754_finite s m e' else S754_infinity s
  | Z.neg _ => S754_nan
  end.

Lemma binary_round_aux_finish s q e loc :
  binary_round_aux prec emax s q e loc
  = let '(mrs, e') := shr_fexp prec emax q e loc in
    finish s (round_nearest_even (shr_m mrs) (loc_of_shr_record mrs)) e'.
Proof.
  unfold binary_round_aux, finish.
  destruct (shr_fexp prec emax q e loc). reflexivity.
Qed.

Lemma finish_two_pow_53 s e :
  -1075 <= e <= 970 ->
  finish s (2 ^ 53) e = S754_finite s 4503599627370496 (e + 1).
Proof.
  intros R. unfold finish, shr_fexp.
  change (Zdigits2 (2 ^ 53)) with 54.
  replace (fexp prec emax (54 + e) - e) with 1
    by (unfold fexp, SpecFloat.emin, prec, emax; lia).
  cbn [shr SpecFloat.iter_pos shr_record_of_loc]. 
  change (2 ^ 53) with (Z.pos (xO 4503599627370496)).
  cbn [shr_1 shr_m].
  replace (e + 1 <=? emax - prec) with true; [reflexivity|].
  symmetry. apply Z.leb_le. unfold emax, prec. lia.
Qed.

Lemma finish_same s p e :
  fexp prec emax (Z.pos (digits2_pos p) + e) = e -> e <= 971 ->
  finish s (Z.pos p) e = S754_finite s p e.
Proof.
  intros F R. unfold finish, shr_fexp, Zdigits2. rewrite F, Z.sub_diag.
  cbn [shr shr_record_of_loc shr_m].
  replace (e <=? emax - prec) with true; [reflexivity|].
  symmetry. apply Z.leb_le. unfold emax, prec. lia.
Qed.

Lemma finish_normal s M e c :
  2 ^ 52 <= M <= 2 ^ 53 -> -1074 <= e <= 970 -> 0 <= c ->
  exists m E,
    finish s M e = S754_finite s m E
    /\ Z.pos (digits2_pos m) = 53
    /\ e <= E <= e + 1
    /\ Z.pos m * 2 ^ (E - e + c) = M * 2 ^ c.
Proof.
  intros [L U] R C.
  destruct (Z_lt_le_dec M (2 ^ 53)) as [S|B].
  - destruct M as [|p|p]; try lia.
    assert (D : Z.pos (digits2_pos p) = 53)
      by (apply digits2_pos_unique; split; [exact L | exact S]).
    exists p, e. split; [| split; [exact D | split; [lia |]]].
    + apply finish_same; [| lia]. rewrite D. apply fexp_normal; lia.
    + f_equal. f_equal. lia.
  - assert (M = 2 ^ 53) by lia. subst M.
    exists 4503599627370496%positive, (e + 1).
    split; [apply finish_two_pow_53; lia |].
    split; [reflexivity |]. split; [lia |].
    replace (e + 1 - e + c) with (Z.succ c) by lia.
    rewrite Z.pow_succ_r by lia. lia.
Qed.

Lemma finish_tiny s M :
  0 <= M <= 2 ^ 53 ->
  finish s M (-1074) = S754_zero s
  \/ exists m E,
       finish s M (-1074) = S754_finite s m E
       /\ E < 0 /\ Z.pos m <= 2 ^ (- E).
Proof.
  intros [L U].
  destruct (Z_lt_le_dec M (2 ^ 53)) as [S|B].
  - destruct M as [|p|p]; [left; reflexivity | | lia].
    right. exists p, (-1074). split; [| split; [lia |]].
    + apply finish_same; [| lia].
      pose proof (digits_below p 53 ltac:(lia) S).
      unfold fexp, SpecFloat.emin, prec, emax. lia.
    + apply Z.lt_le_incl. eapply Z.lt_le_trans; [exact S|].
      apply Z.pow_le_mono_r; lia.
  - assert (M = 2 ^ 53) by lia. subst M.
    right. exists 4503599627370496%positive, (-1074 + 1).
    split; [apply finish_two_pow_53; lia |].
    split; [lia |].
    change (- (-1074 + 1)) with 1073.
    change (Z.pos 4503599627370496) with (2 ^ 52).
    apply Z.pow_le_mono_r; lia.
Qed.

Lemma round_nearest_even_cases q loc :
  round_nearest_even q loc = q
  \/ (round_nearest_even q loc = q + 1 /\ loc <> loc_Exact).
Proof.
  destruct loc as [|[]]; cbn [round_nearest_even]; auto.
  - destruct (Z.even q); [left; reflexivity | right; split; [reflexivity | discriminate]].
  - right. split; [reflexivity | discriminate].
Qed.

Lemma shr_record_of_loc_m q loc : shr_m (shr_record_of_loc q loc) = q.
Proof. destruct loc as [|[]]; reflexivity. Qed.

Lemma loc_of_shr_record_of_loc q loc :
  loc_of_shr_record (shr_record_of_loc q loc) = loc.
Proof. destruct loc as [|[]]; reflexivity. Qed.

Lemma shr_fexp_same q e loc :
  fexp prec emax (Zdigits2 q + e) = e ->
  shr_fexp prec emax q e loc = (shr_record_of_loc q loc, e).
Proof. intros F. unfold shr_fexp. rewrite F, Z.sub_diag. reflexivity. Qed.

Lemma shr_fexp_one q e loc :
  fexp prec emax (Zdigits2 q + e) = e + 1 ->
  shr_fexp prec emax q e loc = (shr_1 (shr_record_of_loc q loc), e + 1).
Proof.
  intros F. unfold shr_fexp. rewrite F.
  replace (e + 1 - e) with 1 by lia. reflexivity.
Qed.

(** A mantissa of 53 or 54 digits, with what was left of the division at
    [loc], rounds to a 53-digit mantissa next to it. *)
Lemma binary_round_aux_quotient s q e loc :
  2 ^ 52 <= q < 2 ^ 54 -> -1074 <= e <= 969 ->
  exists m E,
    binary_round_aux prec emax s q e loc = S754_finite s m E
    /\ Z.pos (digits2_pos m) = 53
    /\ e <= E <= e + 2
    /\ (Z.pos m * 2 ^ (E - e) = q
        \/ (Z.pos m * 2 ^ (E - e) = q + 1
            /\ (loc <> loc_Exact \/ Z.odd q = true))
        \/ (Z.pos m * 2 ^ (E - e) = q - 1
            /\ Z.odd q = true /\ loc = loc_Exact)).
Proof.
  intros [L U] R. rewrite binary_round_aux_finish.
  destruct q as [|p|p]; try lia.
  destruct (Z_lt_le_dec (Z.pos p) (2 ^ 53)) as [S|B].
  - assert (D : Z.pos (digits2_pos p) = 53)
      by (apply digits2_pos_unique; split; [exact L | exact S]).
    rewrite shr_fexp_same
      by (unfold Zdigits2; rewrite D; apply fexp_normal; lia).
    rewrite shr_record_of_loc_m, loc_of_shr_record_of_loc.
    destruct (round_nearest_even_cases (Z.pos p) loc) as [R1|[R1 NE]];
      rewrite R1.
    + destruct (finish_normal s (Z.pos p) e 0) as (m & E & F & Dm & RE & V);
        [lia | lia | lia |].
      exists m, E. split; [exact F | split; [exact Dm | split; [lia |]]].
      left. rewrite Z.add_0_r, Z.pow_0_r, Z.mul_1_r in V. exact V.
    + destruct (finish_normal s (Z.pos p + 1) e 0) as (m & E & F & Dm & RE & V);
        [lia | lia | lia |].
      exists m, E. split; [exact F | split; [exact Dm | split; [lia |]]].
      right. left. rewrite Z.add_0_r, Z.pow_0_r, Z.mul_1_r in V.
      split; [exact V | left; exact NE].
  - assert (D : Z.pos (digits2_pos p) = 54)
      by (apply digits2_pos_unique; split; [exact B | exact U]).
    rewrite shr_fexp_one
      by (unfold Zdigits2; rewrite D;
          unfold fexp, SpecFloat.emin, prec, emax; lia).
    assert (Half : forall M,
               2 ^ 52 <= M <= 2 ^ 53 ->
               exists m E,
                 finish s M (e + 1) = S754_finite s m E
                 /\ Z.pos (digits2_pos m) = 53
                 /\ e <= E <= e + 2
                 /\ Z.pos m * 2 ^ (E - e) = 2 * M).
    { intros M HM.
      destruct (finish_normal s M (e + 1) 1) as (m & E & F & Dm & RE & V);
        [lia | lia | lia |].
      exists m, E. split; [exact F | split; [exact Dm | split; [lia |]]].
      replace (E - (e + 1) + 1) with (E - e) in V by lia.
      rewrite V. change (2 ^ 1) with 2. lia. }
    destruct p as [h|h|]; [| | lia].
    + (* an odd mantissa *)
      assert (Hh : 2 ^ 52 <= Z.pos h < 2 ^ 53)
        by (rewrite Pos2Z.inj_xI in B, U;
            change (2 ^ 54) with (2 * 2 ^ 53) in U;
            change (2 ^ 53) with (2 * 2 ^ 52) in B; lia).
      assert (O : Z.odd (Z.pos h~1) = true) by reflexivity.
      destruct loc as [|c].
      * cbn [shr_record_of_loc shr_1 shr_m loc_of_shr_record orb shr_r shr_s
               round_nearest_even].
        destruct (Z.even (Z.pos h)).
        -- destruct (Half (Z.pos h)) as (m & E & F & Dm & RE & V); [lia|].
           exists m, E. split; [exact F | split; [exact Dm | split; [lia |]]].
           right. right. rewrite V, Pos2Z.inj_xI. split; [lia | auto].
        -- destruct (Half (Z.pos h + 1)) as (m & E & F & Dm & RE & V); [lia|].
           exists m, E. split; [exact F | split; [exact Dm | split; [lia |]]].
           right. left. rewrite V, Pos2Z.inj_xI. split; [lia | auto].
      * assert (X : round_nearest_even
                      (shr_m (shr_1 (shr_record_of_loc (Z.pos h~1) (loc_Inexact c))))
                      (loc_of_shr_record
                         (shr_1 (shr_record_of_loc (Z.pos h~1) (loc_Inexact c))))
                    = Z.pos h + 1)
          by (destruct c; reflexivity).
        rewrite X.
        destruct (Half (Z.pos h + 1)) as (m & E & F & Dm & RE & V); [lia|].
        exists m, E. split; [exact F | split; [exact Dm | split; [lia |]]].
        right. left. rewrite V, Pos2Z.inj_xI. split; [lia | auto].
    + (* an even mantissa *)
      assert (Hh : 2 ^ 52 <= Z.pos h < 2 ^ 53)
        by (rewrite Pos2Z.inj_xO in B, U;
            change (2 ^ 54) with (2 * 2 ^ 53) in U;
            change (2 ^ 53) with (2 * 2 ^ 52) in B; lia).
      assert (X : round_nearest_even
                    (shr_m (shr_1 (shr_record_of_loc (Z.pos h~0) loc)))
                    (loc_of_shr_record
                       (shr_1 (shr_record_of_loc (Z.pos h~0) loc)))
                  = Z.pos h)
        by (destruct loc as [|[]]; reflexivity).
      rewrite X.
      destruct (Half (Z.pos h)) as (m & E & F & Dm & RE & V); [lia|].
      exists m, E. split; [exact F | split; [exact Dm | split; [lia |]]].
      left. rewrite V, Pos2Z.inj_xO. lia.
Qed.

(** A mantissa of at most 53 digits at the smallest exponent rounds to
    zero or to a double whose mantissa is not above one unit. *)
Lemma binary_round_aux_tiny s q loc :
  0 <= q < 2 ^ 53 ->
  binary_round_aux prec emax s q (-1074) loc = S754_zero s
  \/ exists m E,
       binary_round_aux prec emax s q (-1074) loc = S754_finite s m E
       /\ E < 0 /\ Z.pos m <= 2 ^ (- E).
Proof.
  intros [L U]. rewrite binary_round_aux_finish.
  rewrite shr_fexp_same.
  - rewrite shr_record_of_loc_m, loc_of_shr_record_of_loc.
    apply finish_tiny.
    destruct (round_nearest_even_cases q loc) as [R1|[R1 _]]; rewrite R1; lia.
  - destruct q as [|p|p]; [reflexivity | | lia].
    pose proof (digits_below p 53 ltac:(lia) U).
    unfold Zdigits2, fexp, SpecFloat.emin, prec, emax. lia.
Qed.

Lemma finish_overflow s R e :
  2 ^ 52 <= R <= 2 ^ 53 -> 971 < e \/ (e = 971 /\ R = 2 ^ 53) ->
  finish s R e = S754_infinity s.
Proof.
  intros [L U] O.
  destruct (Z_lt_le_dec R (2 ^ 53)) as [S|B].
  - destruct R as [|p|p]; try lia.
    assert (D : Z.pos (digits2_pos p) = 53)
      by (apply digits2_pos_unique; split; [exact L | exact S]).
    unfold finish, shr_fexp, Zdigits2. rewrite D.
    rewrite (fexp_normal 53 e) by lia. rewrite Z.sub_diag.
    cbn [shr shr_record_of_loc shr_m].
    replace (e <=? emax - prec) with false; [reflexivity|].
    symmetry. apply Z.leb_gt. unfold emax, prec. lia.
  - assert (R = 2 ^ 53) by lia. subst R.
    unfold finish, shr_fexp.
    change (Zdigits2 (2 ^ 53)) with 54.
    replace (fexp prec emax (54 + e) - e) with 1
      by (unfold fexp, SpecFloat.emin, prec, emax; lia).
    cbn [shr SpecFloat.iter_pos shr_record_of_loc].
    change (2 ^ 53) with (Z.pos (xO 4503599627370496)).
    cbn [shr_1 shr_m].
    replace (e + 1 <=? emax - prec) with false; [reflexivity|].
    symmetry. apply Z.leb_gt. unfold emax, prec. lia.
Qed.

Lemma shr_1_m r : 0 <= shr_m r -> shr_m (shr_1 r) = shr_m r / 2.
Proof.
  destruct r as [m rb sb]. cbn [shr_m]. intros H.
  destruct m as [|[p|p|]|p]; cbn [shr_1 shr_m]; try lia; try reflexivity.
  - rewrite Pos2Z.inj_xI. apply (Z.div_unique _ _ _ 1); lia.
  - rewrite Pos2Z.inj_xO. apply (Z.div_unique _ _ _ 0); lia.
Qed.

Lemma iter_pos_shr_1_m n : forall r,
  0 <= shr_m r ->
  shr_m (SpecFloat.iter_pos shr_1 n r) = shr_m r / 2 ^ Z.pos n.
Proof.
  induction n as [n IH|n IH|]; intros r H; cbn [SpecFloat.iter_pos].
  - pose proof (pow2_pos (Z.pos n) ltac:(lia)) as P.
    rewrite IH by auto using iter_shr_1_nonneg, shr_1_nonneg.
    rewrite IH by auto using shr_1_nonneg.
    rewrite shr_1_m by exact H.
    rewrite !Z.div_div by lia. f_equal.
    replace (Z.pos n~1) with (1 + Z.pos n + Z.pos n) by lia.
    rewrite !Z.pow_add_r by lia. change (2 ^ 1) with 2. ring.
  - pose proof (pow2_pos (Z.pos n) ltac:(lia)) as P.
    rewrite IH by auto using iter_shr_1_nonneg.
    rewrite IH by exact H.
    rewrite !Z.div_div by lia. f_equal.
    replace (Z.pos n~0) with (Z.pos n + Z.pos n) by lia.
    rewrite Z.pow_add_r by lia. reflexivity.
  - apply shr_1_m. exact H.
Qed.

(** Rounding a whole mantissa [S] at exponent [ez]: with [n] the number
    of digits dropped, the result lies between the two neighbours of [S]
    on the grid of step [2^n], or it overflows. *)
Lemma binary_round_near s S ez :
  -1074 <= ez <= 971 ->
  let n := Z.max 0 (fexp prec emax (Z.pos (digits2_pos S) + ez) - ez) in
  let f := Z.pos S / 2 ^ n in
  (binary_round prec emax s S ez = S754_infinity s
   /\ (971 < ez + n \/ (ez + n = 971 /\ 2 ^ 53 <= f + 1)))
  \/ exists m e,
       binary_round prec emax s S ez = S754_finite s m e
       /\ f * 2 ^ (n + ez + 1074) <= Z.pos m * 2 ^ (e + 1074)
          <= (f + 1) * 2 ^ (n + ez + 1074).
Proof.
  intros R n f. unfold binary_round.
  pose proof (digits2_pos_bounds S) as [LS US].
  set (d := Z.pos (digits2_pos S)) in *.
  set (fx := fexp prec emax (d + ez)) in *.
  assert (Hd : 1 <= d) by (unfold d; lia).
  destruct (Z_le_gt_dec (fx - ez) 0) as [Le|Gt].
  - (* nothing is dropped *)
    assert (N0 : n = 0) by (unfold n; lia).
    assert (F0 : f = Z.pos S) by (unfold f; rewrite N0; apply Z.div_1_r).
    right. rewrite F0, N0. clear n f N0 F0.
    pose proof (pow2_pos (ez + 1074) ltac:(lia)) as P.
    replace (0 + ez + 1074) with (ez + 1074) by lia.
    unfold shl_align.
    destruct (fx - ez) as [|k|k] eqn:K; [| lia |].
    + assert (Fx : fexp prec emax (Z.pos (digits2_pos S) + ez) = ez)
        by (fold d; fold fx; lia).
      exists S, ez. split; [| lia].
      rewrite binary_round_aux_finish, shr_fexp_same by exact Fx.
      rewrite shr_record_of_loc_m, loc_of_shr_record_of_loc.
      cbn [round_nearest_even]. apply finish_same; [exact Fx | lia].
    + assert (Fx : fexp prec emax (Z.pos (digits2_pos (Pos.iter xO S k)) + fx) = fx).
      { rewrite digits2_iter_xO, Pos2Z.inj_add. fold d.
        replace (d + Z.pos k + fx) with (d + ez) by lia. reflexivity. }
      exists (Pos.iter xO S k), fx. split.
      * rewrite binary_round_aux_finish, shr_fexp_same by exact Fx.
        rewrite shr_record_of_loc_m, loc_of_shr_record_of_loc.
        cbn [round_nearest_even]. apply finish_same; [exact Fx | lia].
      * rewrite pos_iter_xO.
        assert (fx + 1074 >= 0)
          by (unfold fx, fexp, SpecFloat.emin, prec, emax; lia).
        replace (ez + 1074) with (Z.pos k + (fx + 1074)) by lia.
        rewrite Z.pow_add_r by lia.
        pose proof (pow2_pos (Z.pos k) ltac:(lia)).
        pose proof (pow2_pos (fx + 1074) ltac:(lia)).
        nia.
  - (* [n] digits are dropped *)
    assert (Hn : n = d - 53)
      by (unfold n, fx, fexp, SpecFloat.emin, prec, emax in *; lia).
    assert (Hfx : fx - ez = n)
      by (unfold n, fx, fexp, SpecFloat.emin, prec, emax in *; lia).
    assert (Pn : 0 < n) by lia.
    assert (Ef : f = Z.pos S / 2 ^ n) by reflexivity.
    clearbody f. clearbody n.
    pose proof (pow2_pos n ltac:(lia)) as P2n.
    assert (Hf : 2 ^ 52 <= f < 2 ^ 53).
    { rewrite Ef. split.
      - apply Z.div_le_lower_bound; [exact P2n |].
        rewrite <- Z.pow_add_r by lia.
        replace (n + 52) with (d - 1) by lia. exact LS.
      - apply Z.div_lt_upper_bound; [exact P2n |].
        rewrite <- Z.pow_add_r by lia.
        replace (n + 53) with d by lia. exact US. }
    unfold shl_align.
    replace (match fx - ez with
             | Z.neg d0 => (Pos.iter xO S d0, fx)
             | _ => (S, ez)
             end) with (S, ez) by (destruct (fx - ez); [reflexivity..| lia]).
    rewrite binary_round_aux_finish.
    unfold shr_fexp. cbn [Zdigits2]. fold d. fold fx. rewrite Hfx.
    destruct n as [|k|k] eqn:Kn; try lia.
    cbn [shr]. rewrite <- Kn in *.
    set (rec := SpecFloat.iter_pos shr_1 k (shr_record_of_loc (Z.pos S) loc_Exact)).
    assert (Hm : shr_m rec = f).
    { unfold rec. rewrite iter_pos_shr_1_m by (cbn; lia).
      cbn [shr_record_of_loc shr_m]. rewrite Ef, Kn. reflexivity. }
    rewrite Hm.
    set (Rd := round_nearest_even f (loc_of_shr_record rec)).
    assert (HR : f <= Rd <= f + 1).
    { unfold Rd.
      destruct (round_nearest_even_cases f (loc_of_shr_record rec))
        as [E | [E _]]; rewrite E; lia. }
    destruct (Z_le_gt_dec (ez + n) 970) as [In|Out].
    + right.
      destruct (finish_normal s Rd (ez + n) 0) as (m & E & F & Dm & RE & V);
        [lia | lia | lia |].
      exists m, E. split; [exact F |].
      rewrite Z.add_0_r, Z.pow_0_r, Z.mul_1_r in V.
      replace (E + 1074) with ((E - (ez + n)) + (n + ez + 1074)) by lia.
      rewrite (Z.pow_add_r 2 (E - (ez + n)) (n + ez + 1074)) by lia.
      rewrite Z.mul_assoc, V.
      pose proof (pow2_pos (n + ez + 1074) ltac:(lia)). nia.
    + destruct (Z.eq_dec (ez + n) 971) as [At|Above].
      * destruct (Z_lt_le_dec Rd (2 ^ 53)) as [S53|B53].
        -- right. destruct Rd as [|p|p] eqn:ERd; try lia.
           assert (D : Z.pos (digits2_pos p) = 53)
             by (apply digits2_pos_unique; lia).
           exists p, (ez + n). split.
           ++ apply finish_same; [| lia]. rewrite D. apply fexp_normal; lia.
           ++ replace (ez + n + 1074) with (n + ez + 1074) by lia.
              pose proof (pow2_pos (n + ez + 1074) ltac:(lia)). nia.
        -- left. split; [| right; split; [exact At | lia]].
           apply finish_overflow; [lia |]. right. split; [exact At | lia].
      * left. split; [| left; lia].
        apply finish_overflow; [lia |]. left. lia.
Qed.

End Binary64Quotient.

(* ================================================================= *)
(** * The ceiling of a quotient by a whole step *)

Section Binary64Snap.
#[local] Open Scope Z_scope.

Lemma new_location_exact nb r :
  new_location nb r = loc_Exact <-> r = 0.
Proof.
  unfold new_location, new_location_even, new_location_odd.
  destruct (Z.even nb); destruct (Z.eqb_spec r 0) as [E|E];
    split; intros H; try reflexivity; try assumption;
    try discriminate; contradiction.
Qed.

Lemma SFdiv_core_binary_eq m1 e1 m2 e2 e' :
  Z.min (fexp prec emax (Zdigits2 m1 + e1 - (Zdigits2 m2 + e2))) (e1 - e2) = e' ->
  0 < m2 ->
  exists q r,
    SFdiv_core_binary prec emax m1 e1 m2 e2 = (q, e', new_location m2 r)
    /\ m1 * 2 ^ (e1 - e2 - e') = m2 * q + r
    /\ 0 <= r < m2.
Proof.
  intros He Hm. unfold SFdiv_core_binary. cbv zeta. rewrite He.
  assert (S : 0 <= e1 - e2 - e') by lia.
  set (m' := match e1 - e2 - e' with
             | 0 => m1
             | Z.pos _ => Z.shiftl m1 (e1 - e2 - e')
             | Z.neg _ => 0
             end).
  assert (M : m' = m1 * 2 ^ (e1 - e2 - e')).
  { unfold m'. destruct (e1 - e2 - e') as [|k|k] eqn:K.
    - rewrite Z.pow_0_r. lia.
    - apply Z.shiftl_mul_pow2. lia.
    - lia. }
  pose proof (Z_div_mod m' m2 ltac:(lia)) as DM.
  destruct (Z.div_eucl m' m2) as [q r].
  exists q, r. rewrite <- M. split; [reflexivity | exact DM].
Qed.

(** [Math.ceil] of a positive double, read off its mantissa. *)
Lemma Math_ceil_finite x m E n :
  Prim2SF x = S754_finite false m E ->
  1 <= n < 2 ^ 53 ->
  (0 <= E -> Z.pos (digits2_pos m) = 53 /\ Z.pos m * 2 ^ E = n) ->
  (E < 0 -> (n - 1) * 2 ^ (- E) < Z.pos m <= n * 2 ^ (- E)) ->
  Math_ceil x = of_Z n.
Proof.
  intros Ex Hn Hi Hf. unfold Math_ceil. rewrite Ex.
  destruct (Z.leb_spec 0 E) as [P|N].
  - destruct (Hi P) as [D V].
    pose proof (digits2_pos_bounds m) as [L _]. rewrite D in L.
    change (2 ^ (53 - 1)) with (2 ^ 52) in L.
    assert (E0 : E = 0).
    { assert (52 + E < 53); [| lia].
      apply (Z.pow_lt_mono_r_iff 2); [lia | lia |].
      rewrite Z.pow_add_r by lia.
      pose proof (pow2_pos E P). nia. }
    subst E. rewrite Z.pow_0_r, Z.mul_1_r in V. subst n.
    apply Prim2SF_inj. rewrite Ex.
    destruct (of_Z_pos m (proj2 Hn)) as (m' & E' & V' & D').
    rewrite E', D. rewrite D, Z.sub_diag, Z.pow_0_r, Z.mul_1_r in V'.
    apply Pos2Z.inj in V'. subst m'. reflexivity.
  - specialize (Hf N). f_equal.
    pose proof (pow2_pos (- E) ltac:(lia)) as Pd.
    set (d := 2 ^ (- E)) in *.
    symmetry. apply (Z.div_unique _ _ _ (Z.pos m + d - 1 - d * n)); lia.
Qed.

(** The quotient of a positive double by a whole step, rounded up to a
    whole number: the least [n] with [x <= n * b]. *)
Lemma Math_ceil_div_of_Z x mx ex b :
  Prim2SF x = S754_finite false mx ex ->
  1 <= b < 2 ^ 53 ->
  Z.pos mx * 2 ^ (ex + 1074) <= (2 ^ 53 - b) * 2 ^ 1074 ->
  is_zero (x / of_Z b)%float = false ->
  exists n,
    1 <= n
    /\ (n - 1) * b * 2 ^ 1074 < Z.pos mx * 2 ^ (ex + 1074) <= n * b * 2 ^ 1074
    /\ Math_ceil (x / of_Z b)%float = of_Z n.
Proof.
  intros Ex Hb Hx NZ.
  destruct b as [|pb|pb]; try lia.
  pose proof (Prim2SF_valid x) as Vx. rewrite Ex in Vx.
  cbn [SpecFloat.valid_binary] in Vx.
  destruct (bounded_shape _ _ Vx) as (Rx & Dx & Nx).
  pose proof (digits2_pos_bounds mx) as [Lmx Umx].
  set (dx := Z.pos (digits2_pos mx)) in *.
  destruct (of_Z_pos pb (proj2 Hb)) as (mb & Eb & Vb & Db).
  pose proof (digits2_pos_bounds pb) as [Lpb Upb].
  pose proof (digits_below pb 53 ltac:(lia) (proj2 Hb)) as Dpb.
  pose proof (digits2_pos_bounds mb) as [Lmb Umb]. rewrite Db in Lmb, Umb.
  change (2 ^ (53 - 1)) with (2 ^ 52) in Lmb.
  set (db := Z.pos (digits2_pos pb)) in *.
  assert (Hdb : 1 <= db) by (unfold db; lia).
  assert (Hdx : 1 <= dx) by (unfold dx; lia).
  set (eb := db - 53) in *.
  assert (Q : Prim2SF (x / of_Z (Z.pos pb))%float
              = let '(mz, ez, lz) :=
                  SFdiv_core_binary prec emax (Z.pos mx) ex (Z.pos mb) eb in
                binary_round_aux prec emax false mz ez lz).
  { rewrite div_spec, Ex, Eb. reflexivity. }
  assert (P1074 : 0 < 2 ^ 1074) by (apply pow2_pos; lia).
  assert (Pex : 0 < 2 ^ (ex + 1074)) by (apply pow2_pos; lia).
  assert (Hex : ex <= 0).
  { destruct (Z.eq_dec ex (-1074)) as [|Normal]; [lia|].
    rewrite Nx in Lmx by lia. change (2 ^ (53 - 1)) with (2 ^ 52) in Lmx.
    assert (52 + (ex + 1074) < 53 + 1074); [| lia].
    apply (Z.pow_lt_mono_r_iff 2); [lia | lia |].
    rewrite !Z.pow_add_r by lia. nia. }
  destruct (Z_le_gt_dec (-1074) (dx + ex - (53 + eb) - 53)) as [A|B].
  - (* the quotient is a normal double *)
    assert (Dx53 : dx = 53) by (apply Nx; lia).
    rewrite Dx53 in Lmx, Umx. change (2 ^ (53 - 1)) with (2 ^ 52) in Lmx.
    destruct (SFdiv_core_binary_eq (Z.pos mx) ex (Z.pos mb) eb (ex - eb - 53))
      as (q & r & Core & Div & Rem); [| lia |].
    { unfold Zdigits2. fold dx. rewrite Db, Dx53.
      unfold fexp, SpecFloat.emin, prec, emax. lia. }
    rewrite Core in Q. clear Core.
    replace (ex - eb - (ex - eb - 53)) with 53 in Div by lia.
    assert (Hq : 2 ^ 52 <= q < 2 ^ 54).
    { change (2 ^ 54) with (2 * 2 ^ 53). change (2 ^ 53) with (2 * 2 ^ 52) in *.
      nia. }
    destruct (binary_round_aux_quotient false q (ex - eb - 53)
                (new_location (Z.pos mb) r) Hq ltac:(lia))
      as (m & E & Res & Dm & RE & Near).
    rewrite Res in Q.
    (* the least n with x <= n * b *)
    set (D := Z.pos pb * 2 ^ (- ex)).
    assert (PD : 0 < D) by (pose proof (pow2_pos (- ex) ltac:(lia)); unfold D; nia).
    set (n := (Z.pos mx + D - 1) / D).
    assert (Hn : (n - 1) * D < Z.pos mx <= n * D).
    { pose proof (Z.div_mod (Z.pos mx + D - 1) D ltac:(lia)) as DM.
      pose proof (Z.mod_pos_bound (Z.pos mx + D - 1) D PD) as MB.
      fold n in DM. lia. }
    assert (Hn1 : 1 <= n) by nia.
    assert (Scale : 2 ^ 1074 = 2 ^ (ex + 1074) * 2 ^ (- ex)).
    { rewrite <- Z.pow_add_r by lia. f_equal; lia. }
    assert (Hs : (n - 1) * Z.pos pb * 2 ^ 1074 < Z.pos mx * 2 ^ (ex + 1074)
                 <= n * Z.pos pb * 2 ^ 1074).
    { rewrite Scale. unfold D in Hn. split; nia. }
    assert (Hn53 : n < 2 ^ 53).
    { assert ((n - 1) * Z.pos pb < 2 ^ 53 - Z.pos pb).
      { apply (Z.mul_lt_mono_pos_r (2 ^ 1074)); [exact P1074 | lia]. }
      clear - H Hb Hn1. nia. }
    exists n. split; [exact Hn1 | split; [exact Hs |]].
    (* the rounded quotient lies in ((n-1), n] *)
    set (P := 2 ^ (- (ex - eb - 53))).
    assert (HP : P = 2 * 2 ^ (- (ex - eb - 53) - 1)).
    { unfold P. rewrite <- Z.pow_succ_r by lia. f_equal; lia. }
    assert (PP : 0 < 2 ^ (- (ex - eb - 53) - 1)) by (apply pow2_pos; lia).
    assert (MP : Z.pos mb * P = D * 2 ^ 53).
    { unfold P, D. rewrite Vb. fold db.
      rewrite <- !Z.mul_assoc. f_equal. rewrite <- !Z.pow_add_r by lia.
      f_equal. unfold eb. lia. }
    assert (Ev : forall k, Z.odd (k * P) = false).
    { intros k. rewrite HP, Z.mul_assoc, (Z.mul_comm k 2), <- Z.mul_assoc.
      rewrite Z.odd_mul. reflexivity. }
    assert (Low : Z.pos mb * ((n - 1) * P) + 2 ^ 53 <= Z.pos mx * 2 ^ 53).
    { replace (Z.pos mb * ((n - 1) * P)) with ((n - 1) * (Z.pos mb * P)) by ring.
      rewrite MP. clear - Hn. lia. }
    assert (High : Z.pos mx * 2 ^ 53 <= Z.pos mb * (n * P)).
    { replace (Z.pos mb * (n * P)) with (n * (Z.pos mb * P)) by ring.
      rewrite MP. clear - Hn. lia. }
    set (G := (n - 1) * P) in *. set (K := n * P) in *.
    assert (OG : Z.odd G = false) by apply Ev.
    assert (OK : Z.odd K = false) by apply Ev.
    assert (qG : G + 1 <= q) by (clear - Low Div Rem Umb; nia).
    assert (qG1 : q = G + 1 -> 0 < r)
      by (intros; subst q; clear - Low Div Rem Umb; lia).
    assert (qK : q <= K) by (clear - High Div Rem; nia).
    assert (qK1 : q = K -> r = 0)
      by (intros; subst q; clear - High Div Rem; lia).
    assert (Oq : Z.odd q = true -> q <> K /\ q <> G)
      by (intros O; split; intros C; subst q; congruence).
    assert (Exact : new_location (Z.pos mb) r = loc_Exact <-> r = 0)
      by apply new_location_exact.
    assert (Bound : G < Z.pos m * 2 ^ (E - (ex - eb - 53)) <= K).
    { destruct Near as [V | [[V [I | O]] | [V [O X]]]]; rewrite V.
      - lia.
      - assert (r <> 0) by (intros C; apply I, Exact, C).
        assert (q <> K) by (intros C; apply qK1 in C; lia). lia.
      - destruct (Oq O). lia.
      - destruct (Oq O). apply Exact in X.
        assert (q <> G + 1) by (intros C; apply qG1 in C; lia). lia. }
    apply (Math_ceil_finite _ m E n Q); [lia | |].
    + intros PE. split; [exact Dm|].
      assert (T : 2 ^ (E - (ex - eb - 53)) = 2 ^ E * P).
      { unfold P. rewrite <- Z.pow_add_r by lia. f_equal; lia. }
      rewrite T in Bound. unfold G, K in Bound.
      assert (PPos : 0 < P) by lia.
      set (Y := Z.pos m * 2 ^ E) in *.
      assert (n - 1 < Y)
        by (apply (Z.mul_lt_mono_pos_r P); [exact PPos | unfold Y; lia]).
      assert (Y <= n)
        by (apply (Z.mul_le_mono_pos_r _ _ P); [exact PPos | unfold Y; lia]).
      lia.
    + intros NE.
      assert (T : P = 2 ^ (E - (ex - eb - 53)) * 2 ^ (- E)).
      { unfold P. rewrite <- Z.pow_add_r by lia. f_equal; lia. }
      pose proof (pow2_pos (E - (ex - eb - 53)) ltac:(lia)) as Pt.
      unfold G, K in Bound. rewrite T in Bound.
      set (t := 2 ^ (E - (ex - eb - 53))) in *.
      set (d := 2 ^ (- E)) in *.
      split.
      * apply (Z.mul_lt_mono_pos_r t); [exact Pt | lia].
      * apply (Z.mul_le_mono_pos_r _ _ t); [exact Pt | lia].
  - (* the quotient is below the normal doubles *)
    destruct (SFdiv_core_binary_eq (Z.pos mx) ex (Z.pos mb) eb (-1074))
      as (q & r & Core & Div & Rem); [| lia |].
    { unfold Zdigits2. fold dx. rewrite Db.
      unfold fexp, SpecFloat.emin, prec, emax. lia. }
    rewrite Core in Q. clear Core.
    assert (Small : Z.pos mx * 2 ^ (ex - eb - -1074) < 2 ^ 105).
    { pose proof (pow2_pos (ex - eb - -1074) ltac:(lia)) as Ps.
      apply Z.lt_le_trans with (2 ^ dx * 2 ^ (ex - eb - -1074)).
      - apply Z.mul_lt_mono_pos_r; [exact Ps | exact Umx].
      - rewrite <- Z.pow_add_r by lia. apply Z.pow_le_mono_r; lia. }
    assert (Hq : 0 <= q < 2 ^ 53).
    { change (2 ^ 105) with (2 ^ 52 * 2 ^ 53) in Small.
      pose proof (pow2_pos (ex - eb - -1074) ltac:(lia)) as Ps.
      assert (0 <= Z.pos mx * 2 ^ (ex - eb - -1074)) by lia.
      clear - Small Div Rem Lmb H. nia. }
    assert (Hs : (1 - 1) * Z.pos pb * 2 ^ 1074 < Z.pos mx * 2 ^ (ex + 1074)
                 <= 1 * Z.pos pb * 2 ^ 1074).
    { split; [lia |].
      apply Z.le_trans with (2 ^ 1074 * 1); [| lia].
      rewrite Z.mul_1_r. apply Z.lt_le_incl.
      apply Z.lt_le_trans with (2 ^ dx * 2 ^ (ex + 1074)).
      - apply Z.mul_lt_mono_pos_r; [exact Pex | exact Umx].
      - rewrite <- Z.pow_add_r by lia. apply Z.pow_le_mono_r; lia. }
    destruct (binary_round_aux_tiny false q (new_location (Z.pos mb) r) Hq)
      as [Zero | (m & E & Res & NE & Hm)].
    + rewrite Zero in Q. unfold is_zero in NZ.
      rewrite FloatAxioms.eqb_spec, Q in NZ. discriminate NZ.
    + rewrite Res in Q. exists 1.
      split; [lia | split; [exact Hs |]].
      apply (Math_ceil_finite _ m E 1 Q); [lia | lia |].
      intros _. lia.
Qed.

End Binary64Snap.

(* ================================================================= *)
(** * Snapping to a whole step *)

Section SnapToWholeStep.
#[local] Open Scope Z_scope.

Lemma is_zero_finite x s m e :
  Prim2SF x = S754_finite s m e -> is_zero x = false.
Proof.
  intros E. unfold is_zero. rewrite FloatAxioms.eqb_spec, E.
  destruct s; reflexivity.
Qed.

(** With a step of [b] whole milliseconds, the snapped offset is [n * b]
    for the least [n] whose multiple is not below the offset. *)
Lemma snappedOffset_least offset b :
  1 <= b < 2 ^ 53 ->
  (0 <=? offset)%float = true ->
  (offset <=? of_Z (2 ^ 53 - b))%float = true ->
  is_zero (offset / of_Z b)%float = is_zero offset ->
  exists n,
    0 <= n
    /\ strict_eq (ScrollAnimator.snappedOffset offset (of_Z b)) (of_Z (n * b)) = true
    /\ (offset <=? ScrollAnimator.snappedOffset offset (of_Z b))%float = true
    /\ forall j, 0 <= j < n -> (of_Z (j * b) <? offset)%float = true.
Proof.
  intros Hb H0 Hu Hz.
  assert (Fu : is_finite (of_Z (2 ^ 53 - b)) = true) by (apply of_Z_finite; lia).
  assert (Fo : is_finite offset = true).
  { apply is_finite_complete.
    pose proof (is_finite_spec _ Fu) as Su.
    rewrite leb_spec in H0, Hu. unfold SFleb in H0, Hu.
    change (Prim2SF 0) with (S754_zero false) in H0.
    destruct (Prim2SF offset) as [s|s| |s m e]; try exact I.
    - destruct (Prim2SF (of_Z (2 ^ 53 - b))) as [s'|s'| |s' m' e'];
        try contradiction; destruct s; discriminate.
    - discriminate. }
  pose proof Hu as Su. rewrite (leb_scaled _ _ Fo Fu) in Su.
  rewrite scaled_of_Z in Su by lia. apply Z.leb_le in Su.
  destruct b as [|pb|pb]; try lia.
  destruct (of_Z_pos pb (proj2 Hb)) as (mb & Eb & Vb & Db).
  unfold ScrollAnimator.snappedOffset, strict_eq.
  destruct (Prim2SF offset) as [s|s| |s mx ex] eqn:Eo.
  - (* a zero offset *)
    assert (Q : Prim2SF (offset / of_Z (Z.pos pb))%float = S754_zero s).
    { rewrite div_spec, Eo, Eb. cbn. now rewrite xorb_false_r. }
    assert (C : Math_ceil (offset / of_Z (Z.pos pb))%float
                = (offset / of_Z (Z.pos pb))%float).
    { unfold Math_ceil. rewrite Q. reflexivity. }
    assert (S : Prim2SF (Math_ceil (offset / of_Z (Z.pos pb))
                         * of_Z (Z.pos pb))%float = S754_zero s).
    { rewrite mul_spec, C, Q, Eb. cbn. now rewrite xorb_false_r. }
    exists 0. split; [lia |]. split; [| split].
    + rewrite FloatAxioms.eqb_spec, S. reflexivity.
    + rewrite leb_spec, Eo, S. reflexivity.
    + intros j Hj. lia.
  - apply is_finite_spec in Fo. rewrite Eo in Fo. contradiction.
  - apply is_finite_spec in Fo. rewrite Eo in Fo. contradiction.
  - assert (s = false).
    { rewrite leb_spec, Eo in H0. destruct s; [discriminate | reflexivity]. }
    subst s.
    rewrite (is_zero_finite _ _ _ _ Eo) in Hz.
    cbn [scaled] in Su.
    destruct (Math_ceil_div_of_Z offset mx ex (Z.pos pb) Eo Hb Su Hz)
      as (n & Hn & Hs & C).
    assert (P1074 : 0 < 2 ^ 1074) by (apply pow2_pos; lia).
    assert (Hnb : n * Z.pos pb < 2 ^ 53).
    { assert ((n - 1) * Z.pos pb < 2 ^ 53 - Z.pos pb); [| lia].
      apply (Z.mul_lt_mono_pos_r (2 ^ 1074)); [exact P1074 | lia]. }
    rewrite C, (mul_of_Z n (Z.pos pb)) by lia.
    assert (Fn : is_finite (of_Z (n * Z.pos pb)) = true)
      by (apply of_Z_finite; lia).
    exists n. split; [lia |]. split; [| split].
    + rewrite (eqb_scaled _ _ Fn Fn). apply Z.eqb_refl.
    + rewrite (leb_scaled _ _ Fo Fn), Eo, scaled_of_Z by lia.
      cbn [scaled]. apply Z.leb_le. lia.
    + intros j Hj.
      assert (Hjb : j * Z.pos pb <= (n - 1) * Z.pos pb)
        by (apply Z.mul_le_mono_nonneg_r; lia).
      assert (Fj : is_finite (of_Z (j * Z.pos pb)) = true)
        by (apply of_Z_finite; lia).
      rewrite (ltb_scaled _ _ Fj Fo), Eo, scaled_of_Z by lia.
      cbn [scaled]. apply Z.ltb_lt.
      apply Z.le_lt_trans with ((n - 1) * Z.pos pb * 2 ^ 1074); [| lia].
      apply Z.mul_le_mono_nonneg_r; lia.
Qed.

End SnapToWholeStep.

(* ================================================================= *)
(** * The time value of a [Date] *)

Section TimeValues.
#[local] Open Scope Z_scope.

(** Dropping the fraction of a double drops the fraction of its value. *)
Lemma scaled_truncate x :
  is_finite x = true ->
  is_finite (truncate x) = true
  /\ scaled (Prim2SF (truncate x))
     = Z.quot (scaled (Prim2SF x)) (2 ^ 1074) * 2 ^ 1074.
Proof.
  intros Fx. pose proof (Prim2SF_valid x) as V.
  pose proof (is_finite_spec _ Fx) as S.
  assert (P1074 : 0 < 2 ^ 1074) by (apply pow2_pos; lia).
  unfold truncate.
  destruct (Prim2SF x) as [s|s| |s m e] eqn:E; try contradiction.
  - split; reflexivity.
  - cbn [SpecFloat.valid_binary] in V.
    destruct (bounded_shape _ _ V) as (R & D & _).
    pose proof (digits2_pos_bounds m) as [_ Um].
    assert (U53 : Z.pos m < 2 ^ 53).
    { eapply Z.lt_le_trans; [exact Um|]. apply Z.pow_le_mono_r; lia. }
    destruct (Z.leb_spec 0 e) as [P|N].
    + split; [exact Fx |]. rewrite E. cbn [scaled].
      replace (e + 1074) with (e + 1074)%Z by reflexivity.
      rewrite Z.pow_add_r by lia.
      destruct s.
      * rewrite Z.mul_opp_l, Z.mul_assoc, <- Z.mul_opp_l, Z.quot_mul by lia.
        lia.
      * rewrite Z.mul_assoc, Z.quot_mul by lia. lia.
    + pose proof (pow2_pos (- e) ltac:(lia)) as Pd.
      pose proof (pow2_pos (e + 1074) ltac:(lia)) as Pv.
      assert (U : 2 ^ 1074 = 2 ^ (- e) * 2 ^ (e + 1074)).
      { rewrite <- Z.pow_add_r by lia. f_equal; lia. }
      set (q := Z.pos m / 2 ^ (- e)).
      assert (Hq : 0 <= q < 2 ^ 53).
      { unfold q. split; [apply Z.div_pos; lia |].
        apply Z.le_lt_trans with (Z.pos m); [| exact U53].
        apply Z.div_le_upper_bound; [lia | nia]. }
      assert (Q : Z.quot (Z.pos m * 2 ^ (e + 1074)) (2 ^ 1074) = q).
      { rewrite Z.quot_div_nonneg by lia.
        rewrite U. apply Z.div_mul_cancel_r; lia. }
      cbn [scaled]. destruct s.
      * rewrite Z.mul_opp_l, Z.quot_opp_l, Q by lia.
        destruct (Z.eqb_spec q 0) as [Z0|NZ].
        -- rewrite Z0. split; reflexivity.
        -- assert (Hq1 : 1 <= q < 2 ^ 53) by lia.
           destruct q as [|pq|pq]; try lia.
           destruct (of_Z_pos pq (proj2 Hq1)) as (mq & Eq & Vq & Dq).
           pose proof (scaled_of_Z (Z.pos pq) ltac:(lia)) as Sq.
           rewrite Eq in Sq. cbn [scaled] in Sq.
           split.
           ++ apply is_finite_complete. rewrite opp_spec, Eq. exact I.
           ++ rewrite opp_spec, Eq. cbn [SFopp negb scaled]. lia.
      * rewrite Q. split; [apply of_Z_finite; exact Hq |].
        apply scaled_of_Z. exact Hq.
Qed.

Lemma scaled_abs x :
  scaled (Prim2SF (abs x)) = Z.abs (scaled (Prim2SF x)).
Proof.
  rewrite abs_spec.
  destruct (Prim2SF x) as [s|s| |s m e]; try reflexivity.
  cbn [SFabs scaled]. pose proof (Z.pow_nonneg 2 (e + 1074) ltac:(lia)).
  destruct s; nia.
Qed.

Lemma is_finite_abs x : is_finite x = true -> is_finite (abs x) = true.
Proof.
  intros F. apply is_finite_spec in F. apply is_finite_complete.
  rewrite abs_spec. destruct (Prim2SF x); try contradiction; exact I.
Qed.

(** A number that [TimeClip] leaves alone is NaN or a finite number
    without a fraction, within the range of dates. *)
Lemma TimeClip_fixed x :
  TimeClip x = x ->
  is_nan x = true
  \/ (is_finite x = true /\ (abs x <=? 8.64e15)%float = true
      /\ truncate x = x).
Proof.
  unfold TimeClip. intros H.
  destruct (is_finite x) eqn:F; cbn [andb] in H.
  - destruct (abs x <=? 8.64e15)%float.
    + right. split; [reflexivity | split; [reflexivity | exact H]].
    + left. rewrite <- H. reflexivity.
  - left. rewrite <- H. reflexivity.
Qed.

(** The time value a [Date] holds is not above a time value that the
    number it was made from is not above. *)
Lemma TimeClip_not_above x y :
  TimeClip y = y -> (y <? x)%float = false -> (y <? TimeClip x)%float = false.
Proof.
  intros Hy Hxy.
  destruct (TimeClip_fixed y Hy) as [Ny | (Fy & _ & Ty)].
  { rewrite ltb_spec. apply is_nan_spec in Ny. rewrite Ny. reflexivity. }
  unfold TimeClip.
  destruct (is_finite x) eqn:Fx; cbn [andb]; [| apply ltb_nan_r, is_nan_nan].
  destruct (abs x <=? 8.64e15)%float; [| apply ltb_nan_r, is_nan_nan].
  destruct (scaled_truncate x Fx) as [Ft Sx].
  destruct (scaled_truncate y Fy) as [_ Sy]. rewrite Ty in Sy.
  rewrite (ltb_scaled _ _ Fy Fx) in Hxy. apply Z.ltb_ge in Hxy.
  rewrite (ltb_scaled _ _ Fy Ft). apply Z.ltb_ge.
  rewrite Sx, Sy.
  apply Z.mul_le_mono_nonneg_r; [apply Z.pow_nonneg; lia |].
  apply Z.quot_le_mono; [apply pow2_pos; lia | exact Hxy].
Qed.

(** A number [===] a time value makes a [Date] that holds this time
    value. *)
Lemma TimeClip_strict_eq x y :
  TimeClip y = y -> (x =? y)%float = true -> (TimeClip x =? y)%float = true.
Proof.
  intros Hy E.
  destruct (TimeClip_fixed y Hy) as [Ny | (Fy & Ry & Ty)].
  { rewrite FloatAxioms.eqb_spec in E. apply is_nan_spec in Ny.
    rewrite Ny in E. unfold SFeqb in E.
    destruct (Prim2SF x); discriminate E. }
  assert (Fx : is_finite x = true).
  { apply is_finite_complete. apply is_finite_spec in Fy.
    rewrite FloatAxioms.eqb_spec in E. unfold SFeqb in E.
    destruct (Prim2SF x) as [s|s| |s m e]; try exact I;
      destruct (Prim2SF y) as [s'|s'| |s' m' e']; try contradiction;
      try discriminate E; destruct s; discriminate E. }
  pose proof E as Sxy. rewrite (eqb_scaled _ _ Fx Fy) in Sxy.
  apply Z.eqb_eq in Sxy.
  assert (Rx : (abs x <=? 8.64e15)%float = true).
  { rewrite <- Ry.
    rewrite !leb_scaled
      by (first [apply is_finite_abs; assumption | reflexivity]).
    rewrite !scaled_abs, Sxy. reflexivity. }
  unfold TimeClip. rewrite Fx, Rx. cbn [andb].
  destruct (scaled_truncate x Fx) as [Ft Sx].
  destruct (scaled_truncate y Fy) as [_ Sy]. rewrite Ty in Sy.
  rewrite (eqb_scaled _ _ Ft Fy). apply Z.eqb_eq.
  rewrite Sx, Sxy, <- Sy. reflexivity.
Qed.

End TimeValues.

(* ================================================================= *)
(** * The sign of a difference and the order of a sum *)

Section Binary64Sums.
#[local] Open Scope Z_scope.

Lemma leb_zero_SFnonneg x : (0 <=? x)%float = true <-> SFnonneg (Prim2SF x).
Proof.
  rewrite leb_spec. change (Prim2SF 0) with (S754_zero false).
  unfold SFleb, SFnonneg.
  destruct (Prim2SF x) as [s|s| |s m e]; cbn [SFcompare];
    try destruct s; split; intros H; try exact I; try reflexivity;
    try discriminate H; try contradiction.
Qed.

Lemma binary_round_aux_nonneg m e l :
  0 <= m -> SFnonneg (binary_round_aux prec emax false m e l).
Proof.
  intros H. unfold binary_round_aux.
  pose proof (shr_fexp_nonneg m e l H) as H1.
  destruct (shr_fexp prec emax m e l) as [r1 e1]. simpl in H1.
  pose proof (shr_fexp_nonneg _ e1 loc_Exact
                (round_nearest_even_nonneg _ (loc_of_shr_record r1) H1)) as H2.
  destruct (shr_fexp prec emax _ e1 loc_Exact) as [r2 e2]. simpl in H2.
  destruct (shr_m r2) as [|p|p]; [exact I | | lia].
  destruct (e2 <=? emax - prec); exact I.
Qed.

Lemma binary_normalize_nonneg m e :
  0 <= m -> SFnonneg (binary_normalize prec emax m e false).
Proof.
  intros H. destruct m as [|p|p]; [exact I | | lia].
  cbn [binary_normalize]. unfold binary_round.
  destruct (shl_align p e _) as [mz ez]. apply binary_round_aux_nonneg. lia.
Qed.

Lemma shl_align_value m e ez :
  ez <= e -> Z.pos (fst (shl_align m e ez)) = Z.pos m * 2 ^ (e - ez).
Proof.
  intros H. unfold shl_align.
  destruct (ez - e) as [|k|k] eqn:K; cbn [fst].
  - replace (e - ez) with 0 by lia. lia.
  - lia.
  - rewrite pos_iter_xO. f_equal. f_equal. lia.
Qed.

Lemma scaled_aligned s m e ez :
  -1074 <= ez <= e ->
  scaled (S754_finite s m e)
  = cond_Zopp s (Z.pos (fst (shl_align m e ez))) * 2 ^ (ez + 1074).
Proof.
  intros H. rewrite shl_align_value by lia. unfold scaled, cond_Zopp.
  replace (e + 1074) with ((e - ez) + (ez + 1074)) by lia.
  rewrite Z.pow_add_r by lia. destruct s; ring.
Qed.

(** The difference of two finite doubles in their order is not negative. *)
Lemma sub_nonneg x y :
  is_finite x = true -> is_finite y = true -> (x <=? y)%float = true ->
  SFnonneg (Prim2SF (y - x)).
Proof.
  intros Fx Fy L. rewrite (leb_scaled _ _ Fx Fy) in L. apply Z.leb_le in L.
  pose proof (Prim2SF_valid x) as Vx. pose proof (Prim2SF_valid y) as Vy.
  apply is_finite_spec in Fx, Fy. rewrite sub_spec. unfold SF64sub.
  destruct (Prim2SF x) as [sx|sx| |sx mx ex]; try contradiction;
  destruct (Prim2SF y) as [sy|sy| |sy my ey]; try contradiction.
  - cbn. destruct sy, sx; exact I.
  - cbn [SFsub]. cbn [SpecFloat.valid_binary] in Vy.
    destruct (bounded_shape _ _ Vy) as (R & _).
    pose proof (scaled_finite_sign sy my ey ltac:(lia)) as S.
    change (scaled (S754_zero sx)) with 0 in L.
    destruct sy; [lia | exact I].
  - cbn [SFsub]. cbn [SpecFloat.valid_binary] in Vx.
    destruct (bounded_shape _ _ Vx) as (R & _).
    pose proof (scaled_finite_sign sx mx ex ltac:(lia)) as S.
    change (scaled (S754_zero sy)) with 0 in L.
    destruct sx; [exact I | lia].
  - cbn [SFsub]. cbn [SpecFloat.valid_binary] in Vx, Vy.
    destruct (bounded_shape _ _ Vx) as (Rx & _).
    destruct (bounded_shape _ _ Vy) as (Ry & _).
    apply binary_normalize_nonneg.
    rewrite (scaled_aligned sx mx ex (Z.min ey ex)) in L by lia.
    rewrite (scaled_aligned sy my ey (Z.min ey ex)) in L by lia.
    pose proof (pow2_pos (Z.min ey ex + 1074) ltac:(lia)) as P.
    nia.
Qed.

(** The product of two doubles that are not negative is not negative. *)
Lemma mul_nonneg x y :
  is_finite x = true -> is_finite y = true ->
  SFnonneg (Prim2SF x) -> SFnonneg (Prim2SF y) ->
  SFnonneg (Prim2SF (x * y)).
Proof.
  intros Fx Fy Nx Ny. apply is_finite_spec in Fx, Fy.
  rewrite mul_spec. unfold SF64mul.
  destruct (Prim2SF x) as [sx|sx| |sx mx ex]; try contradiction;
  destruct (Prim2SF y) as [sy|sy| |sy my ey]; try contradiction;
    cbn [SFmul]; try exact I.
  destruct sx, sy; try contradiction. cbn [xorb].
  apply binary_round_aux_nonneg. lia.
Qed.

Lemma SFleb_refl_finite s m e :
  SFleb (S754_finite s m e) (S754_finite s m e) = true.
Proof.
  unfold SFleb. rewrite SFcompare_refl by discriminate. reflexivity.
Qed.

Lemma canonical_exponent m e :
  bounded prec emax m e = true ->
  e = Z.max (Z.pos (digits2_pos m) + e - 53) (-1074).
Proof.
  unfold bounded, canonical_mantissa, fexp, SpecFloat.emin, prec, emax.
  rewrite andb_true_iff, Z.eqb_eq. lia.
Qed.

(** Adding a double that is not negative does not take a finite double
    down. *)
Lemma add_not_below x y :
  is_finite x = true -> SFnonneg (Prim2SF y) ->
  (x <=? x + y)%float = true.
Proof.
  intros Fx Ny. rewrite leb_spec.
  pose proof (Prim2SF_valid (x + y)) as Vr.
  rewrite add_spec in Vr |- *. unfold SF64add in *.
  pose proof (Prim2SF_valid x) as Vx. pose proof (Prim2SF_valid y) as Vy.
  apply is_finite_spec in Fx.
  destruct (Prim2SF x) as [sx|sx| |sx mx ex]; try contradiction;
  destruct (Prim2SF y) as [sy|sy| |sy my ey]; try contradiction.
  - destruct sx, sy; reflexivity.
  - destruct sy; [contradiction | reflexivity].
  - destruct sy; [contradiction | reflexivity].
  - cbn [SFadd]. apply SFleb_refl_finite.
  - destruct sy; [contradiction |]. cbn [SFadd]. destruct sx; reflexivity.
  - destruct sy; [contradiction |].
    cbn [SFadd] in Vr |- *. cbn [SpecFloat.valid_binary] in Vx, Vy.
    destruct (bounded_shape _ _ Vx) as (Rx & Dx & _).
    destruct (bounded_shape _ _ Vy) as (Ry & _).
    pose proof (canonical_exponent _ _ Vx) as Cx.
    set (ez := Z.min ex ey) in *.
    assert (Rz : -1074 <= ez <= 971) by (unfold ez; lia).
    pose proof (shl_align_value mx ex ez ltac:(unfold ez; lia)) as Ax.
    pose proof (shl_align_value my ey ez ltac:(unfold ez; lia)) as Ay.
    pose proof (scaled_aligned sx mx ex ez ltac:(unfold ez; lia)) as Sx.
    set (ax := fst (shl_align mx ex ez)) in *.
    set (ay := fst (shl_align my ey ez)) in *.
    pose proof (digits2_pos_bounds mx) as [Lmx Umx].
    set (dx := Z.pos (digits2_pos mx)) in *.
    assert (Hdx : 1 <= dx) by (unfold dx; lia).
    pose proof (pow2_pos (ex - ez) ltac:(unfold ez; lia)) as Pxz.
    pose proof (pow2_pos (ez + 1074) ltac:(lia)) as Pz.
    assert (Hez : ez <= ex) by (unfold ez; lia).
    cbn [cond_Zopp] in *.
    destruct (cond_Zopp sx (Z.pos ax) + Z.pos ay) as [|S|S] eqn:ES;
      cbn [binary_normalize] in Vr |- *.
    + destruct sx; [reflexivity | cbn [cond_Zopp] in ES; lia].
    + (* the sum is positive *)
      destruct (binary_round_near false S ez Rz) as [[Inf _] | (m & e & Fin & Lo & _)].
      * rewrite Inf. destruct sx; reflexivity.
      * rewrite Fin in Vr |- *. destruct sx; [reflexivity |].
        cbn [cond_Zopp] in ES, Sx.
        unfold SFleb.
        rewrite (SFcompare_scaled (S754_finite false mx ex)
                   (S754_finite false m e) Vx Vr I I), Sx.
        cbn [scaled].
        pose proof (digits2_pos_bounds S) as [LS US].
        set (dS := Z.pos (digits2_pos S)) in *.
        set (n := Z.max 0 (fexp prec emax (dS + ez) - ez)) in *.
        set (f := Z.pos S / 2 ^ n) in *.
        assert (Hn0 : 0 <= n) by (unfold n; lia).
        pose proof (pow2_pos n Hn0) as Pn.
        assert (Key : Z.pos ax <= f * 2 ^ n).
        { destruct (Z_le_gt_dec n 0) as [Zn|Pos].
          - assert (n = 0) by lia.
            unfold f. replace n with 0 by lia.
            rewrite Z.pow_0_r, Z.div_1_r. lia.
          - assert (Hn : n = dS - 53)
              by (unfold n, fexp, SpecFloat.emin, prec, emax in *; lia).
            destruct (Z_le_gt_dec dS (dx + (ex - ez))) as [Same|Longer].
            + assert (Hd : 0 <= ex - ez - n) by lia.
              pose proof (pow2_pos (ex - ez - n) Hd) as Pa.
              assert (Split : 2 ^ (ex - ez) = 2 ^ (ex - ez - n) * 2 ^ n).
              { rewrite <- Z.pow_add_r by lia. f_equal; lia. }
              set (a := Z.pos mx * 2 ^ (ex - ez - n)).
              assert (Ea : Z.pos ax = a * 2 ^ n)
                by (rewrite Ax, Split; unfold a; ring).
              assert (a <= f).
              { unfold f. apply Z.div_le_lower_bound; [exact Pn | lia]. }
              rewrite Ea. apply Z.mul_le_mono_nonneg_r; lia.
            + assert (Ua : Z.pos ax < 2 ^ (dS - 1)).
              { apply Z.lt_le_trans with (2 ^ (dx + (ex - ez))).
                - rewrite Ax, Z.pow_add_r by lia.
                  apply Z.mul_lt_mono_pos_r; [exact Pxz | exact Umx].
                - apply Z.pow_le_mono_r; lia. }
              assert (2 ^ (dS - 1 - n) <= f).
              { unfold f. apply Z.div_le_lower_bound; [exact Pn |].
                rewrite <- Z.pow_add_r by lia.
                replace (n + (dS - 1 - n)) with (dS - 1) by lia. exact LS. }
              assert (2 ^ (dS - 1) = 2 ^ (dS - 1 - n) * 2 ^ n).
              { rewrite <- Z.pow_add_r by lia. f_equal; lia. }
              apply Z.le_trans with (2 ^ (dS - 1)); [lia |].
              rewrite H0. apply Z.mul_le_mono_nonneg_r; lia. }
        assert (Le : Z.pos ax * 2 ^ (ez + 1074) <= Z.pos m * 2 ^ (e + 1074)).
        { eapply Z.le_trans; [| exact Lo].
          replace (n + ez + 1074) with (n + (ez + 1074)) by lia.
          rewrite (Z.pow_add_r 2 n (ez + 1074)), Z.mul_assoc by lia.
          apply Z.mul_le_mono_nonneg_r; lia. }
        destruct (Z.compare_spec (Z.pos ax * 2 ^ (ez + 1074))
                    (Z.pos m * 2 ^ (e + 1074))); [reflexivity | reflexivity | lia].
    + (* the sum is negative *)
      destruct sx; [| cbn [cond_Zopp] in ES; lia].
      cbn [cond_Zopp] in ES, Sx.
      pose proof (digits2_pos_bounds S) as [LS US].
      assert (Ua : Z.pos ax < 2 ^ (dx + (ex - ez))).
      { rewrite Ax, Z.pow_add_r by lia.
        apply Z.mul_lt_mono_pos_r; [exact Pxz | exact Umx]. }
      pose proof (digits_below S (dx + (ex - ez)) ltac:(lia) ltac:(lia)) as DS.
      destruct (binary_round_near true S ez Rz) as [[Inf Over] | (m & e & Fin & _ & Hi)];
        set (dS := Z.pos (digits2_pos S)) in *;
        set (n := Z.max 0 (fexp prec emax (dS + ez) - ez)) in *;
        set (f := Z.pos S / 2 ^ n) in *;
        assert (Hn0 : 0 <= n) by (unfold n; lia);
        assert (Hn : n <= ex - ez)
          by (unfold n, fexp, SpecFloat.emin, prec, emax in *; lia);
        pose proof (pow2_pos n Hn0) as Pn;
        pose proof (pow2_pos (ex - ez - n) ltac:(lia)) as Pa;
        assert (Split : 2 ^ (ex - ez) = 2 ^ (ex - ez - n) * 2 ^ n)
          by (rewrite <- Z.pow_add_r by lia; f_equal; lia);
        set (a := Z.pos mx * 2 ^ (ex - ez - n));
        assert (Ea : Z.pos ax = a * 2 ^ n)
          by (rewrite Ax, Split; unfold a; ring);
        assert (Hf : f + 1 <= a)
          by (assert (f < a); [unfold f; apply Z.div_lt_upper_bound; [exact Pn | lia] | lia]).
      * exfalso. destruct Over as [O | [O1 O2]]; [lia |].
        assert (ex - ez - n = 0) by lia.
        assert (a = Z.pos mx) by (unfold a; rewrite H; lia).
        assert (Z.pos mx < 2 ^ 53).
        { eapply Z.lt_le_trans; [exact Umx |]. apply Z.pow_le_mono_r; lia. }
        lia.
      * rewrite Fin in Vr |- *. unfold SFleb.
        rewrite (SFcompare_scaled (S754_finite true mx ex)
                   (S754_finite true m e) Vx Vr I I), Sx.
        cbn [scaled].
        assert (Le : Z.pos m * 2 ^ (e + 1074) <= Z.pos ax * 2 ^ (ez + 1074)).
        { eapply Z.le_trans; [exact Hi |].
          replace (n + ez + 1074) with (n + (ez + 1074)) by lia.
          rewrite (Z.pow_add_r 2 n (ez + 1074)), Z.mul_assoc by lia.
          apply Z.mul_le_mono_nonneg_r; [lia |].
          rewrite Ea. apply Z.mul_le_mono_nonneg_r; lia. }
        destruct (Z.compare_spec (- Z.pos ax * 2 ^ (ez + 1074))
                    (- Z.pos m * 2 ^ (e + 1074))); [reflexivity | reflexivity | lia].
Qed.

Lemma sub_finite_left x y :
  is_finite x = true -> is_finite (y - x) = true -> is_finite y = true.
Proof.
  intros Fx Fd. apply is_finite_spec in Fx, Fd. apply is_finite_complete.
  rewrite sub_spec in Fd. unfold SF64sub in Fd.
  destruct (Prim2SF x) as [sx|sx| |sx mx ex]; try contradiction;
  destruct (Prim2SF y) as [sy|sy| |sy my ey]; try exact I;
    cbn [SFsub] in Fd; try contradiction.
Qed.

(** In a window of finite bounds with [start <= end], at a progress in
    [0,1], the interpolated time is not before the start: the raw offset
    is not negative. *)
Lemma offset_not_negative start stop p :
  (start <=? stop)%float = true ->
  is_finite start = true -> is_finite (stop - start) = true ->
  (0 <=? p)%float = true -> (p <=? 1)%float = true ->
  (0 <=? ScrollAnimator.interpolate p start stop - start)%float = true.
Proof.
  intros L Fs Fd P0 P1.
  pose proof (sub_finite_left _ _ Fs Fd) as Fe.
  pose proof (sub_nonneg _ _ Fs Fe L) as Nd.
  pose proof (unit_interval_finite p P0 P1) as Fp.
  pose proof (mul_nonneg _ _ Fd Fp Nd (proj1 (leb_zero_SFnonneg p) P0)) as Ny.
  pose proof (add_not_below start _ Fs Ny) as Li.
  unfold ScrollAnimator.interpolate.
  set (i := (start + (stop - start) * p)%float) in *.
  apply leb_zero_SFnonneg.
  destruct (is_finite i) eqn:Fi.
  - apply sub_nonneg; assumption.
  - rewrite leb_spec in Li. unfold SFleb in Li.
    apply is_finite_spec in Fs. rewrite sub_spec. unfold SF64sub.
    destruct (Prim2SF i) as [si|si| |si mi ei] eqn:Ei.
    + rewrite (is_finite_complete i) in Fi by (rewrite Ei; exact I).
      discriminate Fi.
    + destruct (Prim2SF start) as [ss|ss| |ss ms es]; try contradiction;
        destruct si; cbn in Li |- *; try exact I; try discriminate Li;
        destruct ss; discriminate Li.
    + destruct (Prim2SF start); discriminate Li.
    + rewrite (is_finite_complete i) in Fi by (rewrite Ei; exact I).
      discriminate Fi.
Qed.

End Binary64Sums.

(* ================================================================= *)
(** * The formulas in exact arithmetic *)

Section ExactArithmetic.
#[local] Open Scope Q_scope.

(** Without rounding the blend starts at the current value... *)
Lemma exact_interpolate_zero a b : Exact.interpolate 0 a b == a.
Proof. unfold Exact.interpolate. ring. Qed.

(** ... and reaches the next one. *)
Lemma exact_interpolate_one a b : Exact.interpolate 1 a b == b.
Proof. unfold Exact.interpolate. ring. Qed.

(** Without rounding the snapped offset is the least multiple of a positive
    step that is not below the offset. *)
Lemma exact_snappedOffset_least offset stepMs :
  0 < stepMs ->
  offset <= Exact.snappedOffset offset stepMs
  /\ forall j : Z, offset <= inject_Z j * stepMs ->
                   (Qceiling (offset / stepMs) <= j)%Z.
Proof.
  intros Hs. unfold Exact.snappedOffset. split.
  - assert (E : offset == offset / stepMs * stepMs).
    { field. intros Z. rewrite Z in Hs. discriminate. }
    rewrite E at 1. apply Qmult_le_compat_r.
    + apply Qle_ceiling.
    + now apply Qlt_le_weak.
  - intros j Hj.
    assert (H : offset / stepMs <= inject_Z j) by (now apply Qle_shift_div_r).
    assert (K : inject_Z (Qceiling (offset / stepMs) - 1) < inject_Z j).
    { eapply Qlt_le_trans; [apply Qceiling_lt | exact H]. }
    rewrite <- Zlt_Qlt in K. lia.
Qed.

Lemma exact_clampedTime_le_end start end_ stepMs p :
  Exact.clampedTime start end_ stepMs p <= end_.
Proof. unfold Exact.clampedTime. apply Q.le_min_r. Qed.

End ExactArithmetic.

(* ================================================================= *)
(** * Viewpoint interpolation *)

Section ViewpointInterpolation.
Import ScrollAnimator.

Lemma interpolate_one a b : interpolate 1 a b = a + (b - a).
Proof. unfold interpolate. now rewrite mul_one. Qed.

(** At progress 0 an end whose difference overflows is lost: the product
    of an infinity and 0 is NaN. *)
Example interpolate_zero_overflow : is_nan (interpolate 0 1e308 (-1e308)) = true.
Proof. reflexivity. Qed.

(** C1 (amended).  With a viewpoint on both slides, [interpolateViewpoint]
    sends to [goTo] a viewpoint whose rotation, scale, xmin, ymin, xmax and
    ymax are each the double [a + (b - a) * p], and whose spatial reference
    (wkid, latestWkid) is the current one.  At p = 0 each of the six fields
    is [===] the current value, provided that value is not NaN and [b - a]
    is finite.  At p = 1 each field is the double [a + (b - a)], which is
    the next value only up to the rounding of the subtraction and the
    addition. *)
Theorem interpolateViewpoint_blend cur next c n p w :
  get cur "viewpoint" = Some (VViewpoint c) ->
  get next "viewpoint" = Some (VViewpoint n) ->
  let v := blend p c n in
  interpolateViewpoint
    {| slideCurrent := cur; slideNext := Some next; progress := p |} w
  = (goTo {| target := Some (VViewpoint v); animate := true; duration := 1000 |} w,
     Normal)
  /\ fields v = zipWith (fun a b => a + (b - a) * p) (fields c) (fields n)
  /\ spatialReference (targetGeometry v) = spatialReference (targetGeometry c)
  /\ (p = 0 ->
      Forall2 (fun a b => is_nan a = false /\ is_finite (b - a) = true)
              (fields c) (fields n) ->
      Forall2 (fun x a => strict_eq x a = true) (fields v) (fields c))
  /\ (p = 1 ->
      fields v = zipWith (fun a b => a + (b - a)) (fields c) (fields n)).
Proof.
  intros Hc Hn v.
  split; [| split; [| split; [| split]]].
  - unfold interpolateViewpoint. cbn [slideCurrent slideNext progress].
    rewrite Hc, Hn. reflexivity.
  - reflexivity.
  - destruct c as [r s [[lw wk] x0 y0 x1 y1]]. reflexivity.
  - intros -> H. unfold fields in *. subst v.
    repeat match goal with
           | H : Forall2 _ (_ :: _) (_ :: _) |- _ => inversion H; subst; clear H
           end.
    cbn [blend rotation scale targetGeometry xmin ymin xmax ymax].
    repeat (constructor; [ apply interpolate_zero; tauto |]).
    constructor.
  - intros ->. subst v. unfold fields.
    cbn [blend rotation scale targetGeometry xmin ymin xmax ymax zipWith].
    now rewrite !interpolate_one.
Qed.

Lemma interpolateViewpoint_blend_witness :
  get Sample.slideA "viewpoint" = Some (VViewpoint Sample.viewpointA)
  /\ get Sample.slideB "viewpoint" = Some (VViewpoint Sample.viewpointB)
  /\ Forall2 (fun x a => strict_eq x a = true)
             (fields (blend 0 Sample.viewpointA Sample.viewpointB))
             (fields Sample.viewpointA)
  /\ fields (blend 1 Sample.viewpointA Sample.viewpointB)
     = zipWith (fun a b => a + (b - a))
               (fields Sample.viewpointA) (fields Sample.viewpointB).
Proof.
  split; [reflexivity|]. split; [reflexivity|].
  split.
  - destruct (interpolateViewpoint_blend Sample.slideA Sample.slideB
                Sample.viewpointA Sample.viewpointB 0 Sample.world
                eq_refl eq_refl) as (_ & _ & _ & H & _).
    apply H; [reflexivity|].
    repeat (constructor; [split; reflexivity|]). constructor.
  - destruct (interpolateViewpoint_blend Sample.slideA Sample.slideB
                Sample.viewpointA Sample.viewpointB 1 Sample.world
                eq_refl eq_refl) as (_ & _ & _ & _ & H).
    apply H. reflexivity.
Defined.

(** C1, as stated, fails at p = 1: from rotation 0.5 to rotation 0.1 the
    blend sent to the map has rotation 0.09999999999999998, not 0.1. *)
Lemma blend_at_progress_one_misses_next :
  interpolateViewpoint
    {| slideCurrent := Sample.slideA;
       slideNext := Some Sample.slideB;
       progress := 1 |} Sample.world
  = (goTo {| target := Some (VViewpoint (blend 1 Sample.viewpointA Sample.viewpointB));
             animate := true; duration := 1000 |} Sample.world, Normal)
  /\ rotation Sample.viewpointA = 0.5
  /\ rotation Sample.viewpointB = 0.1
  /\ rotation (blend 1 Sample.viewpointA Sample.viewpointB) = 0.09999999999999998
  /\ strict_eq (rotation (blend 1 Sample.viewpointA Sample.viewpointB))
               (rotation Sample.viewpointB) = false.
Proof. repeat split. Qed.

End ViewpointInterpolation.

(* ================================================================= *)
(** * Time-slider interpolation *)

Section TimeSliderInterpolation.
Import ScrollAnimator.

Variables (cur : Slide) (next : option Slide) (p : number) (t : TimeWindow).
Hypothesis Hcur : get cur "timeSlider" = Some (VTimeWindow t).

Let context := {| slideCurrent := cur; slideNext := next; progress := p |}.
Let step := stepMs (timeSliderStep t) (timeSliderUnit t).

(** With a step that is zero or negative the handler returns before it
    reaches the slider: nothing is assigned and [stop] is not called. *)
Lemma interpolateTimeSlider_nonpositive_step w :
  (step <=? 0) = true ->
  interpolateTimeSlider context w = (w, Normal).
Proof.
  intros H. unfold interpolateTimeSlider. cbn [slideCurrent context].
  rewrite Hcur. cbn [timeData]. fold step. rewrite H. reflexivity.
Qed.

(** C2 (amended).  With a positive step and a slider on the page,
    [interpolateTimeSlider] assigns the extent (open start, end a [Date]
    made from [written]) and stops playback, where [written] is
    [min(max(start + snapped, start), end)] and [snapped] is
    [ceil(offset / step) * step], all in double arithmetic, [offset] being
    the interpolated time minus the start.  For a step of [b] whole
    milliseconds and an offset from 0 to 2^53 - b whose quotient by the
    step is not rounded to zero, the snap is a forward ceiling: [snapped]
    is [n * b] for the least [n >= 0] with [offset <= n * b], so it is not
    below the offset and every smaller multiple is.  The time written never
    exceeds the end of the window, nor does the time value that the [Date]
    holds when the end is itself a time value; for a window of finite
    bounds with [start <= end] and a progress in [0,1] the offset is not
    negative and, the step being finite, [written] is a number between the
    start and the end. *)
Theorem interpolateTimeSlider_snap w ts :
  timeSlider w = Some ts ->
  (0 <? step) = true ->
  let start := timeSliderStart t in
  let offset := interpolate p start (timeSliderEnd t) - start in
  let snapped := snappedOffset offset step in
  let written := clampedTime t p in
  interpolateTimeSlider context w
  = (setTimeSlider
       {| timeExtent := Some {| Choreography.start := None;
                                end_ := newDate written |};
          playing := false;
          stopCalls := S (stopCalls ts) |} w, Normal)
  /\ written = Math_min (Math_max (start + snapped) start) (timeSliderEnd t)
  /\ snapped = Math_ceil (offset / step) * step
  /\ (forall b : Z,
        step = of_Z b -> (1 <= b < 2 ^ 53)%Z ->
        (0 <=? offset) = true -> (offset <=? of_Z (2 ^ 53 - b)) = true ->
        is_zero (offset / step) = is_zero offset ->
        exists n : Z,
          (0 <= n)%Z
          /\ strict_eq snapped (of_Z (n * b)) = true
          /\ (offset <=? snapped) = true
          /\ forall j : Z, (0 <= j < n)%Z -> (of_Z (j * b) <? offset) = true)
  /\ (timeSliderEnd t <? written) = false
  /\ (TimeClip (timeSliderEnd t) = timeSliderEnd t ->
      (timeSliderEnd t <? time (newDate written)) = false)
  /\ ((start <=? timeSliderEnd t) = true ->
      is_finite start = true -> is_finite (timeSliderEnd t - start) = true ->
      (0 <=? p) = true -> (p <=? 1) = true ->
      (0 <=? offset) = true)
  /\ ((start <=? timeSliderEnd t) = true ->
      is_finite start = true -> is_finite (timeSliderEnd t - start) = true ->
      (0 <=? p) = true -> (p <=? 1) = true -> is_finite step = true ->
      is_nan written = false
      /\ (start <=? written) = true /\ (written <=? timeSliderEnd t) = true).
Proof.
  intros Hts Hpos start offset snapped written.
  split; [| split; [| split; [| split; [| split; [| split; [| split]]]]]].
  - unfold interpolateTimeSlider. cbn [slideCurrent context].
    rewrite Hcur. cbn [timeData]. fold step.
    rewrite (ltb_not_leb _ _ Hpos), Hts. reflexivity.
  - reflexivity.
  - reflexivity.
  - intros b Hb Rb H0 Hu Hz. subst snapped. rewrite Hb in Hz |- *.
    now apply snappedOffset_least.
  - apply Math_min_not_above.
  - intros He. change (time (newDate written)) with (TimeClip written).
    apply TimeClip_not_above; [exact He | apply Math_min_not_above].
  - intros Hse Fs Fd Hp0 Hp1. now apply offset_not_negative.
  - intros Hse Fs Fd Hp0 Hp1 Fstep.
    now apply clampedTime_in_window.
Qed.

End TimeSliderInterpolation.

Lemma interpolateTimeSlider_snap_witness :
  get Sample.slideA "timeSlider" = Some (VTimeWindow Sample.year2020)
  /\ (0 <? ScrollAnimator.stepMs 1 "days") = true
  /\ ScrollAnimator.stepMs 1 "days" = of_Z 86400000
  /\ ScrollAnimator.interpolate 0.3 1577836800000 1609459200000 - 1577836800000
     = 9486720000
  /\ 9486720000 / ScrollAnimator.stepMs 1 "days" = 109.8
  /\ ScrollAnimator.snappedOffset 9486720000 (ScrollAnimator.stepMs 1 "days")
     = 9504000000
  /\ timeSlider
       (fst (ScrollAnimator.interpolateTimeSlider
               {| ScrollAnimator.slideCurrent := Sample.slideA;
                  ScrollAnimator.slideNext := Some Sample.slideB;
                  ScrollAnimator.progress := 0.3 |} Sample.world))
     = Some {| timeExtent := Some {| start := None;
                                     end_ := {| time := 1587340800000 |} |};
               playing := false;
               stopCalls := 1 |}
  /\ (exists n : Z,
        (0 <= n)%Z
        /\ strict_eq (ScrollAnimator.snappedOffset 9486720000
                        (ScrollAnimator.stepMs 1 "days"))
                     (of_Z (n * 86400000)) = true
        /\ (9486720000 <=? ScrollAnimator.snappedOffset 9486720000
                             (ScrollAnimator.stepMs 1 "days")) = true
        /\ forall j : Z, (0 <= j < n)%Z ->
                         (of_Z (j * 86400000) <? 9486720000) = true)
  /\ (timeSliderEnd Sample.year2020
      <? ScrollAnimator.clampedTime Sample.year2020 0.3) = false
  /\ (timeSliderEnd Sample.year2020
      <? time (newDate (ScrollAnimator.clampedTime Sample.year2020 0.3))) = false
  /\ (timeSliderStart Sample.year2020
      <=? ScrollAnimator.clampedTime Sample.year2020 0.3) = true.
Proof.
  split; [reflexivity|]. split; [reflexivity|]. split; [reflexivity|].
  split; [reflexivity|]. split; [reflexivity|]. split; [reflexivity|].
  destruct (interpolateTimeSlider_snap Sample.slideA (Some Sample.slideB) 0.3
              Sample.year2020 eq_refl Sample.world
              {| timeExtent := None; playing := true; stopCalls := 0 |}
              eq_refl eq_refl) as (E & _ & _ & L & B & D & O & W).
  split; [rewrite E; reflexivity |].
  split; [exact (L 86400000%Z eq_refl ltac:(lia)
                   (O eq_refl eq_refl eq_refl eq_refl eq_refl)
                   eq_refl eq_refl) |].
  split; [exact B |].
  split; [exact (D eq_refl) |].
  apply (W eq_refl eq_refl eq_refl eq_refl eq_refl eq_refl).
Defined.

(** C2, as stated, fails for a step that is no whole number of
    milliseconds: in the window from 0 to 100 ms with steps of 0.1 ms, at
    progress 0.07, the raw offset is 7.000000000000001, its quotient by the
    step rounds to 70, and the snapped offset 7 (the time written) lies
    below the raw offset. *)
Lemma snap_lands_below_raw_offset :
  (timeSliderStart Sample.subMillisecond <=? timeSliderEnd Sample.subMillisecond) = true
  /\ (0 <? ScrollAnimator.stepMs 0.1 "milliseconds") = true
  /\ (0 <=? 0.07) = true /\ (0.07 <=? 1) = true
  /\ ScrollAnimator.interpolate 0.07 0 100 - 0 = 7.000000000000001
  /\ 7.000000000000001 / ScrollAnimator.stepMs 0.1 "milliseconds" = 70
  /\ ScrollAnimator.snappedOffset 7.000000000000001
       (ScrollAnimator.stepMs 0.1 "milliseconds") = 7
  /\ (7 <? 7.000000000000001) = true
  /\ ScrollAnimator.clampedTime Sample.subMillisecond 0.07 = 7.
Proof. repeat split. Qed.

(** What the provisos of C2 rule out.  An offset so small that its
    quotient by the step is rounded to zero is snapped to 0, below the
    offset: here the smallest double, in steps of one second. *)
Example snap_of_underflowing_quotient :
  ScrollAnimator.interpolate 0x1p-1074 0 1 - 0 = 0x1p-1074
  /\ 0x1p-1074 / ScrollAnimator.stepMs 1 "seconds" = 0
  /\ ScrollAnimator.snappedOffset 0x1p-1074 (ScrollAnimator.stepMs 1 "seconds") = 0
  /\ (0 <? 0x1p-1074) = true.
Proof. repeat split. Qed.

(** Past 2^53 not every whole number is a double: from the first to the
    last date in steps of 7 ms, at progress 1, the snapped offset is no
    multiple of the step (the multiple that was looked for is
    17280000000000003). *)
Example snap_past_two_pow_53 :
  ScrollAnimator.interpolate 1 (-8640000000000000) 8640000000000000
    - (-8640000000000000) = 17280000000000000
  /\ ScrollAnimator.snappedOffset 17280000000000000
       (ScrollAnimator.stepMs 7 "milliseconds") = 17280000000000004
  /\ Prim2SF 17280000000000004 = S754_finite false 8640000000000002 1
  /\ ((8640000000000002 * 2) mod 7 = 1)%Z.
Proof. repeat split. Qed.

(** C3: the code departs from the claim.  With a unit the table does not
    know, a step of zero or a negative step, the step in milliseconds is
    not positive; the handler is called, and it returns without assigning
    the slider's extent and without stopping playback. *)
Theorem nonpositive_step_leaves_slider_untouched w :
  ScrollAnimator.stepMs 1 "fortnights" = 0
  /\ ScrollAnimator.stepMs 0 "days" = 0
  /\ ScrollAnimator.stepMs (-1) "days" = -86400000
  /\ ScrollAnimator.scrollAnimation
       [("timeSlider", VTimeWindow Sample.negativeStep)] None 0.5 w
     = noteCall "timeSlider" (Registered "interpolateTimeSlider") w
  /\ ScrollAnimator.scrollAnimation
       [("timeSlider", VTimeWindow Sample.fortnightly)] None 0.5 w
     = noteCall "timeSlider" (Registered "interpolateTimeSlider") w
  /\ ScrollAnimator.scrollAnimation
       [("timeSlider", VTimeWindow Sample.zeroStep)] None 0.5 w
     = noteCall "timeSlider" (Registered "interpolateTimeSlider") w
  /\ timeSlider (noteCall "timeSlider" (Registered "interpolateTimeSlider") w)
     = timeSlider w.
Proof. repeat split. Qed.

(* ================================================================= *)
(** * Panel progress *)

Section PanelProgress.
Import ScrollTracker.

Lemma getPanelScrollBounds_valid dock panels currentSlide :
  (0 <= currentSlide < Z.of_nat (List.length panels))%Z ->
  exists panelStartScroll panelEndScroll,
    getPanelScrollBounds dock panels currentSlide
    = Some (panelStartScroll, panelEndScroll).
Proof.
  intros [H0 H1]. unfold getPanelScrollBounds.
  destruct (currentSlide <? 0)%Z eqn:E; [ apply Z.ltb_lt in E; lia |].
  destruct (nth_error panels (Z.to_nat currentSlide)) eqn:N.
  - eauto.
  - apply nth_error_None in N. lia.
Qed.

(** For a valid index the progress is the clamped quotient.  It lies in
    the unit interval whenever the quotient is a number; a NaN quotient
    passes through the clamp. *)
Lemma getPanelProgress_clamped dock panels currentSlide scrollY :
  (0 <= currentSlide < Z.of_nat (List.length panels))%Z ->
  exists panelStartScroll panelEndScroll progress,
    getPanelScrollBounds dock panels currentSlide
    = Some (panelStartScroll, panelEndScroll)
    /\ getPanelProgress dock panels currentSlide scrollY = Some progress
    /\ let raw := (scrollY - panelStartScroll)
                  / (panelEndScroll - panelStartScroll) in
       progress = Math_max 0 (Math_min 1 raw)
       /\ is_nan progress = is_nan raw
       /\ (is_nan raw = false ->
           (0 <=? progress) = true /\ (progress <=? 1) = true).
Proof.
  intros H.
  destruct (getPanelScrollBounds_valid dock panels currentSlide H) as (a & b & E).
  exists a, b. eexists. split; [exact E|].
  unfold getPanelProgress. rewrite E. split; [reflexivity|].
  cbv zeta. split; [reflexivity|]. split.
  - apply clamp_unit_nan.
  - apply clamp_unit.
Qed.

(** With finite geometry the only way out of the unit interval is the
    quotient 0/0: a panel whose two bounds coincide, scrolled to exactly
    that bound. *)
Lemma getPanelProgress_unit_interval dock panels currentSlide scrollY
    panelStartScroll panelEndScroll :
  getPanelScrollBounds dock panels currentSlide
  = Some (panelStartScroll, panelEndScroll) ->
  is_finite (scrollY - panelStartScroll) = true ->
  is_finite (panelEndScroll - panelStartScroll) = true ->
  is_zero (scrollY - panelStartScroll)
  && is_zero (panelEndScroll - panelStartScroll) = false ->
  exists progress,
    getPanelProgress dock panels currentSlide scrollY = Some progress
    /\ (0 <=? progress) = true /\ (progress <=? 1) = true.
Proof.
  intros E Fn Fd Z. unfold getPanelProgress. rewrite E.
  eexists. split; [reflexivity|]. apply clamp_unit.
  rewrite (div_finite_is_nan _ _ Fn Fd). exact Z.
Qed.

(** C4: the code departs from the claim.  A first panel as tall as its
    top margin has equal start and end bounds; with the page scrolled to
    that bound the quotient is 0/0 and the progress returned is NaN, which
    is not in [0,1]. *)
Theorem getPanelProgress_collapsed_panel :
  getPanelHeight Sample.collapsedPanel = 0
  /\ getPanelScrollBounds (Some 100) [Sample.collapsedPanel] 0 = Some (100, 100)
  /\ getPanelProgress (Some 100) [Sample.collapsedPanel] 0 100 = Some nan
  /\ (0 <=? nan) = false /\ (nan <=? 1) = false
  /\ scrollListener 100 [Sample.collapsedPanel] true
       {| isDocked := true; dockStartScroll := Some 100; lastScrollY := 120;
          scrollDirection := down; currentSlide := 0 |}
     = ({| isDocked := true; dockStartScroll := Some 100; lastScrollY := 100;
           scrollDirection := up; currentSlide := 0 |},
        [Progress 0 nan]).
Proof. repeat split. Qed.

End PanelProgress.

(* ================================================================= *)
(** * The two dispatchers *)

Section Handlers.

Ltac quiet_tac :=
  intros c w; simpl;
  repeat match goal with
         | |- context [match ?x with _ => _ end] => destruct x; simpl
         end;
  (split; [ reflexivity | ]);
  first [ now exists [] ; rewrite app_nil_r
        | eexists; reflexivity
        | eexists; rewrite <- app_assoc; reflexivity
        | exists []; now rewrite app_nil_r ].

Lemma scroll_handlers_quiet key h :
  ScrollAnimator.choreographyHandlers key = Some h -> quiet h.
Proof.
  unfold ScrollAnimator.choreographyHandlers.
  repeat match goal with
         | |- context [String.eqb ?a ?b] => destruct (String.eqb a b)
         end; intros E; inversion E; subst; clear E.
  - unfold quiet, ScrollAnimator.interpolateViewpoint. quiet_tac.
  - unfold quiet, ScrollAnimator.interpolateTimeSlider. quiet_tac.
Qed.

Lemma slide_handlers_quiet key h :
  SlideAnimator.choreographyHandlers key = Some h -> quiet h.
Proof.
  unfold SlideAnimator.choreographyHandlers.
  repeat match goal with
         | |- context [String.eqb ?a ?b] => destruct (String.eqb a b)
         end; intros E; inversion E; subst; clear E.
  - unfold quiet, SlideAnimator.toggleViewpoint. quiet_tac.
  - unfold quiet, SlideAnimator.toggleTimeSlider. quiet_tac.
  - unfold quiet, SlideAnimator.toggleLayerVisibility. quiet_tac.
  - unfold quiet, SlideAnimator.toggleTrackRenderer. quiet_tac.
Qed.

End Handlers.

Section Folding.
Variable step : World -> string -> World.
Variable calls : string -> list (string * Callee).
Hypothesis step_invoked : forall w k, invoked (step w k) = invoked w ++ calls k.
Hypothesis step_errors : forall w k, exists l, errors (step w k) = errors w ++ l.

Lemma fold_invoked keys : forall w,
  invoked (fold_left step keys w) = invoked w ++ flat_map calls keys.
Proof.
  induction keys as [|k keys IH]; intros w; simpl.
  - now rewrite app_nil_r.
  - rewrite IH, step_invoked, <- app_assoc. reflexivity.
Qed.

Lemma fold_errors keys : forall w,
  exists l, errors (fold_left step keys w) = errors w ++ l.
Proof.
  induction keys as [|k keys IH]; intros w; simpl.
  - exists []. now rewrite app_nil_r.
  - destruct (IH (step w k)) as [l1 E1]. destruct (step_errors w k) as [l2 E2].
    exists (l2 ++ l1). rewrite E1, E2, app_assoc. reflexivity.
Qed.
End Folding.

Lemma fold_left_filter {A B : Type} (f : A -> B -> A) (e : B -> bool) l : forall a,
  fold_left f (filter e l) a = fold_left (fun a b => if e b then f a b else a) l a.
Proof.
  induction l as [|b l IH]; intros a; simpl; [reflexivity|].
  destruct (e b); simpl; apply IH.
Qed.

Lemma lookup_Own {A : Type} (table : string -> option A) key a :
  lookup table key = Own a <-> table key = Some a.
Proof.
  unfold lookup. destruct (table key).
  - split; congruence.
  - destruct (mem key objectPrototypeFunctions); [split; discriminate|].
    destruct (String.eqb key "__proto__"); split; discriminate.
Qed.

Lemma tryCall_trace {Context : Type} (table : string -> option (Handler Context))
    receiver key context w :
  (forall h, table key = Some h -> quiet h) ->
  invoked (tryCall receiver (lookup table key) key context w)
  = invoked w ++ callsOf table key
  /\ exists l, errors (tryCall receiver (lookup table key) key context w)
               = errors w ++ l.
Proof.
  intros Q. unfold tryCall, callsOf.
  destruct (lookup table key) as [|h|f|] eqn:E.
  - simpl. rewrite app_nil_r. split; [reflexivity | eexists; reflexivity].
  - apply lookup_Own in E.
    destruct (Q h E context (noteCall key (Registered (name h)) w)) as [I [l El]].
    destruct (body h context _) as [w' []]; simpl in *.
    + split; [exact I | exists l; exact El].
    + split; [exact I |]. exists (l ++ [ErrorProcessing key]).
      rewrite El, app_assoc. reflexivity.
  - destruct (callInherited receiver f); simpl.
    + split; [reflexivity | exists []; now rewrite app_nil_r].
    + split; [reflexivity | eexists; reflexivity].
  - simpl. rewrite app_nil_r. split; [reflexivity | eexists; reflexivity].
Qed.

Section ScrollDispatch.
Import ScrollAnimator.

Lemma scrollStep_trace context w key :
  invoked (scrollStep context w key) = invoked w ++ scrollCalls key
  /\ exists l, errors (scrollStep context w key) = errors w ++ l.
Proof.
  unfold scrollStep, scrollCalls, dispatchKey.
  destruct (isFunction _).
  - apply tryCall_trace. intros h. apply scroll_handlers_quiet.
  - rewrite app_nil_r. split; [reflexivity | exists []; now rewrite app_nil_r].
Qed.

Lemma dispatchKey_fold_trace context keys w :
  invoked (fold_left (dispatchKey context)
             (filter (fun key => isFunction (lookup choreographyHandlers key)) keys) w)
  = invoked w ++ flat_map scrollCalls keys
  /\ exists l, errors (fold_left (dispatchKey context)
             (filter (fun key => isFunction (lookup choreographyHandlers key)) keys) w)
               = errors w ++ l.
Proof.
  rewrite fold_left_filter. fold (scrollStep context). split.
  - apply fold_invoked. intros. apply scrollStep_trace.
  - apply fold_errors. intros. apply scrollStep_trace.
Qed.

Lemma scrollAnimation_trace cur next p w :
  invoked (scrollAnimation cur next p w)
  = invoked w ++ flat_map scrollCalls (map fst cur).
Proof. unfold scrollAnimation. apply dispatchKey_fold_trace. Qed.

End ScrollDispatch.

Section SlideDispatch.
Import SlideAnimator.

Lemma dispatchEntry_trace context w key :
  invoked (dispatchEntry context w key)
  = invoked w ++ slideCalls (embedded context) key
  /\ exists l, errors (dispatchEntry context w key) = errors w ++ l.
Proof.
  unfold dispatchEntry, slideCalls.
  destruct (missing _);
    [ rewrite app_nil_r; split; [reflexivity | exists []; now rewrite app_nil_r] |].
  destruct (embedded context && mem key NON_EMBED_EXCLUDE_KEYS);
    [ rewrite app_nil_r; split; [reflexivity | exists []; now rewrite app_nil_r] |].
  apply tryCall_trace. intros h. apply slide_handlers_quiet.
Qed.

Lemma dispatchEntry_fold_trace context keys w :
  invoked (fold_left (dispatchEntry context) keys w)
  = invoked w ++ flat_map (slideCalls (embedded context)) keys
  /\ exists l, errors (fold_left (dispatchEntry context) keys w) = errors w ++ l.
Proof.
  split.
  - apply fold_invoked. intros. apply dispatchEntry_trace.
  - apply fold_errors. intros. apply dispatchEntry_trace.
Qed.

Lemma slideAnimation_trace sd e w :
  invoked (slideAnimation sd e w)
  = invoked w ++ flat_map (slideCalls e) (map fst sd).
Proof. unfold slideAnimation. apply (dispatchEntry_fold_trace {| slideData := sd; embedded := e |}). Qed.

End SlideDispatch.

(* ================================================================= *)
(** * Keys the tables do not register *)

Section UnknownKeys.

Lemma callsOf_key {Context : Type} (table : string -> option (Handler Context)) key c :
  In c (callsOf table key) -> fst c = key.
Proof.
  unfold callsOf.
  destruct (lookup table key); simpl; intros []; subst; try reflexivity;
    contradiction.
Qed.

Lemma slideCalls_key e key c : In c (slideCalls e key) -> fst c = key.
Proof.
  unfold slideCalls. destruct (SlideAnimator.missing _); [intros []|].
  destruct (e && _); [intros []|]. apply callsOf_key.
Qed.

Lemma scrollCalls_key key c : In c (scrollCalls key) -> fst c = key.
Proof.
  unfold scrollCalls. destruct (ScrollAnimator.isFunction _); [|intros []].
  apply callsOf_key.
Qed.

Lemma scroll_table_within_slide_table key :
  SlideAnimator.choreographyHandlers key = None ->
  ScrollAnimator.choreographyHandlers key = None.
Proof.
  unfold SlideAnimator.choreographyHandlers, ScrollAnimator.choreographyHandlers.
  destruct (String.eqb key "viewpoint"); [discriminate|].
  destruct (String.eqb key "timeSlider"); [discriminate|]. reflexivity.
Qed.

(** A key that is neither registered nor the name of a member of
    [Object.prototype] is skipped by both dispatchers: no call, no log,
    no change. *)
Lemma unknown_key_skipped key :
  SlideAnimator.choreographyHandlers key = None ->
  mem key objectPrototypeFunctions = false ->
  String.eqb key "__proto__" = false ->
  (forall context w, SlideAnimator.dispatchEntry context w key = w)
  /\ (forall context w, scrollStep context w key = w)
  /\ scrollCalls key = [] /\ (forall e, slideCalls e key = []).
Proof.
  intros T M P. pose proof (scroll_table_within_slide_table key T) as T'.
  unfold SlideAnimator.dispatchEntry, scrollStep, scrollCalls, slideCalls, lookup.
  rewrite T, T', M, P. simpl. auto.
Qed.

(** C5: the code departs from the claim.  ["toString"] is in neither
    table, yet both dispatchers find the method every object inherits
    under that name and call it for a slide that has such a key; for an
    own key ["__proto__"] the slide dispatcher tries to call the prototype
    object, and the TypeError is caught and logged. *)
Theorem inherited_key_is_dispatched w :
  SlideAnimator.choreographyHandlers "toString" = None
  /\ ScrollAnimator.choreographyHandlers "toString" = None
  /\ SlideAnimator.slideAnimation [("toString", VNum 1)] false w
     = noteCall "toString" (Builtin "toString") w
  /\ ScrollAnimator.scrollAnimation [("toString", VNum 1)] None 0.5 w
     = noteCall "toString" (Builtin "toString") w
  /\ SlideAnimator.slideAnimation [("__proto__", VNum 1)] false w
     = consoleError (ErrorProcessing "__proto__") w.
Proof. repeat split. Qed.

End UnknownKeys.

(* ================================================================= *)
(** * The keys before and after a given key *)

Section KeySplitting.

Lemma filter_split {A : Type} (e : A -> bool) pre k post :
  filter e (pre ++ k :: post)
  = filter e pre ++ (if e k then [k] else []) ++ filter e post.
Proof. rewrite filter_app. simpl. destruct (e k); reflexivity. Qed.

End KeySplitting.

(* ================================================================= *)
(** * The calls of an embedded map *)

Section EmbeddedCalls.
Import SlideAnimator.

Lemma in_flat_map_calls (calls : string -> list (string * Callee)) keys k c :
  (forall key x, In x (calls key) -> fst x = key) ->
  In (k, c) (flat_map calls keys) -> In k keys /\ In (k, c) (calls k).
Proof.
  intros K H. apply in_flat_map in H. destruct H as (key & Hin & Hc).
  pose proof (K _ _ Hc) as E. simpl in E. subst key. auto.
Qed.

Lemma dispatchEntry_embedded_goTo sd w key :
  goToCalls (dispatchEntry {| slideData := sd; embedded := true |} w key)
  = goToCalls w.
Proof.
  unfold dispatchEntry, lookup, choreographyHandlers. cbn [embedded].
  destruct (String.eqb key "viewpoint") eqn:E1.
  { apply String.eqb_eq in E1. subst. reflexivity. }
  destruct (String.eqb key "timeSlider") eqn:E2.
  { apply String.eqb_eq in E2. subst. reflexivity. }
  assert (M : mem key NON_EMBED_EXCLUDE_KEYS = false).
  { unfold mem, NON_EMBED_EXCLUDE_KEYS. simpl. now rewrite E1, E2. }
  rewrite M.
  destruct (String.eqb key "layerVisibility").
  { cbn [missing andb tryCall body name]. unfold toggleLayerVisibility.
    cbn [slideData noteCall layers].
    destruct (get sd "layerVisibility") as [[]|]; reflexivity. }
  destruct (String.eqb key "trackRenderer").
  { cbn [missing andb tryCall body name]. unfold toggleTrackRenderer.
    cbn [slideData noteCall layers].
    destruct (get sd "trackRenderer") as [[]|]; try reflexivity;
      destruct (get sd "timeSlider") as [[]|]; try reflexivity;
      destruct (find _ _); try reflexivity;
      cbn [sdk noteCall];
      destruct (removeThrows (sdk w)), (cloneThrows (sdk w)),
        (addThrows (sdk w)); reflexivity. }
  destruct (mem key objectPrototypeFunctions).
  { cbn [missing andb tryCall]. destruct (callInherited false key); reflexivity. }
  destruct (String.eqb key "__proto__"); reflexivity.
Qed.

Lemma slideAnimation_embedded_goTo sd w :
  goToCalls (slideAnimation sd true w) = goToCalls w.
Proof.
  unfold slideAnimation. generalize (map fst sd) as keys. intros keys.
  revert w. induction keys as [|k keys IH]; intros w; simpl; [reflexivity|].
  rewrite IH. apply dispatchEntry_embedded_goTo.
Qed.

Lemma registered_call key h :
  choreographyHandlers key = Some h ->
  slideCalls false key = [(key, Registered (name h))].
Proof.
  intros T. unfold slideCalls, callsOf.
  rewrite (proj2 (lookup_Own _ _ _) T). reflexivity.
Qed.

End EmbeddedCalls.

(* ================================================================= *)
(** * The docking observer *)

Section Docking.
Import ScrollTracker.

Lemma step_dockStartScroll st ev :
  dockStartScroll (fst (step st ev))
  = match captured st ev with
    | Some scrollY => Some scrollY
    | None => dockStartScroll st
    end.
Proof.
  destruct ev as [d y | y panels iframe | | n]; simpl.
  - unfold dockingObserver.
    destruct d, (isDocked st) eqn:D; simpl; rewrite ?D; simpl;
      try reflexivity.
    destruct (scrollDirection st); reflexivity.
  - unfold scrollListener. cbn [isDocked dockStartScroll currentSlide].
    destruct (isDocked st); [|reflexivity].
    destruct (dockStartScroll st); [|reflexivity].
    destruct (_ <? _)%Z; [|reflexivity].
    destruct (getPanelProgress _ _ _ _); reflexivity.
  - reflexivity.
  - reflexivity.
Qed.

Lemma run_snoc st evs ev : run st (evs ++ [ev]) = fst (step (run st evs) ev).
Proof. unfold run. rewrite fold_left_app. reflexivity. Qed.

(** C7.  After any sequence of callbacks, one more callback assigns the
    dock-start offset exactly when it is a docking observation that finds
    the panel docked while the tracker holds it undocked and the tracked
    direction is "down"; the offset then becomes the scroll position read
    by that callback.  Every other callback leaves the offset as it was;
    in particular a docking transition while the direction is "up" sets
    [isDocked] and keeps the stored offset. *)
Theorem dockStartScroll_capture_policy st0 evs ev :
  let st := run st0 evs in
  let st' := fst (step st ev) in
  (dockStartScroll st' = match captured st ev with
                         | Some scrollY => Some scrollY
                         | None => dockStartScroll st
                         end)
  /\ (forall scrollY,
        captured st ev = Some scrollY <->
        ev = DockingMutation true scrollY
        /\ isDocked st = false /\ scrollDirection st = down)
  /\ (forall scrollY,
        ev = DockingMutation true scrollY ->
        isDocked st = false -> scrollDirection st = up ->
        isDocked st' = true /\ dockStartScroll st' = dockStartScroll st).
Proof.
  intros st st'. split; [ apply step_dockStartScroll | split ].
  - intros y. unfold captured. split.
    + destruct ev as [[] y' | | |]; try discriminate.
      destruct (isDocked st); [discriminate|].
      destruct (scrollDirection st); [|discriminate].
      intros E. inversion E. auto.
    + intros (-> & -> & ->). reflexivity.
  - intros y -> D U. subst st'. simpl. unfold dockingObserver.
    rewrite D, U. simpl. auto.
Qed.

Lemma dockStartScroll_capture_policy_witness :
  (* scrolled down to 50, then the panel docks *)
  dockStartScroll
    (fst (step (run (initial 0) [Scroll 50 [] false]) (DockingMutation true 50)))
  = Some 50
  (* undocked, scrolled on to 900 and back up to 400, then it docks again *)
  /\ isDocked
       (run (initial 0)
            [Scroll 50 [] false; DockingMutation true 50;
             DockingMutation false 800; Scroll 900 [] false; Scroll 400 [] false])
     = false
  /\ scrollDirection
       (run (initial 0)
            [Scroll 50 [] false; DockingMutation true 50;
             DockingMutation false 800; Scroll 900 [] false; Scroll 400 [] false])
     = up
  /\ dockStartScroll
       (fst (step (run (initial 0)
                     [Scroll 50 [] false; DockingMutation true 50;
                      DockingMutation false 800; Scroll 900 [] false;
                      Scroll 400 [] false])
                  (DockingMutation true 400)))
     = Some 50.
Proof.
  split; [| split; [| split]].
  - pose proof (dockStartScroll_capture_policy (initial 0)
                  [Scroll 50 [] false] (DockingMutation true 50)) as H.
    cbv zeta in H. destruct H as (H & _ & _). rewrite H. reflexivity.
  - reflexivity.
  - reflexivity.
  - pose proof (dockStartScroll_capture_policy (initial 0)
                  [Scroll 50 [] false; DockingMutation true 50;
                   DockingMutation false 800; Scroll 900 [] false;
                   Scroll 400 [] false]
                  (DockingMutation true 400)) as H.
    cbv zeta in H. destruct H as (_ & _ & H).
    destruct (H 400 eq_refl eq_refl eq_refl) as [_ K].
    rewrite K. reflexivity.
Defined.

End Docking.

(* ================================================================= *)
(** * A slide without a next viewpoint *)

Section NoNextViewpoint.
Import ScrollAnimator.

(** C9.  When there is no next slide, or the next slide has no viewpoint
    field, [interpolateViewpoint] returns normally and leaves the map view,
    the slider, the console and everything else as they were: no [goTo]
    call is made. *)
Theorem interpolateViewpoint_without_next cur next p w :
  next = None \/ (exists s, next = Some s /\ get s "viewpoint" = None) ->
  interpolateViewpoint
    {| slideCurrent := cur; slideNext := next; progress := p |} w
  = (w, Normal).
Proof.
  unfold interpolateViewpoint. cbn [slideCurrent slideNext progress].
  intros [-> | (s & -> & ->)]; reflexivity.
Qed.

Lemma interpolateViewpoint_without_next_witness :
  get [("timeSlider", VTimeWindow Sample.year2020)] "viewpoint" = None
  /\ interpolateViewpoint
       {| slideCurrent := Sample.slideA; slideNext := None; progress := 0.5 |}
       Sample.world
     = (Sample.world, Normal)
  /\ interpolateViewpoint
       {| slideCurrent := Sample.slideA;
          slideNext := Some [("timeSlider", VTimeWindow Sample.year2020)];
          progress := 0.5 |}
       Sample.world
     = (Sample.world, Normal).
Proof.
  split; [reflexivity|]. split.
  - apply interpolateViewpoint_without_next. left. reflexivity.
  - apply interpolateViewpoint_without_next. right.
    exists [("timeSlider", VTimeWindow Sample.year2020)].
    split; reflexivity.
Defined.

End NoNextViewpoint.

(* ================================================================= *)
(** * Layer visibility *)

Section LayerVisibilityOrder.
Import SlideAnimator.

Lemma setLayerVisibility_nth names v ls i l :
  nth_error ls i = Some l ->
  exists l', nth_error (setLayerVisibility names v ls) i = Some l'
             /\ title l' = title l
             /\ (listed names (title l) -> visible l' = v)
             /\ (~ listed names (title l) -> visible l' = visible l).
Proof.
  intros H. unfold setLayerVisibility.
  destruct names as [names|]; [| exists l; simpl; tauto ].
  destruct (0 <? List.length names)%nat eqn:E.
  - rewrite nth_error_map, H. simpl.
    destruct (mem (title l) names) eqn:M.
    + eexists. split; [reflexivity|]. simpl. split; [reflexivity|].
      split; [reflexivity|]. intros N. exfalso. apply N.
      unfold mem in M. apply existsb_exists in M. destruct M as (x & Hx & Ex).
      apply String.eqb_eq in Ex. now subst.
    + exists l. split; [reflexivity|]. split; [reflexivity|].
      split; [| reflexivity]. intros Hin. exfalso.
      assert (mem (title l) names = true).
      { unfold mem. apply existsb_exists. exists (title l). split; [exact Hin|].
        apply String.eqb_refl. }
      congruence.
  - exists l. split; [exact H|]. split; [reflexivity|].
    split; [| reflexivity]. simpl. intros Hin.
    destruct names; [contradiction | discriminate].
Qed.

(** C10.  [toggleLayerVisibility] applies the [layersOn] pass and then the
    [layersOff] pass to the map's layers, keeping their order and titles: a
    layer whose title is in both lists ends with [visible = false], and a
    layer whose title is in neither keeps its visibility. *)
Theorem toggleLayerVisibility_on_then_off sd e w lv :
  get sd "layerVisibility" = Some (VLayerVisibility lv) ->
  let result := toggleLayerVisibility {| slideData := sd; embedded := e |} w in
  snd result = Normal
  /\ layers (fst result)
     = setLayerVisibility (layersOff lv) false
         (setLayerVisibility (layersOn lv) true (layers w))
  /\ forall i l,
      nth_error (layers w) i = Some l ->
      exists l',
        nth_error (layers (fst result)) i = Some l'
        /\ title l' = title l
        /\ (listed (layersOn lv) (title l) -> listed (layersOff lv) (title l) ->
            visible l' = false)
        /\ (~ listed (layersOn lv) (title l) -> ~ listed (layersOff lv) (title l) ->
            visible l' = visible l).
Proof.
  intros G result. subst result. unfold toggleLayerVisibility.
  cbn [slideData]. rewrite G. cbn [fst snd setLayers layers].
  split; [reflexivity|]. split; [reflexivity|].
  intros i l H.
  destruct (setLayerVisibility_nth (layersOn lv) true _ _ _ H)
    as (l1 & H1 & T1 & _ & K1).
  destruct (setLayerVisibility_nth (layersOff lv) false _ _ _ H1)
    as (l2 & H2 & T2 & S2 & K2).
  exists l2. rewrite T1 in *. split; [exact H2|]. split; [congruence|]. split.
  - intros _ Hoff. apply S2. exact Hoff.
  - intros Non Noff. rewrite (K2 Noff). apply K1. exact Non.
Qed.

Lemma toggleLayerVisibility_on_then_off_witness :
  get Sample.slideA "layerVisibility" = Some (VLayerVisibility Sample.visibility)
  /\ layers Sample.world
     = [ {| title := "Tracks"; visible := false |};
         {| title := "Basemap"; visible := true |};
         {| title := "Labels"; visible := true |} ]
  /\ layers (fst (toggleLayerVisibility
                    {| slideData := Sample.slideA; embedded := false |}
                    Sample.world))
     = [ {| title := "Tracks"; visible := true |};
         {| title := "Basemap"; visible := true |};
         {| title := "Labels"; visible := false |} ].
Proof.
  split; [reflexivity|]. split; [reflexivity|].
  destruct (toggleLayerVisibility_on_then_off Sample.slideA false Sample.world
              Sample.visibility eq_refl) as (_ & E & _).
  rewrite E. reflexivity.
Defined.

End LayerVisibilityOrder.
(* ================================================================= *)
(** * Panel bounds and the scroll listener *)

Section PanelBounds.
Import ScrollTracker.

Lemma firstn_succ_nth {A : Type} (l : list A) : forall n x,
  nth_error l n = Some x -> firstn (S n) l = firstn n l ++ [x].
Proof.
  induction l as [|a l IH]; intros [|n] x H; simpl in *; try discriminate.
  - inversion H. reflexivity.
  - f_equal. apply IH. exact H.
Qed.

(** X1.  The panels tile the scroll range: the first panel starts at the
    dock-start offset, and every further panel starts exactly where the
    panel before it ends. *)
Theorem getPanelScrollBounds_tile dock panels k :
  (0 <= k)%Z -> (k + 1 < Z.of_nat (List.length panels))%Z ->
  exists a b c,
    getPanelScrollBounds dock panels k = Some (a, b)
    /\ getPanelScrollBounds dock panels (k + 1) = Some (b, c)
    /\ (k = 0%Z -> a = toNumber dock).
Proof.
  intros H0 H1. unfold getPanelScrollBounds.
  destruct (k <? 0)%Z eqn:E; [ apply Z.ltb_lt in E; lia |].
  destruct (k + 1 <? 0)%Z eqn:E'; [ apply Z.ltb_lt in E'; lia |].
  replace (Z.to_nat (k + 1)) with (S (Z.to_nat k)) by lia.
  destruct (nth_error panels (Z.to_nat k)) as [p|] eqn:N;
    [| apply nth_error_None in N; lia ].
  destruct (nth_error panels (S (Z.to_nat k))) as [q|] eqn:N';
    [| apply nth_error_None in N'; lia ].
  do 3 eexists. split; [reflexivity|]. split.
  - rewrite (firstn_succ_nth panels _ p N), fold_left_app. reflexivity.
  - intros ->. reflexivity.
Qed.

Lemma getPanelScrollBounds_tile_witness :
  exists a b c,
    getPanelScrollBounds (Some 1000) Story.panels 1 = Some (a, b)
    /\ getPanelScrollBounds (Some 1000) Story.panels (1 + 1) = Some (b, c)
    /\ ((1 = 0)%Z -> a = ScrollTracker.toNumber (Some 1000)).
Proof.
  apply (getPanelScrollBounds_tile (Some 1000) Story.panels 1);
    [ lia | simpl; lia ].
Defined.

Lemma getPanelProgress_None dock panels currentSlide scrollY :
  getPanelProgress dock panels currentSlide scrollY = None
  <-> ~ (0 <= currentSlide < Z.of_nat (List.length panels))%Z.
Proof.
  unfold getPanelProgress, getPanelScrollBounds.
  destruct (currentSlide <? 0)%Z eqn:E.
  - apply Z.ltb_lt in E. split; [lia | reflexivity].
  - apply Z.ltb_ge in E.
    destruct (nth_error panels (Z.to_nat currentSlide)) eqn:N.
    + assert (Z.to_nat currentSlide < List.length panels)%nat
        by (apply nth_error_Some; congruence).
      split; [discriminate | lia].
    + apply nth_error_None in N. split; [lia | reflexivity].
Qed.


Lemma sub_diag_finite x : is_finite x = true -> x - x = 0.
Proof.
  intros H. apply is_finite_spec in H. apply Prim2SF_inj.
  rewrite sub_spec. change (Prim2SF 0) with (S754_zero false).
  destruct (Prim2SF x) as [s|s| |s m e]; simpl in H; try contradiction.
  - destruct s; reflexivity.
  - unfold SF64sub, SFsub. cbv zeta. rewrite Z.sub_diag. reflexivity.
Qed.

Lemma zero_cases x s : Prim2SF x = S754_zero s -> x = 0 \/ x = neg_zero.
Proof.
  intros H. destruct s; [right | left]; apply Prim2SF_inj; rewrite H; reflexivity.
Qed.

Lemma zero_div d :
  is_nan d = false -> is_zero d = false -> 0 / d = 0 \/ 0 / d = neg_zero.
Proof.
  intros N Z. apply is_nan_false in N. rewrite is_zero_spec in Z.
  assert (exists s, Prim2SF (0 / d) = S754_zero s) as [s E].
  { rewrite div_spec. change (Prim2SF 0) with (S754_zero false).
    destruct (Prim2SF d) as [s|s| |s m e]; try congruence; try discriminate;
      unfold SF64div, SFdiv; eauto. }
  exact (zero_cases _ _ E).
Qed.

(** X3.  With the page scrolled to the start of the current panel the
    progress is exactly 0, for every panel whose bounds differ (the collapsed
    panel aside, whose progress there is NaN). *)
Theorem getPanelProgress_at_panel_start dock panels currentSlide
    panelStartScroll panelEndScroll :
  getPanelScrollBounds dock panels currentSlide
  = Some (panelStartScroll, panelEndScroll) ->
  is_finite panelStartScroll = true ->
  is_nan (panelEndScroll - panelStartScroll) = false ->
  is_zero (panelEndScroll - panelStartScroll) = false ->
  getPanelProgress dock panels currentSlide panelStartScroll = Some 0.
Proof.
  intros E F N Z. unfold getPanelProgress. rewrite E.
  rewrite (sub_diag_finite _ F).
  destruct (zero_div _ N Z) as [-> | ->]; reflexivity.
Qed.

Lemma getPanelProgress_at_panel_start_witness :
  getPanelProgress (Some 1000) Story.panels 1 1400 = Some 0
  /\ getPanelProgress (Some 1000) Story.panels 1 1716 = Some 0.5.
Proof.
  split; [| reflexivity].
  apply (getPanelProgress_at_panel_start (Some 1000) Story.panels 1 1400 2032);
    reflexivity.
Defined.

Lemma scrollListener_messages currentScroll panels iframe st :
  snd (scrollListener currentScroll panels iframe st) = []
  \/ exists dock progress,
       isDocked st = true /\ dockStartScroll st = Some dock /\ iframe = true
       /\ (0 <= currentSlide st < Z.of_nat (List.length panels))%Z
       /\ getPanelProgress (Some dock) panels (currentSlide st) currentScroll
          = Some progress
       /\ snd (scrollListener currentScroll panels iframe st)
          = [Progress (currentSlide st) progress].
Proof.
  unfold scrollListener. cbn [isDocked dockStartScroll currentSlide].
  destruct (isDocked st) eqn:D; [| left; reflexivity].
  destruct (dockStartScroll st) as [dock|] eqn:K; [| left; reflexivity].
  destruct (currentSlide st <? Z.of_nat (List.length panels))%Z eqn:L;
    [| left; reflexivity].
  destruct (getPanelProgress (Some dock) panels (currentSlide st) currentScroll)
    as [progress|] eqn:P; [| left; reflexivity].
  destruct iframe; [| left; reflexivity].
  right. exists dock, progress. repeat split; auto.
  - destruct (Z_lt_dec (currentSlide st) 0) as [Neg|]; [| lia].
    pose proof (getPanelProgress_None (Some dock) panels
                  (currentSlide st) currentScroll) as V.
    rewrite P in V. destruct V as [_ V].
    assert (X : Some progress = None) by (apply V; lia). discriminate X.
  - apply Z.ltb_lt in L. exact L.
Qed.

Lemma scrollListener_state currentScroll panels iframe st :
  fst (scrollListener currentScroll panels iframe st)
  = {| isDocked := isDocked st;
       dockStartScroll := dockStartScroll st;
       lastScrollY := currentScroll;
       scrollDirection :=
         if lastScrollY st <? currentScroll then down
         else if currentScroll <? lastScrollY st then up
         else scrollDirection st;
       currentSlide := currentSlide st |}.
Proof.
  unfold scrollListener. cbn [isDocked dockStartScroll currentSlide].
  destruct (isDocked st); [| reflexivity].
  destruct (dockStartScroll st); [| reflexivity].
  destruct (_ <? _)%Z; [| reflexivity].
  destruct (getPanelProgress _ _ _ _); reflexivity.
Qed.

(** X4.  The scroll listener posts at most one message, and posts a
    progress message exactly when the tracker is docked, a dock-start offset
    has been captured, the frame is there and the current slide is a
    position of the panel list; the message carries the current slide and
    its panel progress.  Whatever it posts, it only updates the last scroll
    position and the direction. *)
Theorem scrollListener_posts currentScroll panels iframe st :
  let result := scrollListener currentScroll panels iframe st in
  (forall m, snd result = [m] <->
     exists dock progress,
       isDocked st = true /\ dockStartScroll st = Some dock /\ iframe = true
       /\ (0 <= currentSlide st < Z.of_nat (List.length panels))%Z
       /\ getPanelProgress (Some dock) panels (currentSlide st) currentScroll
          = Some progress
       /\ m = Progress (currentSlide st) progress)
  /\ (snd result = [] \/ exists m, snd result = [m])
  /\ isDocked (fst result) = isDocked st
  /\ dockStartScroll (fst result) = dockStartScroll st
  /\ currentSlide (fst result) = currentSlide st
  /\ lastScrollY (fst result) = currentScroll.
Proof.
  intros result. subst result.
  rewrite scrollListener_state.
  cbn [fst isDocked dockStartScroll currentSlide lastScrollY].
  pose proof (scrollListener_messages currentScroll panels iframe st) as M.
  split; [| split; [| repeat split ]].
  - intros m. split.
    + intros E. destruct M as [M | (dock & p & D & K & I & V & P & M)];
        [ rewrite M in E; discriminate |].
      exists dock, p. rewrite M in E. inversion E. auto 10.
    + intros (dock & p & D & K & I & V & P & ->).
      destruct M as [M | (dock' & p' & D' & K' & I' & V' & P' & M)].
      * exfalso. revert M. unfold scrollListener.
        cbn [isDocked dockStartScroll currentSlide]. rewrite D, K.
        destruct V as [_ V]. apply Z.ltb_lt in V. rewrite V, P, I.
        discriminate.
      * rewrite M. congruence.
  - destruct M as [M | (dock & p & _ & _ & _ & _ & _ & M)]; eauto.
Qed.

Lemma step_posts_progress st ev slide progress :
  In (Progress slide progress) (snd (step st ev)) ->
  isDocked st = true /\ dockStartScroll st <> None.
Proof.
  destruct ev as [d y | y panels iframe | | n]; simpl;
    try contradiction; try (intros [H|[]]; discriminate).
  intros H.
  pose proof (scrollListener_messages y panels iframe st) as M.
  destruct (snd (scrollListener y panels iframe st)) as [|m l] eqn:E;
    [contradiction|].
  destruct M as [M|M]; [discriminate|].
  destruct M as (dock & p & D & K & _). split; congruence.
Qed.

(** X5.  No progress message leaves the tracker before a dock-start offset
    has been captured: while the offset is [null] and no callback captures
    one (a docking that is observed with the direction "up" does not), the
    only message posted is the handshake. *)
Theorem no_progress_before_capture evs : forall st,
  dockStartScroll st = None ->
  (forall pre ev post,
      evs = pre ++ ev :: post -> captured (run st pre) ev = None) ->
  forall m, In m (posted st evs) -> m = Handshake.
Proof.
  induction evs as [|ev evs IH]; intros st K C m H; simpl in H; [contradiction|].
  apply in_app_or in H. destruct H as [H|H].
  - destruct m as [|slide progress]; [reflexivity|].
    apply step_posts_progress in H. destruct H as [_ H]. contradiction.
  - apply (IH (fst (step st ev))); [| | exact H].
    + pose proof (C [] ev evs eq_refl) as C0. cbn [run fold_left] in C0.
      rewrite step_dockStartScroll, C0. exact K.
    + intros pre ev' post E.
      apply (C (ev :: pre) ev' post). rewrite E. reflexivity.
Qed.

Lemma no_progress_before_capture_witness :
  posted (initial 100)
    [ Scroll 50 Story.panels true; DockingMutation true 50;
      IframeFound; Scroll 60 Story.panels true; Scroll 700 Story.panels true ]
  = [Handshake]
  /\ isDocked
       (run (initial 100)
          [ Scroll 50 Story.panels true; DockingMutation true 50;
            IframeFound; Scroll 60 Story.panels true;
            Scroll 700 Story.panels true ])
     = true.
Proof.
  split; [| reflexivity].
  assert (H : forall m,
             In m (posted (initial 100)
                     [ Scroll 50 Story.panels true; DockingMutation true 50;
                       IframeFound; Scroll 60 Story.panels true;
                       Scroll 700 Story.panels true ]) ->
             m = Handshake).
  { apply no_progress_before_capture; [reflexivity|].
    intros pre ev post E.
    destruct pre as [|e1 [|e2 [|e3 [|e4 [|e5 [|e6 pre]]]]]];
      inversion E; subst; reflexivity. }
  reflexivity.
Defined.

Lemma step_isDocked st ev :
  isDocked (fst (step st ev))
  = match ev with
    | DockingMutation currentlyDocked _ => currentlyDocked
    | _ => isDocked st
    end.
Proof.
  destruct ev as [d y | y panels iframe | | n]; simpl; try reflexivity.
  - unfold dockingObserver. destruct d, (isDocked st) eqn:D; simpl;
      rewrite ?D; reflexivity.
  - rewrite scrollListener_state. reflexivity.
Qed.

(** X6.  The docked flag follows the page: after any sequence of callbacks
    it holds what the most recent docking observation found, whatever
    happened before it and whichever scroll and frame callbacks came after
    it. *)
Theorem isDocked_follows_observation st before currentlyDocked scrollY after :
  (forall ev, In ev after -> forall d y, ev <> DockingMutation d y) ->
  isDocked (run st (before ++ DockingMutation currentlyDocked scrollY :: after))
  = currentlyDocked.
Proof.
  intros H. unfold run. rewrite fold_left_app. cbn [fold_left].
  set (s := fst (step (fold_left _ before st) _)).
  assert (D : isDocked s = currentlyDocked) by (subst s; apply step_isDocked).
  clearbody s. revert s D.
  induction after as [|ev after IH]; intros s D; [exact D|].
  cbn [fold_left]. apply IH.
  - intros ev' Hin. apply H. right. exact Hin.
  - rewrite step_isDocked.
    destruct ev as [d y | | |]; try exact D.
    exfalso. apply (H (DockingMutation d y) (or_introl eq_refl) d y). reflexivity.
Qed.

Lemma isDocked_follows_observation_witness :
  isDocked
    (run (initial 0)
       ([ Scroll 50 Story.panels false; DockingMutation true 50 ]
        ++ DockingMutation false 900
        :: [ Scroll 950 Story.panels true; IframeFound;
             IframeSrcChanged (Some 2%Z) ]))
  = false.
Proof.
  apply isDocked_follows_observation.
  intros ev [<- | [<- | [<- | []]]] d y; discriminate.
Defined.

End PanelBounds.

(* ================================================================= *)
(** * The slide number in the frame's address and in the hash *)

Section SlideNumbers.
Import JsString.

Lemma afterLastHash_hashFree s : hashFree s = true -> afterLastHash s = None.
Proof.
  induction s as [|c s IH]; simpl; [reflexivity|].
  rewrite andb_true_iff, negb_true_iff. intros [C H].
  rewrite (IH H), C. reflexivity.
Qed.

Lemma afterLastHash_app base frag :
  hashFree frag = true -> afterLastHash (base ++ "#" ++ frag) = Some frag.
Proof.
  intros H. induction base as [|c base IH]; simpl.
  - rewrite (afterLastHash_hashFree _ H). reflexivity.
  - simpl in IH. rewrite IH. reflexivity.
Qed.

Lemma hashFree_app s t :
  hashFree (s ++ t) = hashFree s && hashFree t.
Proof.
  induction s as [|c s IH]; simpl; [reflexivity|].
  rewrite IH, andb_assoc. reflexivity.
Qed.

Lemma hashFree_uint d : hashFree (NilEmpty.string_of_uint d) = true.
Proof. induction d; simpl; auto. Qed.

Lemma digits_digitFree rest read :
  digitFree rest = true -> digits rest read = read.
Proof.
  destruct rest as [|c rest]; simpl; [reflexivity|].
  destruct (digitValue c); [discriminate | reflexivity].
Qed.

Lemma digits_uint rest d : forall read,
  digitFree rest = true ->
  digits (NilEmpty.string_of_uint d ++ rest) (Some read)
  = Some (uintValue d read).
Proof.
  induction d; intros read H;
    try (cbn [NilEmpty.string_of_uint String.append digits];
         change (digitValue _) with (Some 0%Z) || change (digitValue _) with (Some 1%Z)
         || change (digitValue _) with (Some 2%Z) || change (digitValue _) with (Some 3%Z)
         || change (digitValue _) with (Some 4%Z) || change (digitValue _) with (Some 5%Z)
         || change (digitValue _) with (Some 6%Z) || change (digitValue _) with (Some 7%Z)
         || change (digitValue _) with (Some 8%Z) || change (digitValue _) with (Some 9%Z);
         cbv iota; rewrite IHd by exact H; reflexivity).
  simpl. apply digits_digitFree. exact H.
Qed.

Lemma uintValue_acc d : forall p,
  uintValue d (Z.pos p) = Z.pos (Pos.of_uint_acc d p).
Proof.
  induction d; intros p; cbn [uintValue Pos.of_uint_acc];
    [ reflexivity | rewrite <- IHd; f_equal; lia .. ].
Qed.

Lemma uintValue_of_uint d : uintValue d 0 = Z.of_N (Pos.of_uint d).
Proof.
  induction d; cbn [uintValue Pos.of_uint]; try reflexivity;
    try exact IHd;
    cbn [Z.of_N]; rewrite <- uintValue_acc; reflexivity.
Qed.

Lemma parseInt_uint d rest :
  d <> Decimal.Nil -> digitFree rest = true ->
  parseInt (NilEmpty.string_of_uint d ++ rest) = Some (uintValue d 0).
Proof.
  intros N H. unfold parseInt.
  destruct d; try congruence;
    cbn [NilEmpty.string_of_uint String.append trimStart];
    match goal with
    | |- context [isWhiteSpace ?c] => change (isWhiteSpace c) with false
    end; cbv iota; cbn [digits];
    match goal with
    | |- context [digitValue ?c] =>
        let v := eval vm_compute in (digitValue c) in
        change (digitValue c) with v
    end; cbv iota;
    rewrite digits_uint by exact H; reflexivity.
Qed.

(** The decimal notation of [n] is read back as [n], whatever follows it
    that is not a digit. *)
Lemma parseInt_decimal n rest :
  digitFree rest = true -> parseInt (decimal n ++ rest) = Some (Z.of_N n).
Proof.
  intros H. unfold decimal. rewrite parseInt_uint; [| | exact H].
  - rewrite uintValue_of_uint. change (Pos.of_uint (N.to_uint n)) with (N.of_uint (N.to_uint n)).
    rewrite DecimalN.Unsigned.of_to. reflexivity.
  - destruct n; [discriminate | apply DecimalPos.Unsigned.to_uint_nonnil].
Qed.

Lemma append_empty s : (s ++ EmptyString)%string = s.
Proof. induction s as [|c s IH]; simpl; [reflexivity | now rewrite IH]. Qed.

Lemma parseInt_decimal_alone n : parseInt (decimal n) = Some (Z.of_N n).
Proof.
  rewrite <- (append_empty (decimal n)). apply parseInt_decimal. reflexivity.
Qed.

Lemma hashFree_decimal n rest :
  hashFree rest = true -> hashFree (decimal n ++ rest) = true.
Proof.
  intros H. unfold decimal. rewrite hashFree_app, hashFree_uint, H. reflexivity.
Qed.

End SlideNumbers.

(* ================================================================= *)
(** * The embedding relay *)

Section EmbeddingRelay.
Import ScrollTracker Relay.

(** X7.  The source observer reads the slide number off the text that
    follows the last "#" of the frame's address: a decimal number there
    becomes the current slide, whatever precedes it and whatever non-digit
    text follows it; the tracker's other variables stay as they are. *)
Theorem iframeSrcObserver_reads_fragment base n rest flag st :
  (n < 2 ^ 53)%N -> hashFree rest = true -> digitFree rest = true ->
  iframeSrcObserver
    {| observed := flag; src := Some (base ++ "#" ++ decimal n ++ rest)%string |} st
  = setCurrentSlide (Z.of_N n) st.
Proof.
  intros _ H D. unfold iframeSrcObserver, slideNumber. cbn [src step fst].
  rewrite afterLastHash_app by (apply hashFree_decimal; exact H).
  rewrite parseInt_decimal by exact D. reflexivity.
Qed.

Lemma iframeSrcObserver_reads_fragment_witness :
  currentSlide
    (iframeSrcObserver
       {| observed := Some "true";
          src := Some ("https://storymaps.arcgis.com/stories/7#top"
                       ++ "#" ++ decimal 12 ++ "?embed")%string |}
       (initial 0))
  = 12%Z.
Proof.
  rewrite (iframeSrcObserver_reads_fragment
             "https://storymaps.arcgis.com/stories/7#top" 12 "?embed"
             (Some "true") (initial 0));
    reflexivity.
Defined.

(** X8.  When the frame has no address, or its address has no "#", or the
    text after the last "#" does not start with a number, the source
    observer sets the current slide back to 0. *)
Theorem iframeSrcObserver_fallback iframe st :
  src iframe = None
  \/ (exists s, src iframe = Some s /\ hashFree s = true)
  \/ (exists base frag,
         src iframe = Some (base ++ "#" ++ frag)%string
         /\ hashFree frag = true /\ JsString.parseInt frag = None) ->
  iframeSrcObserver iframe st = setCurrentSlide 0 st.
Proof.
  unfold iframeSrcObserver, slideNumber.
  intros [E | [(s & E & H) | (base & frag & E & H & P)]]; rewrite E.
  - reflexivity.
  - rewrite (afterLastHash_hashFree _ H). reflexivity.
  - rewrite (afterLastHash_app _ _ H), P. reflexivity.
Qed.

Lemma iframeSrcObserver_fallback_witness :
  currentSlide
    (iframeSrcObserver
       {| observed := Some "true";
          src := Some ("https://storymaps.arcgis.com/stories/7" ++ "#" ++ "intro")%string |}
       {| isDocked := true; dockStartScroll := Some 1000; lastScrollY := 1500;
          scrollDirection := down; currentSlide := 2 |})
  = 0%Z.
Proof.
  rewrite (iframeSrcObserver_fallback
             {| observed := Some "true";
                src := Some ("https://storymaps.arcgis.com/stories/7"
                             ++ "#" ++ "intro")%string |}).
  - reflexivity.
  - right. right. exists "https://storymaps.arcgis.com/stories/7", "intro".
    repeat split.
Defined.

(** X9.  The frame watcher is idempotent: once it has handled a frame, a
    further run on that frame posts nothing and leaves the tracker's
    variables alone (a current slide set meanwhile is not reset).  It posts
    the handshake, and resets the current slide to 0, exactly for a frame
    that is there and not yet marked as observed. *)
Theorem iframeWatcher_idempotent iframe st :
  let result := iframeWatcher iframe st in
  (forall st', iframeWatcher (fst result) st' = (fst result, (st', [])))
  /\ (snd (snd result) = [Handshake]
      <-> exists frame, iframe = Some frame /\ unobserved frame = true)
  /\ (snd (snd result) = [Handshake] /\ fst (snd result) = setCurrentSlide 0 st
      \/ snd result = (st, [])).
Proof.
  intros result. subst result. unfold iframeWatcher.
  destruct iframe as [frame|]; cbn [fst snd].
  - destruct (unobserved frame) eqn:U; cbn [fst snd step].
    + split; [ reflexivity |]. split; [| left; split; reflexivity ].
      split; [ intros _; exists frame; auto | reflexivity ].
    + split; [ intros st'; rewrite U; reflexivity |].
      split; [| right; reflexivity ].
      split; [ discriminate |].
      intros (f & E & U'). inversion E; subst. congruence.
  - split; [ reflexivity |]. split; [| right; reflexivity ].
    split; [ discriminate | intros (f & E & _); discriminate ].
Qed.

End EmbeddingRelay.

(* ================================================================= *)
(** * What each dispatcher leaves alone, and what it sends to the camera *)

Section Frames.

Lemma fold_left_frame {A : Type} (proj : World -> A)
    (step : World -> string -> World) keys :
  (forall w k, proj (step w k) = proj w) ->
  forall w, proj (fold_left step keys w) = proj w.
Proof.
  intros H. induction keys as [|k keys IH]; intros w; simpl; [reflexivity|].
  rewrite IH. apply H.
Qed.

Lemma tryCall_frame {Context A : Type} (proj : World -> A)
    (table : string -> option (Handler Context)) receiver key context w :
  (forall e w, proj (consoleError e w) = proj w) ->
  (forall k c w, proj (noteCall k c w) = proj w) ->
  (forall h c w, table key = Some h -> proj (fst (body h c w)) = proj w) ->
  proj (tryCall receiver (lookup table key) key context w) = proj w.
Proof.
  intros E N B. unfold tryCall.
  destruct (lookup table key) as [|h|f|] eqn:L.
  - apply E.
  - apply lookup_Own in L.
    pose proof (B h context (noteCall key (Registered (name h)) w) L) as P.
    destruct (body h context _) as [w' []]; simpl in P.
    + rewrite P. apply N.
    + rewrite E, P. apply N.
  - destruct (callInherited receiver f); [| rewrite E]; apply N.
  - apply E.
Qed.

Lemma fold_left_append {A : Type} (proj : World -> list A)
    (step : World -> string -> World) (added : string -> list A) keys :
  (forall w k, proj (step w k) = proj w ++ added k) ->
  forall w, proj (fold_left step keys w) = proj w ++ flat_map added keys.
Proof.
  intros H. induction keys as [|k keys IH]; intros w; simpl.
  - now rewrite app_nil_r.
  - rewrite IH, H, <- app_assoc. reflexivity.
Qed.

Lemma flat_map_single {A : Type} (key : string) (l : list A) keys :
  NoDup keys ->
  flat_map (fun k => if String.eqb k key then l else []) keys
  = if mem key keys then l else [].
Proof.
  unfold mem. induction keys as [|k keys IH]; intros D; simpl; [reflexivity|].
  inversion D as [|? ? Nin D']; subst.
  rewrite (IH D'), (String.eqb_sym key k).
  destruct (String.eqb k key) eqn:E; simpl; [| reflexivity].
  apply String.eqb_eq in E. subst k.
  destruct (existsb (String.eqb key) keys) eqn:X; [| apply app_nil_r].
  exfalso. apply Nin. apply existsb_exists in X. destruct X as (x & Hin & Ex).
  apply String.eqb_eq in Ex. now subst.
Qed.

Lemma get_None_mem (sd : Slide) key :
  mem key (map fst sd) = false -> get sd key = None.
Proof.
  unfold mem. induction sd as [|[k v] sd IH]; simpl; [reflexivity|].
  rewrite orb_false_iff, (String.eqb_sym key k). intros [E H].
  rewrite E. apply IH. exact H.
Qed.

End Frames.

Section ScrollCamera.
Import ScrollAnimator.

Ltac branches :=
  repeat match goal with
         | |- context [get ?s ?k] => destruct (get s k) as [[]|]; simpl
         | |- context [match timeSlider ?w with _ => _ end] =>
             destruct (timeSlider w); simpl
         | |- context [find ?f ?l] => destruct (find f l); simpl
         | |- context [if ?b then _ else _] => destruct b; simpl
         end.

Lemma scroll_handlers_layers key h c w :
  choreographyHandlers key = Some h -> layers (fst (body h c w)) = layers w.
Proof.
  unfold choreographyHandlers.
  repeat match goal with
         | |- context [String.eqb ?a ?b] => destruct (String.eqb a b)
         end; intros E; inversion E; subst; clear E; simpl.
  - unfold interpolateViewpoint.
    destruct (slideNext c) as [nx|]; simpl; [| reflexivity ].
    destruct (get nx "viewpoint") as [[]|]; simpl; branches; reflexivity.
  - unfold interpolateTimeSlider. branches; reflexivity.
Qed.

(** X10.  The scroll animator never touches the map's layers: whatever the
    slides hold, [scrollAnimation] leaves the layer list, with every
    layer's visibility, as it found it. *)
Theorem scrollAnimation_keeps_layers cur next p w :
  layers (scrollAnimation cur next p w) = layers w.
Proof.
  unfold scrollAnimation.
  apply (fold_left_frame layers). intros w' k. unfold dispatchKey.
  apply (tryCall_frame layers); try reflexivity.
  intros h c w'' T. exact (scroll_handlers_layers k h c w'' T).
Qed.

Lemma scrollStep_goTo cur next p w key :
  goToCalls (scrollStep {| slideCurrent := cur; slideNext := next;
                           progress := p |} w key)
  = goToCalls w
    ++ (if String.eqb key "viewpoint" then blendedCamera cur next p else []).
Proof.
  unfold scrollStep, dispatchKey, lookup, choreographyHandlers.
  destruct (String.eqb key "viewpoint") eqn:E1.
  { cbn [isFunction tryCall body name].
    unfold interpolateViewpoint, blendedCamera.
    cbn [slideCurrent slideNext progress].
    destruct (get cur "viewpoint") as [[]|];
      (destruct next as [nx|]; [ destruct (get nx "viewpoint") as [[]|] |]);
      simpl; branches; rewrite ?app_nil_r; reflexivity. }
  destruct (String.eqb key "timeSlider").
  { cbn [isFunction tryCall body name]. unfold interpolateTimeSlider.
    branches; now rewrite app_nil_r. }
  destruct (mem key objectPrototypeFunctions).
  { cbn [isFunction tryCall]. destruct (callInherited true key); simpl;
      now rewrite app_nil_r. }
  destruct (String.eqb key "__proto__"); simpl; now rewrite app_nil_r.
Qed.

(** X11.  The scroll animator sends at most one viewpoint to the map per
    call: the blend of the two slides' viewpoints, animated over 1000 ms,
    when the current and the next slide both have one, and nothing
    otherwise (the keys of a slide are distinct). *)
Theorem scrollAnimation_camera cur next p w :
  NoDup (map fst cur) ->
  goToCalls (scrollAnimation cur next p w)
  = goToCalls w ++ blendedCamera cur next p.
Proof.
  intros D. unfold scrollAnimation. rewrite fold_left_filter.
  fold (scrollStep {| slideCurrent := cur; slideNext := next; progress := p |}).
  rewrite (fold_left_append goToCalls _ _ _
             (fun w k => scrollStep_goTo cur next p w k)).
  rewrite (flat_map_single "viewpoint" _ _ D). f_equal.
  destruct (mem "viewpoint" (map fst cur)) eqn:M; [reflexivity|].
  unfold blendedCamera. rewrite (get_None_mem _ _ M). reflexivity.
Qed.

Lemma scrollAnimation_camera_witness :
  goToCalls (scrollAnimation Sample.slideA (Some Sample.slideB) 0.5 Sample.world)
  = [ {| target := Some (VViewpoint (blend 0.5 Sample.viewpointA Sample.viewpointB));
         animate := true; duration := 1000 |} ]
  /\ goToCalls (scrollAnimation Sample.slideB None 0.5 Sample.world) = [].
Proof.
  split.
  - rewrite (scrollAnimation_camera Sample.slideA (Some Sample.slideB) 0.5
               Sample.world); [reflexivity|].
    repeat constructor; simpl; intuition discriminate.
  - reflexivity.
Defined.

End ScrollCamera.

Section SlideCamera.
Import SlideAnimator.

Ltac branches :=
  repeat match goal with
         | |- context [get ?s ?k] => destruct (get s k) as [[]|]; simpl
         | |- context [match timeSlider ?w with _ => _ end] =>
             destruct (timeSlider w); simpl
         | |- context [find ?f ?l] => destruct (find f l); simpl
         | |- context [if ?b then _ else _] => destruct b; simpl
         end.

Lemma slide_handlers_timeSlider key h c w :
  choreographyHandlers key = Some h -> timeSlider (fst (body h c w)) = timeSlider w.
Proof.
  unfold choreographyHandlers.
  repeat match goal with
         | |- context [String.eqb ?a ?b] => destruct (String.eqb a b)
         end; intros E; inversion E; subst; clear E; simpl.
  - reflexivity.
  - reflexivity.
  - unfold toggleLayerVisibility. branches; reflexivity.
  - unfold toggleTrackRenderer. branches; reflexivity.
Qed.

Lemma slide_timeSlider_frame sd e w :
  timeSlider (slideAnimation sd e w) = timeSlider w.
Proof.
  unfold slideAnimation.
  apply (fold_left_frame timeSlider). intros w' k. unfold dispatchEntry.
  destruct (missing _); [reflexivity|].
  destruct (_ && _); [reflexivity|].
  apply (tryCall_frame timeSlider); try reflexivity.
  intros h c w'' T. exact (slide_handlers_timeSlider k h c w'' T).
Qed.

(** X12.  The slide animator never touches the time slider, in an embed or
    outside one: the handler registered for "timeSlider" is empty and no
    other handler writes to the slider.  The slider keeps its extent and
    goes on playing if it was. *)
Theorem slideAnimation_keeps_timeSlider sd e w :
  timeSlider (slideAnimation sd e w) = timeSlider w
  /\ forall ts, timeSlider w = Some ts ->
       option_map playing (timeSlider (slideAnimation sd e w)) = Some (playing ts).
Proof.
  rewrite slide_timeSlider_frame. split; [reflexivity|].
  intros ts ->. reflexivity.
Qed.

Lemma dispatchEntry_goTo sd w key :
  goToCalls (dispatchEntry {| slideData := sd; embedded := false |} w key)
  = goToCalls w
    ++ (if String.eqb key "viewpoint"
        then [ {| target := get sd "viewpoint"; animate := true;
                  duration := 1000 |} ]
        else []).
Proof.
  unfold dispatchEntry, lookup, choreographyHandlers. cbn [embedded andb].
  destruct (String.eqb key "viewpoint") eqn:E1; [reflexivity|].
  destruct (String.eqb key "timeSlider").
  { simpl. now rewrite app_nil_r. }
  destruct (String.eqb key "layerVisibility").
  { cbn [missing tryCall body name]. unfold toggleLayerVisibility.
    simpl. branches; now rewrite app_nil_r. }
  destruct (String.eqb key "trackRenderer").
  { cbn [missing tryCall body name]. unfold toggleTrackRenderer.
    simpl. branches; now rewrite app_nil_r. }
  destruct (mem key objectPrototypeFunctions).
  { cbn [missing tryCall]. destruct (callInherited false key); simpl;
      now rewrite app_nil_r. }
  destruct (String.eqb key "__proto__"); simpl; now rewrite app_nil_r.
Qed.

(** X13.  Outside an embed the slide animator sends the slide's own
    viewpoint to the map, once, animated over 1000 ms, when the slide has
    the key "viewpoint", and nothing otherwise (the keys of a slide are
    distinct). *)
Theorem slideAnimation_camera sd w :
  NoDup (map fst sd) ->
  goToCalls (slideAnimation sd false w) = goToCalls w ++ slideCamera sd.
Proof.
  intros D. unfold slideAnimation.
  rewrite (fold_left_append goToCalls _ _ _
             (fun w k => dispatchEntry_goTo sd w k)).
  rewrite (flat_map_single "viewpoint" _ _ D). f_equal.
  unfold slideCamera.
  destruct (mem "viewpoint" (map fst sd)) eqn:M.
  - destruct (get sd "viewpoint") eqn:G; [reflexivity|].
    exfalso. revert M G. clear. unfold mem.
    induction sd as [|[k v] sd IH]; cbn [map fst existsb get]; [discriminate|].
    rewrite (String.eqb_sym "viewpoint" k).
    destruct (String.eqb k "viewpoint"); [discriminate | exact IH].
  - rewrite (get_None_mem _ _ M). reflexivity.
Qed.

Lemma slideAnimation_camera_witness :
  goToCalls (slideAnimation Sample.slideA false Sample.world)
  = [ {| target := Some (VViewpoint Sample.viewpointA);
         animate := true; duration := 1000 |} ]
  /\ goToCalls (slideAnimation Story.slideTrackOnly false Sample.world) = [].
Proof.
  split.
  - rewrite (slideAnimation_camera Sample.slideA Sample.world); [reflexivity|].
    repeat constructor; simpl; intuition discriminate.
  - reflexivity.
Defined.

End SlideCamera.

(* ================================================================= *)
(** * Layer visibility and the track layer *)

Section LayersAndTracks.
Import SlideAnimator.

(** X14.  After [toggleLayerVisibility] a layer named in [layersOff] is
    hidden, whether or not [layersOn] names it too, and a layer named in
    [layersOn] only is visible; the layer list keeps its length. *)
Theorem toggleLayerVisibility_final_visibility sd e w lv :
  get sd "layerVisibility" = Some (VLayerVisibility lv) ->
  let result := toggleLayerVisibility {| slideData := sd; embedded := e |} w in
  List.length (layers (fst result)) = List.length (layers w)
  /\ forall i l,
      nth_error (layers w) i = Some l ->
      exists l',
        nth_error (layers (fst result)) i = Some l'
        /\ (listed (layersOff lv) (title l) -> visible l' = false)
        /\ (listed (layersOn lv) (title l) -> ~ listed (layersOff lv) (title l) ->
            visible l' = true).
Proof.
  intros G result. subst result. unfold toggleLayerVisibility.
  cbn [slideData]. rewrite G. cbn [fst setLayers layers]. split.
  - unfold setLayerVisibility.
    destruct (layersOff lv) as [off|], (layersOn lv) as [on|];
      repeat match goal with
             | |- context [if ?b then _ else _] => destruct b
             end; rewrite ?length_map; reflexivity.
  - intros i l H.
    destruct (setLayerVisibility_nth (layersOn lv) true _ _ _ H)
      as (l1 & H1 & T1 & S1 & _).
    destruct (setLayerVisibility_nth (layersOff lv) false _ _ _ H1)
      as (l2 & H2 & T2 & S2 & K2).
    exists l2. rewrite T1 in *. split; [exact H2|]. split.
    + exact S2.
    + intros On Noff. rewrite (K2 Noff). apply S1. exact On.
Qed.

Lemma toggleLayerVisibility_final_visibility_witness :
  layers (fst (toggleLayerVisibility
                 {| slideData := Sample.slideA; embedded := true |}
                 Sample.world))
  = [ {| title := "Tracks"; visible := true |};
      {| title := "Basemap"; visible := true |};
      {| title := "Labels"; visible := false |} ]
  /\ List.length (layers (fst (toggleLayerVisibility
                                 {| slideData := Sample.slideA; embedded := true |}
                                 Sample.world)))
     = 3%nat.
Proof.
  split; [reflexivity|].
  destruct (toggleLayerVisibility_final_visibility Sample.slideA true
              Sample.world Sample.visibility eq_refl) as [L _].
  rewrite L. reflexivity.
Defined.

Lemma setLayerVisibility_map names v ls :
  setLayerVisibility names v ls = map (setVisible names v) ls.
Proof.
  unfold setLayerVisibility, setVisible. destruct names as [names|].
  - destruct (0 <? List.length names)%nat; simpl; [reflexivity|].
    now rewrite map_id.
  - now rewrite map_id.
Qed.

Lemma setVisible_twice on off l :
  setVisible off false (setVisible on true
    (setVisible off false (setVisible on true l)))
  = setVisible off false (setVisible on true l).
Proof.
  unfold setVisible.
  destruct on as [on|], off as [off|];
    repeat match goal with
           | |- context [(0 <? ?n)%nat] => destruct (0 <? n)%nat
           end; cbn [andb title visible];
    repeat (match goal with
            | |- context [mem ?t ?ns] =>
                let M := fresh "M" in
                destruct (mem t ns) eqn:M; cbn [andb title visible] in *;
                rewrite ?M
            end);
    try reflexivity; try congruence.
Qed.

(** X15.  [toggleLayerVisibility] is idempotent: running it a second time
    for the same slide changes nothing further. *)
Theorem toggleLayerVisibility_idempotent context w :
  toggleLayerVisibility context (fst (toggleLayerVisibility context w))
  = toggleLayerVisibility context w.
Proof.
  unfold toggleLayerVisibility.
  destruct (get (slideData context) "layerVisibility") as [[| | | | | | |lv|]|];
    try reflexivity.
  cbn [fst setLayers layers]. f_equal. unfold setLayers.
  cbn [goToCalls layers timeSlider errors invoked]. f_equal.
  rewrite (setLayerVisibility_map (layersOn lv) true (layers w)).
  rewrite (setLayerVisibility_map (layersOff lv) false).
  rewrite (setLayerVisibility_map (layersOn lv) true).
  rewrite (setLayerVisibility_map (layersOff lv) false).
  rewrite !map_map. apply map_ext. intros l. apply setVisible_twice.
Qed.

Lemma find_removeFirst layerName ls trackLayer :
  find (fun layer => String.eqb (title layer) layerName) ls = Some trackLayer ->
  exists below above,
    ls = below ++ trackLayer :: above
    /\ title trackLayer = layerName
    /\ Forall (fun l => title l <> layerName) below
    /\ removeFirst layerName ls = below ++ above.
Proof.
  induction ls as [|l ls IH]; simpl; [discriminate|].
  destruct (String.eqb (title l) layerName) eqn:E.
  - intros H. inversion H; subst. exists [], ls. apply String.eqb_eq in E. auto.
  - intros H. destruct (IH H) as (below & above & -> & T & F & R).
    exists (l :: below), above. rewrite R. repeat split; auto.
    constructor; [| exact F]. apply String.eqb_neq. exact E.
Qed.

(** X16.  The track reset of [toggleTrackRenderer], for a slide with a
    track renderer and a time slider entry, on a map that has a layer with
    the renderer's title.  The first such layer is taken out unless
    [remove] throws, and its clone is put on top unless [clone] or [add]
    throws; the other layers keep their order, and each failure is logged.
    So the reset permutes the layer list when the three calls succeed, loses
    the layer when [remove] succeeds and [clone] or [add] throws, and leaves
    the layer in twice when only [remove] throws. *)
Theorem toggleTrackRenderer_reorders context w r v trackLayer :
  get (slideData context) "trackRenderer" = Some (VTrackRenderer r) ->
  get (slideData context) "timeSlider" = Some v -> v <> VNull ->
  find (fun layer => String.eqb (title layer) (trackLayerName r)) (layers w)
  = Some trackLayer ->
  let result := fst (toggleTrackRenderer context w) in
  let failed := cloneThrows (sdk w) || addThrows (sdk w) in
  exists below above,
    layers w = below ++ trackLayer :: above
    /\ title trackLayer = trackLayerName r
    /\ Forall (fun l => title l <> trackLayerName r) below
    /\ layers result
       = (if removeThrows (sdk w) then layers w else below ++ above)
         ++ (if failed then [] else [trackLayer])
    /\ errors result
       = errors w
         ++ (if removeThrows (sdk w) then [ErrorRemoveTrackLayer] else [])
         ++ (if cloneThrows (sdk w) then [ErrorTrackRenderer]
             else if addThrows (sdk w) then [ErrorAddTrackLayer] else [])
    /\ (removeThrows (sdk w) = false -> failed = false ->
        Permutation (layers w) (layers result))
    /\ (removeThrows (sdk w) = false -> failed = true ->
        layers result = below ++ above
        /\ S (List.length (layers result)) = List.length (layers w))
    /\ (removeThrows (sdk w) = true -> failed = false ->
        layers result = layers w ++ [trackLayer]).
Proof.
  intros R T N F result failed. subst result failed.
  destruct (find_removeFirst _ _ _ F) as (below & above & E & Ti & Fa & Rm).
  exists below, above.
  split; [exact E|]. split; [exact Ti|]. split; [exact Fa|].
  assert (X : toggleTrackRenderer context w
              = let removed :=
                  if removeThrows (sdk w)
                  then consoleError ErrorRemoveTrackLayer w
                  else setLayers (below ++ above) w in
                if cloneThrows (sdk w)
                then (consoleError ErrorTrackRenderer removed, Normal)
                else if addThrows (sdk w)
                then (consoleError ErrorAddTrackLayer removed, Normal)
                else (setLayers (layers removed ++ [trackLayer]) removed, Normal)).
  { unfold toggleTrackRenderer. rewrite R, T, F, Rm.
    destruct v; try reflexivity. exfalso. apply N. reflexivity. }
  rewrite X. clear X. cbv zeta.
  destruct (removeThrows (sdk w)), (cloneThrows (sdk w)), (addThrows (sdk w));
    cbn [fst layers errors consoleError setLayers orb];
    rewrite ?app_nil_r, <- ?app_assoc;
    repeat match goal with
           | |- _ /\ _ => split
           end;
    try reflexivity; try (intros; discriminate); intros.
  - split; [reflexivity|]. rewrite E, !length_app. simpl. lia.
  - split; [reflexivity|]. rewrite E, !length_app. simpl. lia.
  - split; [reflexivity|]. rewrite E, !length_app. simpl. lia.
  - rewrite E. apply Permutation_app_head, Permutation_cons_append.
Qed.

Lemma toggleTrackRenderer_reorders_witness :
  layers (fst (toggleTrackRenderer
                 {| slideData := Sample.slideA; embedded := true |} Sample.world))
  = [ {| title := "Basemap"; visible := true |};
      {| title := "Labels"; visible := true |};
      {| title := "Tracks"; visible := false |} ]
  /\ layers (fst (toggleTrackRenderer
                    {| slideData := Sample.slideA; embedded := true |}
                    Story.worldCloneFails))
     = [ {| title := "Basemap"; visible := true |};
         {| title := "Labels"; visible := true |} ]
  /\ errors (fst (toggleTrackRenderer
                    {| slideData := Sample.slideA; embedded := true |}
                    Story.worldCloneFails))
     = [ErrorTrackRenderer].
Proof.
  destruct (toggleTrackRenderer_reorders
              {| slideData := Sample.slideA; embedded := true |} Sample.world
              Sample.renderer (VTimeWindow Sample.year2020)
              {| title := "Tracks"; visible := false |}
              eq_refl eq_refl ltac:(discriminate) eq_refl)
    as (below & above & _ & _ & _ & L & _).
  destruct (toggleTrackRenderer_reorders
              {| slideData := Sample.slideA; embedded := true |}
              Story.worldCloneFails
              Sample.renderer (VTimeWindow Sample.year2020)
              {| title := "Tracks"; visible := false |}
              eq_refl eq_refl ltac:(discriminate) eq_refl)
    as (below' & above' & _ & _ & _ & _ & E' & _).
  split; [reflexivity|]. split; [reflexivity|]. rewrite E'. reflexivity.
Defined.

(** X17.  A slide with a track renderer and no "timeSlider" entry gets no
    reset: [toggleTrackRenderer] fails on reading the step unit, logs
    "Failed to set track Renderer:" and leaves the map as it was. *)
Theorem toggleTrackRenderer_needs_timeSlider sd e w v :
  get sd "trackRenderer" = Some v ->
  get sd "timeSlider" = None ->
  toggleTrackRenderer {| slideData := sd; embedded := e |} w
  = (consoleError ErrorTrackRenderer w, Normal).
Proof.
  intros R T. unfold toggleTrackRenderer. cbn [slideData]. rewrite R, T.
  destruct v; reflexivity.
Qed.

Lemma toggleTrackRenderer_needs_timeSlider_witness :
  errors (slideAnimation Story.slideTrackOnly true Sample.world)
  = [ErrorTrackRenderer]
  /\ toggleTrackRenderer
       {| slideData := Story.slideTrackOnly; embedded := true |} Sample.world
     = (consoleError ErrorTrackRenderer Sample.world, Normal).
Proof.
  split; [reflexivity|].
  apply (toggleTrackRenderer_needs_timeSlider Story.slideTrackOnly true
           Sample.world (VTrackRenderer Sample.renderer)); reflexivity.
Defined.

End LayersAndTracks.


(* ================================================================= *)
(** * The effects of a dispatch *)

Section DispatchEffects.

Lemma scrollStep_run context w key :
  scrollStep context w key = scrollRun context w key.
Proof.
  unfold scrollRun, scrollStep, ScrollAnimator.dispatchKey, lookup,
    ScrollAnimator.choreographyHandlers.
  destruct (String.eqb key "viewpoint") eqn:E1.
  { cbn [ScrollAnimator.isFunction tryCall body name settle].
    destruct (ScrollAnimator.interpolateViewpoint _ _) as [w' []]; reflexivity. }
  destruct (String.eqb key "timeSlider") eqn:E2.
  { cbn [ScrollAnimator.isFunction tryCall body name settle].
    destruct (ScrollAnimator.interpolateTimeSlider _ _) as [w' []]; reflexivity. }
  reflexivity.
Qed.

Lemma dispatchEntry_run context w key :
  SlideAnimator.dispatchEntry context w key = slideRun context w key.
Proof.
  unfold slideRun, SlideAnimator.dispatchEntry at 1, lookup,
    SlideAnimator.choreographyHandlers, SlideAnimator.NON_EMBED_EXCLUDE_KEYS, mem.
  cbn [existsb].
  destruct (String.eqb key "viewpoint") eqn:E1.
  { cbn [SlideAnimator.missing orb]. rewrite andb_true_r.
    destruct (SlideAnimator.embedded context); [reflexivity|].
    cbn [tryCall body name]. reflexivity. }
  destruct (String.eqb key "timeSlider") eqn:E2.
  { cbn [SlideAnimator.missing orb]. rewrite andb_true_r.
    destruct (SlideAnimator.embedded context); reflexivity. }
  cbn [orb]. rewrite andb_false_r.
  destruct (String.eqb key "layerVisibility") eqn:E3.
  { cbn [SlideAnimator.missing tryCall body name].
    destruct (SlideAnimator.toggleLayerVisibility _ _) as [w' []]; reflexivity. }
  destruct (String.eqb key "trackRenderer") eqn:E4.
  { cbn [SlideAnimator.missing tryCall body name].
    destruct (SlideAnimator.toggleTrackRenderer _ _) as [w' []]; reflexivity. }
  unfold SlideAnimator.dispatchEntry, lookup, SlideAnimator.choreographyHandlers,
    SlideAnimator.NON_EMBED_EXCLUDE_KEYS, mem.
  cbn [existsb]. rewrite E1, E2, E3, E4. cbn [orb]. rewrite andb_false_r.
  reflexivity.
Qed.

Lemma fold_left_ext_step {A B : Type} (f g : A -> B -> A) l :
  (forall a b, f a b = g a b) -> forall a, fold_left f l a = fold_left g l a.
Proof.
  intros H. induction l as [|b l IH]; intros a; simpl; [reflexivity|].
  rewrite H. apply IH.
Qed.

(** The two handlers of the scroll animator read the world only through
    the part they write. *)
Lemma interpolateTimeSlider_local context w1 w2 :
  timeSlider w1 = timeSlider w2 ->
  timeSlider (fst (ScrollAnimator.interpolateTimeSlider context w1))
  = timeSlider (fst (ScrollAnimator.interpolateTimeSlider context w2)).
Proof.
  intros E. unfold ScrollAnimator.interpolateTimeSlider.
  destruct (get _ "timeSlider") as [[]|]; cbn [fst consoleError timeSlider];
    try exact E;
    (destruct (_ <=? 0)%float; [exact E|]);
    destruct (timeSlider w1) eqn:T1, (timeSlider w2) eqn:T2;
    cbn [fst setTimeSlider consoleError timeSlider];
    try congruence; inversion E; reflexivity.
Qed.

Lemma scrollStep_timeSlider context w key :
  timeSlider (scrollStep context w key)
  = if String.eqb key "timeSlider"
    then timeSlider (fst (ScrollAnimator.interpolateTimeSlider context w))
    else timeSlider w.
Proof.
  rewrite scrollStep_run. unfold scrollRun.
  destruct (String.eqb key "viewpoint") eqn:E1.
  { apply String.eqb_eq in E1. subst key. cbn [String.eqb Ascii.eqb Bool.eqb].
    unfold ScrollAnimator.interpolateViewpoint.
    destruct (negb _); [reflexivity|].
    destruct (get _ "viewpoint") as [[]|]; try reflexivity;
      destruct (match ScrollAnimator.slideNext context with
                | Some next => get next "viewpoint"
                | None => None
                end) as [[]|]; reflexivity. }
  destruct (String.eqb key "timeSlider") eqn:E2.
  { rewrite (interpolateTimeSlider_local context w
               (noteCall key (Registered "interpolateTimeSlider") w) eq_refl).
    destruct (ScrollAnimator.interpolateTimeSlider _ _) as [w' []]; reflexivity. }
  unfold scrollStep, ScrollAnimator.dispatchKey, lookup,
    ScrollAnimator.choreographyHandlers. rewrite E1, E2.
  destruct (mem key objectPrototypeFunctions).
  { cbn [ScrollAnimator.isFunction tryCall].
    destruct (callInherited true key); reflexivity. }
  destruct (String.eqb key "__proto__"); reflexivity.
Qed.

Lemma scroll_fold_timeSlider context keys :
  NoDup keys -> forall w,
  timeSlider (fold_left (scrollStep context) keys w)
  = if mem "timeSlider" keys
    then timeSlider (fst (ScrollAnimator.interpolateTimeSlider context w))
    else timeSlider w.
Proof.
  unfold mem. induction keys as [|k keys IH]; intros D w; [reflexivity|].
  inversion D as [|? ? Nin D']; subst. cbn [fold_left existsb].
  rewrite (IH D'), (String.eqb_sym "timeSlider" k).
  pose proof (scrollStep_timeSlider context w k) as S.
  destruct (String.eqb k "timeSlider") eqn:E.
  - apply String.eqb_eq in E. subst k. cbn [orb].
    destruct (existsb (String.eqb "timeSlider") keys) eqn:X; [| exact S].
    exfalso. apply Nin. apply existsb_exists in X. destruct X as (x & Hin & Ex).
    apply String.eqb_eq in Ex. now subst.
  - cbn [orb]. destruct (existsb _ keys); [| exact S].
    apply interpolateTimeSlider_local. exact S.
Qed.

Lemma interpolateViewpoint_goTo cur next p w :
  goToCalls (fst (ScrollAnimator.interpolateViewpoint
                    {| ScrollAnimator.slideCurrent := cur;
                       ScrollAnimator.slideNext := next;
                       ScrollAnimator.progress := p |} w))
  = goToCalls w ++ blendedCamera cur next p.
Proof.
  pose proof (scrollStep_goTo cur next p w "viewpoint") as H.
  rewrite scrollStep_run in H. unfold scrollRun in H.
  cbn [String.eqb Ascii.eqb Bool.eqb] in H. rewrite <- H.
  unfold ScrollAnimator.interpolateViewpoint.
  cbn [ScrollAnimator.slideCurrent ScrollAnimator.slideNext ScrollAnimator.progress].
  destruct (negb _); [reflexivity|].
  destruct (get cur "viewpoint") as [[]|]; try reflexivity;
    destruct (match next with
              | Some next0 => get next0 "viewpoint"
              | None => None
              end) as [[]|]; reflexivity.
Qed.

Lemma mem_In key keys : mem key keys = true <-> In key keys.
Proof.
  unfold mem. rewrite existsb_exists. split.
  - intros (x & Hin & E). apply String.eqb_eq in E. now subst.
  - intros H. exists key. split; [exact H | apply String.eqb_refl].
Qed.

(** Every updater leaves the SDK as it is, and so does every handler. *)
Lemma slideRun_sdk context w key : sdk (slideRun context w key) = sdk w.
Proof.
  unfold slideRun.
  destruct (String.eqb key "viewpoint").
  { destruct (SlideAnimator.embedded context); reflexivity. }
  destruct (String.eqb key "timeSlider").
  { destruct (SlideAnimator.embedded context); reflexivity. }
  destruct (String.eqb key "layerVisibility").
  { unfold SlideAnimator.toggleLayerVisibility.
    destruct (get _ "layerVisibility") as [[]|]; reflexivity. }
  destruct (String.eqb key "trackRenderer").
  { unfold SlideAnimator.toggleTrackRenderer.
    destruct (get _ "trackRenderer") as [[]|]; try reflexivity;
      destruct (get _ "timeSlider") as [[]|]; try reflexivity;
      cbn [noteCall layers sdk];
      destruct (find _ _); try reflexivity;
      destruct (removeThrows (sdk w)), (cloneThrows (sdk w)),
        (addThrows (sdk w)); reflexivity. }
  unfold SlideAnimator.dispatchEntry.
  destruct (SlideAnimator.missing _); [reflexivity|].
  destruct (_ && _); [reflexivity|].
  apply (tryCall_frame sdk); try reflexivity.
  intros h c w' T. unfold SlideAnimator.choreographyHandlers in T.
  repeat match type of T with
         | context [String.eqb ?a ?b] => destruct (String.eqb a b)
         end; inversion T; subst; cbn [body].
  - reflexivity.
  - reflexivity.
  - unfold SlideAnimator.toggleLayerVisibility.
    destruct (get _ "layerVisibility") as [[]|]; reflexivity.
  - unfold SlideAnimator.toggleTrackRenderer.
    destruct (get _ "trackRenderer") as [[]|]; try reflexivity;
      destruct (get _ "timeSlider") as [[]|]; try reflexivity;
      destruct (find _ _); try reflexivity;
      destruct (removeThrows (sdk w')), (cloneThrows (sdk w')),
        (addThrows (sdk w')); reflexivity.
Qed.

Lemma slideRun_layers context w0 w key :
  sdk w = sdk w0 ->
  layers (slideRun context w key) = layerStep context w0 (layers w) key.
Proof.
  intros S. unfold slideRun, layerStep.
  destruct (String.eqb key "viewpoint") eqn:E1.
  { apply String.eqb_eq in E1. subst key. cbn [String.eqb Ascii.eqb Bool.eqb].
    destruct (SlideAnimator.embedded context); reflexivity. }
  destruct (String.eqb key "timeSlider") eqn:E2.
  { apply String.eqb_eq in E2. subst key. cbn [String.eqb Ascii.eqb Bool.eqb].
    destruct (SlideAnimator.embedded context); reflexivity. }
  destruct (String.eqb key "layerVisibility") eqn:E3.
  { unfold SlideAnimator.toggleLayerVisibility.
    destruct (get _ "layerVisibility") as [[]|]; reflexivity. }
  destruct (String.eqb key "trackRenderer") eqn:E4.
  { unfold SlideAnimator.toggleTrackRenderer.
    destruct (get _ "trackRenderer") as [[]|]; try reflexivity;
      destruct (get _ "timeSlider") as [[]|]; try reflexivity;
      cbn [noteCall setLayers layers sdk]; rewrite S;
      destruct (find _ _); try reflexivity;
      destruct (removeThrows (sdk w0)), (cloneThrows (sdk w0)),
        (addThrows (sdk w0)); reflexivity. }
  unfold SlideAnimator.dispatchEntry.
  destruct (SlideAnimator.missing _); [reflexivity|].
  destruct (_ && _); [reflexivity|].
  unfold lookup, SlideAnimator.choreographyHandlers. rewrite E1, E2, E3, E4.
  destruct (mem key objectPrototypeFunctions).
  { cbn [tryCall]. destruct (callInherited false key); reflexivity. }
  destruct (String.eqb key "__proto__"); reflexivity.
Qed.

Lemma toggleTrackRenderer_own_layers context w :
  layers (fst (SlideAnimator.toggleTrackRenderer context (setLayers (layers w) w)))
  = layers (fst (SlideAnimator.toggleTrackRenderer context w)).
Proof.
  unfold SlideAnimator.toggleTrackRenderer.
  destruct (get _ "trackRenderer") as [[]|]; try reflexivity;
    destruct (get _ "timeSlider") as [[]|]; try reflexivity;
    cbn [setLayers layers sdk];
    destruct (find _ _); try reflexivity;
    destruct (removeThrows (sdk w)), (cloneThrows (sdk w)),
      (addThrows (sdk w)); reflexivity.
Qed.

Lemma slide_fold_layers context w0 keys : forall w,
  sdk w = sdk w0 ->
  layers (fold_left (slideRun context) keys w)
  = fold_left (layerStep context w0) keys (layers w).
Proof.
  induction keys as [|k keys IH]; intros w S; [reflexivity|].
  cbn [fold_left]. rewrite IH.
  - rewrite (slideRun_layers context w0 w k S). reflexivity.
  - rewrite slideRun_sdk. exact S.
Qed.

Lemma dispatchEntry_timeSlider context w key :
  timeSlider (SlideAnimator.dispatchEntry context w key) = timeSlider w.
Proof.
  unfold SlideAnimator.dispatchEntry.
  destruct (SlideAnimator.missing _); [reflexivity|].
  destruct (_ && _); [reflexivity|].
  apply (tryCall_frame timeSlider); try reflexivity.
  intros h c w' T. exact (slide_handlers_timeSlider key h c w' T).
Qed.

Lemma slide_fold_run context keys w :
  fold_left (SlideAnimator.dispatchEntry context) keys w
  = fold_left (slideRun context) keys w.
Proof. apply fold_left_ext_step. apply dispatchEntry_run. Qed.

End DispatchEffects.

(* ================================================================= *)
(** * A throwing handler does not stop the loop *)

Section ExceptionIsolation.

Lemma get_mem (sd : Slide) key :
  mem key (map fst sd) = false <-> get sd key = None.
Proof.
  unfold mem. induction sd as [|[k v] sd IH]; cbn [map fst existsb get].
  - split; reflexivity.
  - rewrite (String.eqb_sym key k). destruct (String.eqb k key); cbn [orb].
    + split; discriminate.
    + exact IH.
Qed.

Lemma fold_left_single {A : Type} (f : A -> string -> A) key keys :
  NoDup keys ->
  forall a,
  (forall a' k, In k keys -> k <> key -> f a' k = a') ->
  fold_left f keys a = if mem key keys then f a key else a.
Proof.
  unfold mem. induction keys as [|k keys IH]; intros D a H; [reflexivity|].
  inversion D as [|? ? Nin D']; subst. cbn [fold_left existsb].
  rewrite (String.eqb_sym key k).
  destruct (String.eqb k key) eqn:E.
  - apply String.eqb_eq in E. subst k. cbn [orb].
    rewrite (IH D').
    + destruct (existsb (String.eqb key) keys) eqn:X; [| reflexivity].
      exfalso. apply Nin. apply existsb_exists in X. destruct X as (x & Hin & Ex).
      apply String.eqb_eq in Ex. now subst.
    + intros a' k Hin. apply H. right. exact Hin.
  - cbn [orb]. apply String.eqb_neq in E.
    rewrite (H a k (or_introl eq_refl) E). apply (IH D').
    intros a' k' Hin. apply H. right. exact Hin.
Qed.

(** C6.  In both dispatchers, when the handler found for a key throws, the
    exception is caught in the loop and logged, and the loop goes on over
    the remaining keys exactly as it would have.  Every remaining key with
    a registered handler (that is not suppressed) has its handler run on the
    world as it then stands, with its effect: after a throw in the scroll
    animator a later "timeSlider" key still writes the slider and a later
    "viewpoint" key still moves the camera, and after a throw in the slide
    animator the later layer handlers still change the layers and a later
    "viewpoint" key still moves the camera. *)
Theorem dispatch_continues_after_throw :
  (forall before k v after next p w h thrown,
      let cur := before ++ (k, v) :: after in
      let context := {| ScrollAnimator.slideCurrent := cur;
                        ScrollAnimator.slideNext := next;
                        ScrollAnimator.progress := p |} in
      let eligible key :=
        ScrollAnimator.isFunction (lookup ScrollAnimator.choreographyHandlers key) in
      let reached :=
        fold_left (ScrollAnimator.dispatchKey context)
                  (filter eligible (map fst before)) w in
      ScrollAnimator.choreographyHandlers k = Some h ->
      body h context (noteCall k (Registered (name h)) reached) = (thrown, Throw) ->
      let final := ScrollAnimator.scrollAnimation cur next p w in
      final = fold_left (ScrollAnimator.dispatchKey context)
                        (filter eligible (map fst after))
                        (consoleError (ErrorProcessing k) thrown)
      /\ In (ErrorProcessing k) (errors final)
      /\ invoked final = invoked thrown ++ flat_map scrollCalls (map fst after)
      /\ (forall k' h',
          In k' (map fst after) ->
          ScrollAnimator.choreographyHandlers k' = Some h' ->
          In (k', Registered (name h')) (flat_map scrollCalls (map fst after)))
      /\ final = fold_left (scrollRun context) (map fst after)
                           (consoleError (ErrorProcessing k) thrown)
      /\ (NoDup (map fst after) -> In "timeSlider" (map fst after) ->
          timeSlider final
          = timeSlider (fst (ScrollAnimator.interpolateTimeSlider context thrown)))
      /\ (NoDup (map fst after) -> In "viewpoint" (map fst after) ->
          goToCalls final
          = goToCalls (fst (ScrollAnimator.interpolateViewpoint context thrown)))
      /\ layers final = layers thrown)
  /\
  (forall before k v after e w h thrown,
      let sd := before ++ (k, v) :: after in
      let context := {| SlideAnimator.slideData := sd;
                        SlideAnimator.embedded := e |} in
      let reached :=
        fold_left (SlideAnimator.dispatchEntry context) (map fst before) w in
      SlideAnimator.choreographyHandlers k = Some h ->
      e && mem k SlideAnimator.NON_EMBED_EXCLUDE_KEYS = false ->
      body h context (noteCall k (Registered (name h)) reached) = (thrown, Throw) ->
      let final := SlideAnimator.slideAnimation sd e w in
      final = fold_left (SlideAnimator.dispatchEntry context) (map fst after)
                        (consoleError (ErrorProcessing k) thrown)
      /\ In (ErrorProcessing k) (errors final)
      /\ invoked final = invoked thrown ++ flat_map (slideCalls e) (map fst after)
      /\ (forall k' h',
          In k' (map fst after) ->
          SlideAnimator.choreographyHandlers k' = Some h' ->
          e && mem k' SlideAnimator.NON_EMBED_EXCLUDE_KEYS = false ->
          In (k', Registered (name h')) (flat_map (slideCalls e) (map fst after)))
      /\ final = fold_left (slideRun context) (map fst after)
                           (consoleError (ErrorProcessing k) thrown)
      /\ layers final
         = fold_left (layerStep context thrown) (map fst after) (layers thrown)
      /\ (e = false -> NoDup (map fst after) -> In "viewpoint" (map fst after) ->
          goToCalls final
          = goToCalls (fst (SlideAnimator.toggleViewpoint context thrown)))
      /\ timeSlider final = timeSlider thrown).
Proof.
  split.
  - intros before k v after next p w h thrown cur context eligible reached T B final.
    assert (L : lookup ScrollAnimator.choreographyHandlers k = Own h)
      by now apply lookup_Own.
    assert (F : final = fold_left (ScrollAnimator.dispatchKey context)
                          (filter eligible (map fst after))
                          (consoleError (ErrorProcessing k) thrown)).
    { subst final. unfold ScrollAnimator.scrollAnimation. fold context. fold eligible.
      subst cur. rewrite map_app. cbn [map fst]. rewrite filter_split.
      unfold eligible at 2. rewrite L. cbn [ScrollAnimator.isFunction].
      rewrite !fold_left_app. cbn [fold_left]. fold reached.
      unfold ScrollAnimator.dispatchKey at 2. rewrite L. cbn [tryCall].
      rewrite B. reflexivity. }
    destruct (dispatchKey_fold_trace context (map fst after)
                (consoleError (ErrorProcessing k) thrown)) as [I [l E]].
    fold eligible in I, E. rewrite <- F in I, E.
    assert (G : final = fold_left (scrollStep context) (map fst after)
                          (consoleError (ErrorProcessing k) thrown)).
    { rewrite F. unfold eligible. rewrite fold_left_filter. reflexivity. }
    split; [exact F|]. split; [| split; [| split; [| split; [| split; [| split]]]]].
    + rewrite E. cbn [errors consoleError]. rewrite !in_app_iff. simpl. auto.
    + exact I.
    + intros k' h' Hin T'. apply in_flat_map. exists k'. split; [exact Hin|].
      unfold scrollCalls, callsOf. rewrite (proj2 (lookup_Own _ _ _) T').
      left. reflexivity.
    + rewrite G. apply fold_left_ext_step. apply scrollStep_run.
    + intros D Hin. rewrite G, (scroll_fold_timeSlider context _ D).
      rewrite (proj2 (mem_In _ _) Hin).
      apply interpolateTimeSlider_local. reflexivity.
    + intros D Hin. rewrite G.
      rewrite (fold_left_append goToCalls _ _ _
                 (fun w k => scrollStep_goTo cur next p w k)).
      rewrite (flat_map_single "viewpoint" _ _ D), (proj2 (mem_In _ _) Hin).
      unfold context. rewrite interpolateViewpoint_goTo. reflexivity.
    + rewrite G. rewrite (fold_left_frame layers (scrollStep context)).
      * reflexivity.
      * intros w' k'. unfold scrollStep.
        destruct (ScrollAnimator.isFunction _); [| reflexivity].
        apply (tryCall_frame layers); try reflexivity.
        intros h' c w'' T'. exact (scroll_handlers_layers k' h' c w'' T').
  - intros before k v after e w h thrown sd context reached T X B final.
    assert (L : lookup SlideAnimator.choreographyHandlers k = Own h)
      by now apply lookup_Own.
    assert (F : final = fold_left (SlideAnimator.dispatchEntry context)
                          (map fst after)
                          (consoleError (ErrorProcessing k) thrown)).
    { subst final. unfold SlideAnimator.slideAnimation. fold context.
      subst sd. rewrite map_app. cbn [map fst].
      rewrite !fold_left_app. cbn [fold_left]. fold reached.
      unfold SlideAnimator.dispatchEntry at 2. rewrite L.
      cbn [SlideAnimator.missing SlideAnimator.embedded context]. rewrite X.
      cbn [tryCall]. rewrite B. reflexivity. }
    destruct (dispatchEntry_fold_trace context (map fst after)
                (consoleError (ErrorProcessing k) thrown)) as [I [l E]].
    rewrite <- F in I, E.
    split; [exact F|]. split; [| split; [| split; [| split; [| split; [| split]]]]].
    + rewrite E. cbn [errors consoleError]. rewrite !in_app_iff. simpl. auto.
    + exact I.
    + intros k' h' Hin T' X'. apply in_flat_map. exists k'. split; [exact Hin|].
      unfold slideCalls, callsOf. rewrite (proj2 (lookup_Own _ _ _) T').
      cbn [SlideAnimator.missing]. rewrite X'. left. reflexivity.
    + rewrite F. apply slide_fold_run.
    + rewrite F, slide_fold_run.
      rewrite (slide_fold_layers context thrown (map fst after)
                 (consoleError (ErrorProcessing k) thrown) eq_refl).
      reflexivity.
    + intros -> D Hin. rewrite F.
      rewrite (fold_left_append goToCalls _ _ _
                 (fun w k => dispatchEntry_goTo sd w k)).
      rewrite (flat_map_single "viewpoint" _ _ D), (proj2 (mem_In _ _) Hin).
      reflexivity.
    + rewrite F.
      rewrite (fold_left_frame timeSlider (SlideAnimator.dispatchEntry context));
        [ reflexivity | intros; apply dispatchEntry_timeSlider ].
Qed.


Lemma dispatch_continues_after_throw_witness :
  (ScrollAnimator.interpolateViewpoint
     {| ScrollAnimator.slideCurrent := Sample.slideNoCamera;
        ScrollAnimator.slideNext := Some Sample.slideB;
        ScrollAnimator.progress := 0.5 |}
     (noteCall "viewpoint" (Registered "interpolateViewpoint") Sample.world)
   = (noteCall "viewpoint" (Registered "interpolateViewpoint") Sample.world, Throw)
   /\ In (ErrorProcessing "viewpoint")
         (errors (ScrollAnimator.scrollAnimation Sample.slideNoCamera
                    (Some Sample.slideB) 0.5 Sample.world))
   /\ invoked (ScrollAnimator.scrollAnimation Sample.slideNoCamera
                 (Some Sample.slideB) 0.5 Sample.world)
      = [ ("viewpoint", Registered "interpolateViewpoint");
          ("timeSlider", Registered "interpolateTimeSlider") ]
   /\ timeSlider (ScrollAnimator.scrollAnimation Sample.slideNoCamera
                    (Some Sample.slideB) 0.5 Sample.world)
      = Some {| timeExtent := Some {| start := None;
                                      end_ := {| time := 1593648000000 |} |};
                playing := false;
                stopCalls := 1 |})
  /\
  (SlideAnimator.toggleLayerVisibility
     {| SlideAnimator.slideData := Sample.slideNoLayers;
        SlideAnimator.embedded := false |}
     (noteCall "layerVisibility" (Registered "toggleLayerVisibility") Sample.world)
   = (noteCall "layerVisibility" (Registered "toggleLayerVisibility") Sample.world,
      Throw)
   /\ In (ErrorProcessing "layerVisibility")
         (errors (SlideAnimator.slideAnimation Sample.slideNoLayers false Sample.world))
   /\ invoked (SlideAnimator.slideAnimation Sample.slideNoLayers false Sample.world)
      = [ ("layerVisibility", Registered "toggleLayerVisibility");
          ("viewpoint", Registered "toggleViewpoint") ]
   /\ goToCalls (SlideAnimator.slideAnimation Sample.slideNoLayers false Sample.world)
      = [ {| target := Some (VViewpoint Sample.viewpointA);
             animate := true; duration := 1000 |} ])
  /\
  (layers (SlideAnimator.slideAnimation Story.slideNullLayers true Sample.world)
   = [ {| title := "Basemap"; visible := true |};
       {| title := "Labels"; visible := true |};
       {| title := "Tracks"; visible := false |} ]).
Proof.
  split; [| split].
  - split; [reflexivity|].
    destruct (proj1 dispatch_continues_after_throw
                [] "viewpoint" VNull
                [("timeSlider", VTimeWindow Sample.year2020)]
                (Some Sample.slideB) 0.5 Sample.world
                {| name := "interpolateViewpoint";
                   body := ScrollAnimator.interpolateViewpoint |}
                (noteCall "viewpoint" (Registered "interpolateViewpoint") Sample.world)
                eq_refl eq_refl) as (_ & E & I & _ & _ & S & _).
    split; [exact E|]. split; [exact I|].
    etransitivity; [| reflexivity ].
    apply S; [ repeat constructor; simpl; tauto | simpl; auto ].
  - split; [reflexivity|].
    destruct (proj2 dispatch_continues_after_throw
                [] "layerVisibility" VNull
                [("viewpoint", VViewpoint Sample.viewpointA)]
                false Sample.world
                {| name := "toggleLayerVisibility";
                   body := SlideAnimator.toggleLayerVisibility |}
                (noteCall "layerVisibility" (Registered "toggleLayerVisibility")
                   Sample.world)
                eq_refl eq_refl eq_refl) as (_ & E & I & _ & _ & _ & G & _).
    split; [exact E|]. split; [exact I|].
    etransitivity; [| reflexivity ].
    apply G; [ reflexivity | repeat constructor; simpl; tauto | simpl; auto ].
  - destruct (proj2 dispatch_continues_after_throw
                [] "layerVisibility" VNull
                [ ("timeSlider", VTimeWindow Sample.year2020);
                  ("trackRenderer", VTrackRenderer Sample.renderer) ]
                true Sample.world
                {| name := "toggleLayerVisibility";
                   body := SlideAnimator.toggleLayerVisibility |}
                (noteCall "layerVisibility" (Registered "toggleLayerVisibility")
                   Sample.world)
                eq_refl eq_refl eq_refl) as (_ & _ & _ & _ & _ & L & _).
    etransitivity; [ exact L | reflexivity ].
Defined.

End ExceptionIsolation.

(* ================================================================= *)
(** * Suppression in embedded mode *)

Section Suppression.
Import SlideAnimator.

(** C8.  Called with [embedded = true], [slideAnimation] invokes nothing
    for the keys "viewpoint" and "timeSlider", makes no [goTo] call and
    leaves the time slider alone, while the handlers of "layerVisibility"
    and "trackRenderer" are invoked when the slide has these keys and do to
    the layers what [toggleLayerVisibility] and [toggleTrackRenderer] do.
    Called with [embedded = false], every key of the slide that has a
    registered handler has it invoked, and the slide's viewpoint is sent to
    the camera.  In both modes the world that results is the one the
    handlers themselves produce, key after key. *)
Theorem slideAnimation_embedded_suppression sd w :
  let calls e := flat_map (slideCalls e) (map fst sd) in
  (invoked (slideAnimation sd true w) = invoked w ++ calls true
   /\ (forall c, ~ In ("viewpoint", c) (calls true))
   /\ (forall c, ~ In ("timeSlider", c) (calls true))
   /\ goToCalls (slideAnimation sd true w) = goToCalls w
   /\ (In "layerVisibility" (map fst sd) ->
       In ("layerVisibility", Registered "toggleLayerVisibility") (calls true))
   /\ (In "trackRenderer" (map fst sd) ->
       In ("trackRenderer", Registered "toggleTrackRenderer") (calls true)))
  /\ (invoked (slideAnimation sd false w) = invoked w ++ calls false
      /\ forall key h,
          In key (map fst sd) -> choreographyHandlers key = Some h ->
          In (key, Registered (name h)) (calls false))
  /\ (forall e,
        slideAnimation sd e w
        = fold_left (slideRun {| slideData := sd; embedded := e |}) (map fst sd) w)
  /\ (forall e,
        layers (slideAnimation sd e w)
        = fold_left (layerStep {| slideData := sd; embedded := e |} w)
                    (map fst sd) (layers w))
  /\ (forall e lv,
        NoDup (map fst sd) ->
        get sd "layerVisibility" = Some (VLayerVisibility lv) ->
        get sd "trackRenderer" = None ->
        layers (slideAnimation sd e w)
        = setLayerVisibility (layersOff lv) false
            (setLayerVisibility (layersOn lv) true (layers w)))
  /\ (forall e,
        NoDup (map fst sd) ->
        get sd "layerVisibility" = None ->
        In "trackRenderer" (map fst sd) ->
        layers (slideAnimation sd e w)
        = layers (fst (toggleTrackRenderer {| slideData := sd; embedded := e |} w)))
  /\ timeSlider (slideAnimation sd true w) = timeSlider w
  /\ (NoDup (map fst sd) ->
      goToCalls (slideAnimation sd false w) = goToCalls w ++ slideCamera sd).
Proof.
  intros calls.
  assert (R : forall e,
             slideAnimation sd e w
             = fold_left (slideRun {| slideData := sd; embedded := e |})
                         (map fst sd) w).
  { intros e. unfold slideAnimation. apply slide_fold_run. }
  assert (Ls : forall e,
             layers (slideAnimation sd e w)
             = fold_left (layerStep {| slideData := sd; embedded := e |} w)
                         (map fst sd) (layers w)).
  { intros e. rewrite R. apply slide_fold_layers. reflexivity. }
  split; [ split; [| split; [| split; [| split; [| split]]]] |].
  - apply slideAnimation_trace.
  - intros c H. apply (in_flat_map_calls _ _ _ _ (slideCalls_key true)) in H.
    destruct H as [_ H]. exact H.
  - intros c H. apply (in_flat_map_calls _ _ _ _ (slideCalls_key true)) in H.
    destruct H as [_ H]. exact H.
  - apply slideAnimation_embedded_goTo.
  - intros H. apply in_flat_map. exists "layerVisibility". split; [exact H|].
    left. reflexivity.
  - intros H. apply in_flat_map. exists "trackRenderer". split; [exact H|].
    left. reflexivity.
  - split; [ split |].
    + apply slideAnimation_trace.
    + intros key h Hin T. apply in_flat_map. exists key. split; [exact Hin|].
      rewrite (registered_call key h T). left. reflexivity.
    + split; [exact R|]. split; [exact Ls|].
      split; [| split; [| split]].
      * intros e lv D G T. rewrite Ls.
        rewrite (fold_left_single _ "layerVisibility" _ D).
        -- assert (M : mem "layerVisibility" (map fst sd) = true).
           { destruct (mem "layerVisibility" (map fst sd)) eqn:M; [reflexivity|].
             apply get_mem in M. congruence. }
           rewrite M. unfold layerStep. cbn [String.eqb Ascii.eqb Bool.eqb].
           unfold toggleLayerVisibility. cbn [slideData]. rewrite G. reflexivity.
        -- intros ls k Hin Nk. unfold layerStep.
           apply String.eqb_neq in Nk. rewrite Nk.
           destruct (String.eqb k "trackRenderer") eqn:E; [| reflexivity].
           apply String.eqb_eq in E. subst k. exfalso.
           apply (proj2 (get_mem sd "trackRenderer")) in T.
           apply mem_In in Hin. congruence.
      * intros e D G Hin. rewrite Ls.
        rewrite (fold_left_single _ "trackRenderer" _ D).
        -- rewrite (proj2 (mem_In _ _) Hin). unfold layerStep.
           cbn [String.eqb Ascii.eqb Bool.eqb].
           apply toggleTrackRenderer_own_layers.
        -- intros ls k Hin' Nk. unfold layerStep.
           apply String.eqb_neq in Nk. rewrite Nk.
           destruct (String.eqb k "layerVisibility") eqn:E; [| reflexivity].
           apply String.eqb_eq in E. subst k. exfalso.
           apply (proj2 (get_mem sd "layerVisibility")) in G.
           apply mem_In in Hin'. congruence.
      * apply slide_timeSlider_frame.
      * intros D. unfold slideAnimation.
        rewrite (fold_left_append goToCalls _ _ _
                   (fun w k => dispatchEntry_goTo sd w k)).
        rewrite (flat_map_single "viewpoint" _ _ D). f_equal.
        unfold slideCamera.
        destruct (mem "viewpoint" (map fst sd)) eqn:M.
        -- destruct (get sd "viewpoint") eqn:G; [reflexivity|].
           apply get_mem in G. congruence.
        -- rewrite (proj1 (get_mem _ _) M). reflexivity.
Qed.

Lemma slideAnimation_embedded_suppression_witness :
  In "layerVisibility" (map fst Sample.slideA)
  /\ In "trackRenderer" (map fst Sample.slideA)
  /\ invoked (SlideAnimator.slideAnimation Sample.slideA true Sample.world)
     = [ ("layerVisibility", Registered "toggleLayerVisibility");
         ("trackRenderer", Registered "toggleTrackRenderer") ]
  /\ goToCalls (SlideAnimator.slideAnimation Sample.slideA true Sample.world) = []
  /\ invoked (SlideAnimator.slideAnimation Sample.slideA false Sample.world)
     = [ ("viewpoint", Registered "toggleViewpoint");
         ("timeSlider", Registered "toggleTimeSlider");
         ("layerVisibility", Registered "toggleLayerVisibility");
         ("trackRenderer", Registered "toggleTrackRenderer") ]
  /\ layers (SlideAnimator.slideAnimation Sample.slideA true Sample.world)
     = [ {| title := "Basemap"; visible := true |};
         {| title := "Labels"; visible := false |};
         {| title := "Tracks"; visible := true |} ]
  /\ layers (SlideAnimator.slideAnimation Sample.slideA false Sample.world)
     = [ {| title := "Basemap"; visible := true |};
         {| title := "Labels"; visible := false |};
         {| title := "Tracks"; visible := true |} ]
  /\ goToCalls (SlideAnimator.slideAnimation Sample.slideA false Sample.world)
     = [ {| target := Some (VViewpoint Sample.viewpointA);
            animate := true; duration := 1000 |} ]
  /\ timeSlider (SlideAnimator.slideAnimation Sample.slideA true Sample.world)
     = timeSlider Sample.world.
Proof.
  assert (L : In "layerVisibility" (map fst Sample.slideA))
    by (simpl; auto).
  assert (T : In "trackRenderer" (map fst Sample.slideA))
    by (simpl; auto).
  assert (D : NoDup (map fst Sample.slideA))
    by (repeat constructor; simpl; intuition discriminate).
  destruct (slideAnimation_embedded_suppression Sample.slideA Sample.world)
    as ((I & _ & _ & G & _ & _) & (I' & _) & _ & Ls & _ & _ & Ts & C).
  split; [exact L|]. split; [exact T|].
  split; [rewrite I; reflexivity|].
  split; [rewrite G; reflexivity|].
  split; [rewrite I'; reflexivity|].
  split; [rewrite Ls; reflexivity|].
  split; [rewrite Ls; reflexivity|].
  split; [rewrite (C D); reflexivity|].
  exact Ts.
Defined.

End Suppression.


(* ================================================================= *)
(** * The map animator's listeners *)

Section Listeners.
Import MapAnimator.

Lemma option_Z_eqb (a : Z) (b : option Z) :
  match b with Some j => (a =? j)%Z | None => false end = true <-> b = Some a.
Proof.
  destruct b as [j|]; [| split; discriminate ].
  rewrite Z.eqb_eq. split; [ intros ->; reflexivity | intros E; now inversion E ].
Qed.

(** X18.  Slide-change detection.  A controller message for a slide of the
    choreography always runs the scroll animation, and runs the slide
    animation after it only when the slide differs from the one of the last
    message; the slide is then remembered, so that the same message
    delivered again runs the scroll animation alone. *)
Theorem onMessage_slide_change event st cur :
  PostMessage.source event = "storymap-controller" ->
  entry (choreographyData st) (PostMessage.slide (PostMessage.payload event))
  = Some cur ->
  let payload := PostMessage.payload event in
  let next := entry (choreographyData st) (successor (PostMessage.slide payload)) in
  let p := toNumber (PostMessage.progress payload) in
  let scroll := ScrollAnimator.scrollAnimation cur next p in
  let result := onMessage event st in
  snd result = Normal
  /\ isEmbedded (fst result) = PostMessage.isEmbedded payload
  /\ lastSlideIndex (fst result) = PostMessage.slide payload
  /\ choreographyData (fst result) = choreographyData st
  /\ (lastSlideIndex st = PostMessage.slide payload ->
      world (fst result) = scroll (world st))
  /\ (lastSlideIndex st <> PostMessage.slide payload ->
      world (fst result)
      = SlideAnimator.slideAnimation cur (PostMessage.isEmbedded payload)
          (scroll (world st)))
  /\ world (fst (onMessage event (fst result))) = scroll (world (fst result)).
Proof.
  intros S E payload next p scroll result.
  assert (I : exists i, PostMessage.slide payload = Some i).
  { subst payload. destruct (PostMessage.slide (PostMessage.payload event));
      [eauto | discriminate]. }
  destruct I as [i I].
  assert (R : forall s,
             choreographyData s = choreographyData st ->
             onMessage event s
             = if match lastSlideIndex s with
                  | Some j => (i =? j)%Z
                  | None => false
                  end
               then ({| isEmbedded := PostMessage.isEmbedded payload;
                        lastSlideIndex := lastSlideIndex s;
                        choreographyData := choreographyData s;
                        world := scroll (world s) |}, Normal)
               else ({| isEmbedded := PostMessage.isEmbedded payload;
                        lastSlideIndex := PostMessage.slide payload;
                        choreographyData := choreographyData s;
                        world := SlideAnimator.slideAnimation cur
                                   (PostMessage.isEmbedded payload)
                                   (scroll (world s)) |}, Normal)).
  { intros s D. unfold onMessage. rewrite S, D.
    change (String.eqb "storymap-controller" "storymap-controller") with true.
    cbn [negb]. cbv zeta. rewrite E.
    subst payload next p scroll. cbv zeta in I. rewrite I. reflexivity. }
  subst result. rewrite (R st eq_refl).
  destruct (match lastSlideIndex st with Some j => (i =? j)%Z | None => false end)
    eqn:C; cbn [fst snd isEmbedded lastSlideIndex choreographyData world].
  - apply option_Z_eqb in C.
    split; [reflexivity|]. split; [reflexivity|]. split; [congruence|].
    split; [reflexivity|]. split; [reflexivity|]. split; [congruence|].
    match goal with |- context [onMessage event ?s] => rewrite (R s eq_refl) end.
    cbn [lastSlideIndex world]. rewrite C, Z.eqb_refl.
    reflexivity.
  - assert (N : lastSlideIndex st <> Some i).
    { intros X. apply option_Z_eqb in X. congruence. }
    split; [reflexivity|]. split; [reflexivity|]. split; [reflexivity|].
    split; [reflexivity|]. split; [congruence|]. split; [reflexivity|].
    match goal with |- context [onMessage event ?s] => rewrite (R s eq_refl) end.
    cbn [lastSlideIndex world]. rewrite I, Z.eqb_refl.
    reflexivity.
Qed.

Lemma onMessage_slide_change_witness :
  let first :=
    onMessage (PostMessage.ofTracker (ScrollTracker.Progress 0 0.25))
      (initial Story.choreography Sample.world) in
  let second :=
    onMessage (PostMessage.ofTracker (ScrollTracker.Progress 0 0.5)) (fst first) in
  invoked (world (fst first))
  = [ ("viewpoint", Registered "interpolateViewpoint");
      ("timeSlider", Registered "interpolateTimeSlider");
      ("layerVisibility", Registered "toggleLayerVisibility");
      ("trackRenderer", Registered "toggleTrackRenderer") ]
  /\ lastSlideIndex (fst first) = Some 0%Z
  /\ world (fst second)
     = ScrollAnimator.scrollAnimation Sample.slideA (Some Sample.slideB) 0.5
         (world (fst first)).
Proof.
  cbv zeta. split; [reflexivity|]. split; [reflexivity|].
  destruct (onMessage_slide_change
              (PostMessage.ofTracker (ScrollTracker.Progress 0 0.5))
              (fst (onMessage (PostMessage.ofTracker (ScrollTracker.Progress 0 0.25))
                      (initial Story.choreography Sample.world)))
              Sample.slideA eq_refl eq_refl) as (_ & _ & _ & _ & H & _).
  apply H. reflexivity.
Defined.

(** X19.  A message from another source changes nothing.  A controller
    message whose slide is absent or is not an index of the choreography
    still sets the embedded flag and then fails with the TypeError of
    [Object.keys(undefined)]: no handler runs and the remembered slide stays.
    The tracker's handshake is such a message. *)
Theorem onMessage_without_slide st :
  (forall event,
      PostMessage.source event <> "storymap-controller" ->
      onMessage event st = (st, Normal))
  /\ (forall event,
        PostMessage.source event = "storymap-controller" ->
        entry (choreographyData st)
              (PostMessage.slide (PostMessage.payload event)) = None ->
        onMessage event st
        = ({| isEmbedded := PostMessage.isEmbedded (PostMessage.payload event);
              lastSlideIndex := lastSlideIndex st;
              choreographyData := choreographyData st;
              world := world st |}, Throw))
  /\ onMessage (PostMessage.ofTracker ScrollTracker.Handshake) st
     = ({| isEmbedded := true;
           lastSlideIndex := lastSlideIndex st;
           choreographyData := choreographyData st;
           world := world st |}, Throw)
  /\ (forall i progress,
        ~ (0 <= i < Z.of_nat (List.length (choreographyData st)))%Z ->
        snd (onMessage (PostMessage.ofTracker (ScrollTracker.Progress i progress)) st)
        = Throw).
Proof.
  split; [| split; [| split]].
  - intros event S. unfold onMessage.
    apply String.eqb_neq in S. rewrite S. reflexivity.
  - intros event S E. unfold onMessage. rewrite S, E. reflexivity.
  - reflexivity.
  - intros i progress V. unfold onMessage. cbn [PostMessage.ofTracker
      PostMessage.source PostMessage.payload PostMessage.slide].
    change (String.eqb "storymap-controller" "storymap-controller") with true.
    cbn [negb]. unfold entry at 1.
    destruct (i <? 0)%Z eqn:L; [reflexivity|]. apply Z.ltb_ge in L.
    destruct (nth_error (choreographyData st) (Z.to_nat i)) eqn:N; [| reflexivity].
    exfalso. apply V. split; [exact L|].
    assert (Z.to_nat i < List.length (choreographyData st))%nat
      by (apply nth_error_Some; congruence).
    lia.
Qed.

Lemma onHashChange_frame hash st :
  isEmbedded (onHashChange hash st) = isEmbedded st
  /\ lastSlideIndex (onHashChange hash st) = lastSlideIndex st
  /\ choreographyData (onHashChange hash st) = choreographyData st.
Proof.
  unfold onHashChange.
  destruct (JsString.parseInt _) as [i|]; [| auto ].
  destruct (entry _ _); auto.
Qed.

(** X20.  Hash navigation.  The hash listener leaves the embedded flag and
    the remembered slide alone and never moves the camera in an embed.  A
    hash "#n" with [n] an index of the choreography runs the slide animation
    of entry [n]; a hash that is no number, or a number that is no index,
    changes nothing. *)
Theorem onHashChange_navigation hash st :
  let st' := onHashChange hash st in
  isEmbedded st' = isEmbedded st
  /\ lastSlideIndex st' = lastSlideIndex st
  /\ choreographyData st' = choreographyData st
  /\ (isEmbedded st = true -> goToCalls (world st') = goToCalls (world st))
  /\ timeSlider (world st') = timeSlider (world st)
  /\ (forall n, (n < 2 ^ 53)%N -> hash = ("#" ++ decimal n)%string ->
        world st'
        = match nth_error (choreographyData st) (N.to_nat n) with
          | Some currentSlide =>
              SlideAnimator.slideAnimation currentSlide (isEmbedded st) (world st)
          | None => world st
          end)
  /\ (JsString.parseInt (JsString.substring1 hash) = None -> st' = st)
  /\ (forall i, JsString.parseInt (JsString.substring1 hash) = Some i ->
        ~ (0 <= i < Z.of_nat (List.length (choreographyData st)))%Z -> st' = st).
Proof.
  intros st'. subst st'.
  destruct (onHashChange_frame hash st) as (A & B & C).
  split; [exact A|]. split; [exact B|]. split; [exact C|].
  split; [| split; [| split; [| split]]].
  - intros Em. unfold onHashChange.
    destruct (JsString.parseInt _) as [i|]; [| reflexivity ].
    destruct (entry _ _); [| reflexivity ].
    cbn [world]. rewrite Em. apply slideAnimation_embedded_goTo.
  - unfold onHashChange.
    destruct (JsString.parseInt _) as [i|]; [| reflexivity ].
    destruct (entry _ _); [| reflexivity ].
    cbn [world]. apply slide_timeSlider_frame.
  - intros n _ ->. unfold onHashChange. cbn [JsString.substring1 String.append].
    rewrite parseInt_decimal_alone.
    unfold entry. destruct (Z.of_N n <? 0)%Z eqn:L; [ apply Z.ltb_lt in L; lia |].
    replace (Z.to_nat (Z.of_N n)) with (N.to_nat n) by lia.
    destruct (nth_error _ _); reflexivity.
  - intros P. unfold onHashChange. rewrite P. reflexivity.
  - intros i P V. unfold onHashChange. rewrite P. unfold entry.
    destruct (i <? 0)%Z eqn:L; [reflexivity|]. apply Z.ltb_ge in L.
    destruct (nth_error (choreographyData st) (Z.to_nat i)) eqn:N; [| reflexivity].
    exfalso. apply V. split; [exact L|].
    assert (Z.to_nat i < List.length (choreographyData st))%nat
      by (apply nth_error_Some; congruence).
    lia.
Qed.

Lemma onHashChange_navigation_witness :
  world (onHashChange "#1" (initial Story.choreography Sample.world))
  = SlideAnimator.slideAnimation Sample.slideB false Sample.world
  /\ onHashChange "#7" (initial Story.choreography Sample.world)
     = initial Story.choreography Sample.world
  /\ onHashChange "#intro" (initial Story.choreography Sample.world)
     = initial Story.choreography Sample.world.
Proof.
  destruct (onHashChange_navigation "#1" (initial Story.choreography Sample.world))
    as (_ & _ & _ & _ & _ & H & _).
  split; [ exact (H 1%N eq_refl eq_refl) |].
  split; reflexivity.
Defined.

End Listeners.

(* ================================================================= *)
(** * The tracker and the map animator together *)

Section EndToEnd.
Import MapAnimator.

Lemma scrollCalls_no_toggle key c :
  In c (scrollCalls key) -> ~ cameraOrTimeToggle c.
Proof.
  unfold scrollCalls, callsOf, lookup, ScrollAnimator.choreographyHandlers,
    cameraOrTimeToggle.
  destruct (String.eqb key "viewpoint");
    [ simpl; intros [<-|[]] [H|H]; discriminate |].
  destruct (String.eqb key "timeSlider");
    [ simpl; intros [<-|[]] [H|H]; discriminate |].
  destruct (mem key objectPrototypeFunctions);
    [ simpl; intros [<-|[]] [H|H]; discriminate |].
  destruct (String.eqb key "__proto__"); simpl; intros [].
Qed.

Lemma slideCalls_embedded_no_toggle key c :
  In c (slideCalls true key) -> ~ cameraOrTimeToggle c.
Proof.
  unfold slideCalls, callsOf, lookup, SlideAnimator.choreographyHandlers,
    SlideAnimator.NON_EMBED_EXCLUDE_KEYS, mem, cameraOrTimeToggle.
  cbn [existsb andb].
  destruct (String.eqb key "viewpoint"); [ simpl; intros [] |].
  destruct (String.eqb key "timeSlider"); [ simpl; intros [] |].
  destruct (String.eqb key "layerVisibility");
    [ simpl; intros [<-|[]] [H|H]; discriminate |].
  destruct (String.eqb key "trackRenderer");
    [ simpl; intros [<-|[]] [H|H]; discriminate |].
  destruct (existsb (String.eqb key) objectPrototypeFunctions);
    [ simpl; intros [<-|[]] [H|H]; discriminate |].
  destruct (String.eqb key "__proto__"); simpl; intros [].
Qed.

Lemma onMessage_tracker m a :
  isEmbedded (fst (onMessage (PostMessage.ofTracker m) a)) = true
  /\ exists calls,
       invoked (world (fst (onMessage (PostMessage.ofTracker m) a)))
       = invoked (world a) ++ calls
       /\ forall c, In c calls -> ~ cameraOrTimeToggle c.
Proof.
  destruct m as [|i p].
  - split; [reflexivity|]. exists []. simpl. rewrite app_nil_r. auto.
  - unfold onMessage. cbn [PostMessage.ofTracker PostMessage.source
      PostMessage.payload PostMessage.slide PostMessage.isEmbedded
      PostMessage.progress].
    change (String.eqb "storymap-controller" "storymap-controller") with true.
    cbn [negb].
    destruct (entry (choreographyData a) (Some i)) as [cur|].
    2:{ split; [reflexivity|]. exists []. simpl. rewrite app_nil_r. auto. }
    destruct (match lastSlideIndex a with Some j => (i =? j)%Z | None => false end);
      cbn [fst isEmbedded world]; (split; [reflexivity|]).
    + rewrite scrollAnimation_trace. eexists. split; [reflexivity|].
      intros c H. apply in_flat_map in H. destruct H as (k & _ & H).
      exact (scrollCalls_no_toggle k c H).
    + rewrite slideAnimation_trace, scrollAnimation_trace, <- app_assoc.
      eexists. split; [reflexivity|].
      intros c H. apply in_app_or in H.
      destruct H as [H|H]; apply in_flat_map in H; destruct H as (k & _ & H).
      * exact (scrollCalls_no_toggle k c H).
      * exact (slideCalls_embedded_no_toggle k c H).
Qed.

Lemma deliver_tracker ms : forall a,
  (ms <> [] \/ isEmbedded a = true ->
   isEmbedded (deliver a (map PostMessage.ofTracker ms)) = true)
  /\ exists calls,
       invoked (world (deliver a (map PostMessage.ofTracker ms)))
       = invoked (world a) ++ calls
       /\ forall c, In c calls -> ~ cameraOrTimeToggle c.
Proof.
  induction ms as [|m ms IH]; intros a.
  - split; [ intros [H|H]; [congruence | exact H] |].
    exists []. simpl. rewrite app_nil_r. auto.
  - destruct (onMessage_tracker m a) as (E & c1 & I1 & N1).
    destruct (IH (fst (onMessage (PostMessage.ofTracker m) a)))
      as (E' & c2 & I2 & N2).
    change (deliver a (map PostMessage.ofTracker (m :: ms)))
      with (deliver (fst (onMessage (PostMessage.ofTracker m) a))
              (map PostMessage.ofTracker ms)).
    split; [ intros _; apply E'; right; exact E |].
    exists (c1 ++ c2). rewrite I2, I1, <- app_assoc. split; [reflexivity|].
    intros c H. apply in_app_or in H. destruct H; auto.
Qed.

(** X21.  The tracker and the map animator agree on who moves the camera.
    Whatever the tracker posts over any sequence of callbacks, delivering
    these messages leaves the map animator in embedded mode (as soon as there
    is one message), and the slide animations they trigger never call
    [toggleViewpoint] or [toggleTimeSlider]: camera and time are driven by
    the scroll animation alone. *)
Theorem tracker_messages_embed st evs a :
  let a' := deliver a (map PostMessage.ofTracker (posted st evs)) in
  (posted st evs <> [] -> isEmbedded a' = true)
  /\ exists calls,
       invoked (world a') = invoked (world a) ++ calls
       /\ forall c, In c calls -> ~ cameraOrTimeToggle c.
Proof.
  intros a'. subst a'.
  destruct (deliver_tracker (posted st evs) a) as (E & calls & I & N).
  split; [ intros H; apply E; left; exact H |].
  exists calls. auto.
Qed.

Lemma tracker_messages_embed_witness :
  let evs :=
    [ ScrollTracker.Scroll 1000 Story.panels false;
      ScrollTracker.DockingMutation true 1000;
      ScrollTracker.IframeFound;
      ScrollTracker.Scroll 1100 Story.panels true;
      ScrollTracker.Scroll 1200 Story.panels true ] in
  let a' :=
    deliver (initial Story.choreography Sample.world)
      (map PostMessage.ofTracker (posted (ScrollTracker.initial 0) evs)) in
  posted (ScrollTracker.initial 0) evs
  = [ ScrollTracker.Handshake; ScrollTracker.Progress 0 0.25;
      ScrollTracker.Progress 0 0.5 ]
  /\ isEmbedded a' = true
  /\ invoked (world a')
     = [ ("viewpoint", Registered "interpolateViewpoint");
         ("timeSlider", Registered "interpolateTimeSlider");
         ("layerVisibility", Registered "toggleLayerVisibility");
         ("trackRenderer", Registered "toggleTrackRenderer");
         ("viewpoint", Registered "interpolateViewpoint");
         ("timeSlider", Registered "interpolateTimeSlider") ]
  /\ List.length (goToCalls (world a')) = 2%nat.
Proof.
  cbv zeta. split; [reflexivity|]. split.
  - apply (tracker_messages_embed (ScrollTracker.initial 0)
             [ ScrollTracker.Scroll 1000 Story.panels false;
               ScrollTracker.DockingMutation true 1000;
               ScrollTracker.IframeFound;
               ScrollTracker.Scroll 1100 Story.panels true;
               ScrollTracker.Scroll 1200 Story.panels true ]
             (initial Story.choreography Sample.world)).
    discriminate.
  - split; reflexivity.
Defined.

End EndToEnd.

(* ================================================================= *)
(** * The time slider at progress 0 *)

Section TimeAtZero.
Import ScrollAnimator.

Lemma is_zero_Prim2SF x : is_zero x = true -> exists s, Prim2SF x = S754_zero s.
Proof.
  rewrite is_zero_spec. destruct (Prim2SF x) as [s| | |]; try discriminate. eauto.
Qed.

Lemma Prim2SF_is_zero x s : Prim2SF x = S754_zero s -> is_zero x = true.
Proof. rewrite is_zero_spec. intros ->. reflexivity. Qed.

Lemma mul_zero_r d : is_finite d = true -> is_zero (d * 0) = true.
Proof.
  intros F. apply is_finite_spec in F. rewrite is_zero_spec, mul_spec.
  change (Prim2SF 0) with (S754_zero false).
  destruct (Prim2SF d); simpl in F; try contradiction; reflexivity.
Qed.

Lemma mul_zero_l z d :
  is_zero z = true -> is_finite d = true -> is_zero (z * d) = true.
Proof.
  intros Z F. apply is_finite_spec in F. apply is_zero_Prim2SF in Z.
  destruct Z as [s Z]. rewrite is_zero_spec, mul_spec, Z.
  destruct (Prim2SF d); simpl in F; try contradiction; reflexivity.
Qed.

Lemma div_zero_l z d :
  is_zero z = true -> is_nan d = false -> is_zero d = false ->
  is_zero (z / d) = true.
Proof.
  intros Z N D. apply is_nan_false in N. rewrite is_zero_spec in D.
  apply is_zero_Prim2SF in Z. destruct Z as [s Z].
  rewrite is_zero_spec, div_spec, Z.
  destruct (Prim2SF d); try congruence; try discriminate; reflexivity.
Qed.

Lemma sub_zero_zero a b :
  is_zero a = true -> is_zero b = true -> is_zero (a - b) = true.
Proof.
  intros A B. apply is_zero_Prim2SF in A, B.
  destruct A as [sa A], B as [sb B]. rewrite is_zero_spec, sub_spec, A, B.
  destruct sa, sb; reflexivity.
Qed.

Lemma Math_ceil_zero z : is_zero z = true -> Math_ceil z = z.
Proof.
  intros Z. apply is_zero_Prim2SF in Z. destruct Z as [s Z].
  unfold Math_ceil. rewrite Z. reflexivity.
Qed.

(** Adding a zero to a finite number gives the number back, or a zero when
    the number is a zero. *)
Lemma add_zero_r x z :
  is_finite x = true -> is_zero z = true ->
  x + z = x \/ (is_zero (x + z) = true /\ is_zero x = true).
Proof.
  intros F Z. apply is_finite_spec in F. apply is_zero_Prim2SF in Z.
  destruct Z as [s Z].
  destruct (Prim2SF x) as [sx| | |sx mx ex] eqn:X; simpl in F; try contradiction.
  - right. split; [| exact (Prim2SF_is_zero _ _ X) ].
    rewrite is_zero_spec, add_spec, X, Z. destruct sx, s; reflexivity.
  - left. apply Prim2SF_inj. rewrite add_spec, X, Z. reflexivity.
Qed.

Lemma eqb_zero_zero a b : is_zero a = true -> is_zero b = true -> (a =? b) = true.
Proof.
  intros A B. apply is_zero_Prim2SF in A, B.
  destruct A as [sa A], B as [sb B].
  rewrite FloatAxioms.eqb_spec, A, B. reflexivity.
Qed.

Lemma eqb_zero_r a b : (a =? b) = true -> is_zero b = true -> is_zero a = true.
Proof.
  intros E B. apply is_zero_Prim2SF in B. destruct B as [sb B].
  rewrite FloatAxioms.eqb_spec, B in E. rewrite is_zero_spec.
  unfold SFeqb in E.
  destruct (Prim2SF a) as [s|s| |s m e]; try reflexivity; simpl in E;
    try discriminate; destruct s; discriminate.
Qed.

Lemma leb_zero_zero a b y :
  is_zero a = true -> is_zero b = true -> (a <=? y) = (b <=? y).
Proof.
  intros A B. apply is_zero_Prim2SF in A, B.
  destruct A as [sa A], B as [sb B].
  rewrite !leb_spec, A, B. reflexivity.
Qed.

(** Two numbers neither of which is below the other are equal. *)
Lemma not_ltb_eqb x y :
  is_nan x = false -> is_nan y = false ->
  (x <? y) = false -> (y <? x) = false -> (y =? x) = true.
Proof.
  rewrite !is_nan_false, !ltb_spec, FloatAxioms.eqb_spec.
  unfold SFltb, SFeqb. intros Hx Hy.
  pose proof (SFcompare_total _ _ Hx Hy) as T.
  rewrite (SFcompare_antisym (Prim2SF x) (Prim2SF y)).
  destruct (SFcompare _ _) as [[]|]; simpl; congruence.
Qed.

Lemma eqb_refl_number x : is_nan x = false -> (x =? x) = true.
Proof.
  intros N. apply is_nan_false in N. rewrite FloatAxioms.eqb_spec.
  now apply SFeqb_refl.
Qed.

(** [Math.min] gives back its first argument, as [===] sees it, when that
    is not above the second. *)
Lemma Math_min_keeps x y :
  (x <=? y) = true -> (Math_min x y =? x) = true.
Proof.
  intros L. destruct (leb_not_nan _ _ L) as [Nx Ny].
  unfold Math_min. rewrite Nx, Ny. cbn [orb].
  destruct (x <? y) eqn:A; [ now apply eqb_refl_number |].
  destruct (y <? x) eqn:B.
  - pose proof (ltb_not_leb _ _ B). congruence.
  - destruct (get_sign x); [ now apply eqb_refl_number |].
    now apply not_ltb_eqb.
Qed.

Lemma Math_max_same x : is_nan x = false -> Math_max x x = x.
Proof.
  intros N. destruct (Math_max_choice x x N N); assumption.
Qed.

(** X22.  At progress 0 the time slider lands on the start of the window:
    for a window of finite bounds with [start <= end] and a positive finite
    step, the time [interpolateTimeSlider] computes and writes to the slider
    is [===] the start time, and so is the time value the [Date] written
    holds, the start being a time value. *)
Theorem clampedTime_at_progress_zero t :
  let start := timeSliderStart t in
  let stop := timeSliderEnd t in
  let step := stepMs (timeSliderStep t) (timeSliderUnit t) in
  (start <=? stop) = true ->
  is_finite start = true -> is_finite (stop - start) = true ->
  (0 <? step) = true -> is_finite step = true ->
  strict_eq (clampedTime t 0) start = true
  /\ (forall cur next w ts,
       get cur "timeSlider" = Some (VTimeWindow t) ->
       timeSlider w = Some ts ->
       timeSlider
         (fst (interpolateTimeSlider
                 {| slideCurrent := cur; slideNext := next; progress := 0 |} w))
       = Some {| timeExtent :=
                   Some {| Choreography.start := None;
                           end_ := newDate (clampedTime t 0) |};
                 playing := false;
                 stopCalls := S (stopCalls ts) |})
  /\ (TimeClip start = start ->
      strict_eq (time (newDate (clampedTime t 0))) start = true).
Proof.
  intros start stop step Hse Fs Fd Hpos Fstep.
  destruct (leb_not_nan _ _ Hse) as [Ns Ne].
  destruct (positive_nonzero _ Hpos) as [Nstep Zstep].
  assert (S0 : strict_eq (clampedTime t 0) start = true);
    [| split; [exact S0 | split]].
  - unfold strict_eq, clampedTime. fold start stop step. cbv zeta.
    unfold interpolate, snappedOffset.
    set (interpolatedTime := start + (stop - start) * 0).
    set (offset := interpolatedTime - start).
    assert (Zo : is_zero offset = true).
    { subst offset interpolatedTime.
      destruct (add_zero_r start _ Fs (mul_zero_r _ Fd)) as [-> | [Zi Zs]].
      - rewrite (sub_diag_finite _ Fs). reflexivity.
      - now apply sub_zero_zero. }
    assert (Zq : is_zero (offset / step) = true) by (now apply div_zero_l).
    rewrite (Math_ceil_zero _ Zq).
    assert (Zm : is_zero (offset / step * step) = true) by (now apply mul_zero_l).
    destruct (add_zero_r start _ Fs Zm) as [-> | [Zsn Zs]].
    + rewrite (Math_max_same _ Ns). now apply Math_min_keeps.
    + set (snappedTime := start + offset / step * step) in *.
      assert (Nsn : is_nan snappedTime = false).
      { apply add_finite_not_nan; [exact Fs|].
        apply mul_nonzero_not_nan; [| exact Fstep | exact Zstep].
        now apply div_nonzero_not_nan; [ apply sub_finite_not_nan;
          [ apply add_finite_not_nan; [exact Fs|];
            apply mul_finite_not_nan; [exact Fd | reflexivity] | exact Fs ] | | ]. }
      assert (Zmax : is_zero (Math_max snappedTime start) = true)
        by (destruct (Math_max_choice _ _ Nsn Ns) as [-> | ->]; assumption).
      assert (L : (Math_max snappedTime start <=? stop) = true)
        by (rewrite (leb_zero_zero _ start stop Zmax Zs); exact Hse).
      apply eqb_zero_zero; [| exact Zs].
      exact (eqb_zero_r _ _ (Math_min_keeps _ _ L) Zmax).
  - intros cur next w ts G T. unfold interpolateTimeSlider.
    cbn [slideCurrent progress]. rewrite G. cbn [timeData]. fold step.
    assert (P : (step <=? 0) = false) by (now apply ltb_not_leb).
    rewrite P, T. reflexivity.
  - intros Hs. change (time (newDate (clampedTime t 0)))
      with (TimeClip (clampedTime t 0)).
    apply TimeClip_strict_eq; [exact Hs | exact S0].
Qed.

Lemma clampedTime_at_progress_zero_witness :
  clampedTime Sample.year2020 0 = 1577836800000
  /\ strict_eq (clampedTime Sample.year2020 0)
       (timeSliderStart Sample.year2020) = true
  /\ strict_eq (time (newDate (clampedTime Sample.year2020 0)))
       (timeSliderStart Sample.year2020) = true.
Proof.
  split; [reflexivity|].
  destruct (clampedTime_at_progress_zero Sample.year2020
              eq_refl eq_refl eq_refl eq_refl eq_refl) as (S0 & _ & D).
  split; [exact S0 | exact (D eq_refl)].
Defined.

End TimeAtZero.
